(** * MeteoSIX -> InfluxDB incremental ETL: a shallow embedding

    The development follows [meteosix_to_influx.py]: the helpers
    ([chunked], [stable_hash], [normalize_query]), place resolution
    ([pick_best_feature], [resolve_place_ids]), the forecast fetcher
    ([request_forecast]), the transformer ([iter_timeseries_points]), the
    writer adapter ([write_to_influx]) and the orchestration loop
    ([run_etl]).

    Python values that flow through the program are JSON documents; a
    Python [dict] is an association list in insertion order; exceptions
    are an explicit [result]; the network, the file system, the console
    and the clock are a [world] that every effectful function threads. *)

From Stdlib Require Import List String Ascii ZArith Bool Arith Lia.
From Stdlib Require Import Permutation Sorted DecimalString.
From Stdlib Require Import SpecFloat.
Import ListNotations.

Set Warnings "-register-all".
Local Open Scope string_scope.
Local Open Scope list_scope.
Local Open Scope nat_scope.

(* ================================================================== *)
(** ** Exceptions and results *)

Inductive exn : Type :=
| RuntimeError (msg : string)
| AttributeError
| TypeError
| ValueError
| OverflowError
| RequestException   (* requests.get, raise_for_status or r.json() failed *)
| InfluxError.       (* the time-series client raised *)

Inductive result (A : Type) : Type :=
| Ok (a : A)
| Raise (e : exn).

Arguments Ok {A} a.
Arguments Raise {A} e.

Definition rbind {A B} (r : result A) (k : A -> result B) : result B :=
  match r with
  | Ok a => k a
  | Raise e => Raise e
  end.

Declare Scope result_scope.
Delimit Scope result_scope with result.
Notation "'try!' x <- r ; k" := (rbind r (fun x => k))
  (at level 10, x name, r at level 100, k at level 200) : result_scope.
Local Open Scope result_scope.

(* ================================================================== *)
(** ** Strings

    A Python [str] is a sequence of code points.  The embedding covers the
    code points below 256 (Latin-1): an [ascii] is the code point with the
    same number. *)

Definition chr (n : nat) : ascii := ascii_of_nat n.
Definition ord (c : ascii) : nat := nat_of_ascii c.
Definition str1 (c : ascii) : string := String c EmptyString.

Definition quote_char : ascii := chr 34.
Definition backslash_char : ascii := chr 92.
Definition apostrophe_char : ascii := chr 39.

(** [str.isspace] on one code point. *)
Definition is_space (c : ascii) : bool :=
  let n := ord c in
  ((9 <=? n) && (n <=? 13)) || ((28 <=? n) && (n <=? 32))
  || (n =? 133) || (n =? 160).

(** [str.lower] on one code point. *)
Definition lower_char (c : ascii) : ascii :=
  let n := ord c in
  if ((65 <=? n) && (n <=? 90))
     || ((192 <=? n) && (n <=? 222) && negb (n =? 215))
  then chr (n + 32) else c.

Fixpoint lower (s : string) : string :=
  match s with
  | EmptyString => EmptyString
  | String c s' => String (lower_char c) (lower s')
  end.

Fixpoint lstrip (s : string) : string :=
  match s with
  | EmptyString => EmptyString
  | String c s' => if is_space c then lstrip s' else s
  end.

Fixpoint rstrip (s : string) : string :=
  match s with
  | EmptyString => EmptyString
  | String c s' =>
      match rstrip s' with
      | EmptyString => if is_space c then EmptyString else str1 c
      | r => String c r
      end
  end.

Definition strip (s : string) : string := rstrip (lstrip s).

(** [sep.join(xs)] *)
Definition join (sep : string) (xs : list string) : string :=
  String.concat sep xs.

Definition is_empty_str (s : string) : bool :=
  match s with EmptyString => true | _ => false end.

(** Decimal rendering of a Python [int]. *)
Definition int_repr (z : Z) : string := NilZero.string_of_int (Z.to_int z).

Definition hex_digit (n : nat) : ascii :=
  if n <? 10 then chr (48 + n) else chr (87 + n).

(* ================================================================== *)
(** ** Dictionaries: association lists in insertion order *)

Definition dict (V : Type) : Type := list (string * V).

Fixpoint dict_get {V} (k : string) (m : dict V) : option V :=
  match m with
  | [] => None
  | (k', v) :: m' => if String.eqb k k' then Some v else dict_get k m'
  end.

Definition dict_mem {V} (k : string) (m : dict V) : bool :=
  match dict_get k m with Some _ => true | None => false end.

(** [m[k] = v]: the value is replaced in place when the key is there, the
    pair is appended otherwise. *)
Fixpoint dict_set {V} (k : string) (v : V) (m : dict V) : dict V :=
  match m with
  | [] => [(k, v)]
  | (k', v') :: m' =>
      if String.eqb k k' then (k', v) :: m' else (k', v') :: dict_set k v m'
  end.

(* ================================================================== *)
(** ** The part of the Python runtime the program relies on

    Floating-point numbers, their conversions and the ISO-8601 parser of
    [dateutil] are an interface; [Binary64] below is an instance. *)

Inductive float_kind : Type := FFinite | FPosInf | FNegInf | FNaN.

Class PyRuntime : Type := {
  pyfloat : Type;
  (** [float(n)] for an [int]; [None] is [OverflowError] *)
  float_of_int : Z -> option pyfloat;
  (** [float(s)] for a [str]; [None] is [ValueError] *)
  float_of_str : string -> option pyfloat;
  (** [x == 0.0] *)
  float_is_zero : pyfloat -> bool;
  float_kind_of : pyfloat -> float_kind;
  (** [float.__repr__] *)
  float_repr : pyfloat -> string;
  datetime : Type;
  (** [dateutil.parser.isoparse] on a [str]; [None] is [ValueError] *)
  isoparse : string -> option datetime
}.

(* ================================================================== *)
(** ** SHA-256 ([hashlib.sha256]) on byte strings

    Bytes and 32-bit words are [Z]; additions wrap modulo [2^32]. *)

Module Sha256.
Local Open Scope Z_scope.

Definition w32 (x : Z) : Z := x mod 4294967296.
Definition add32 (x y : Z) : Z := w32 (x + y).
Definition rotr (n x : Z) : Z :=
  Z.lor (Z.shiftr x n) (w32 (Z.shiftl x (32 - n))).
Definition not32 (x : Z) : Z := Z.lxor x 4294967295.

Definition Ch (x y z : Z) : Z := Z.lxor (Z.land x y) (Z.land (not32 x) z).
Definition Maj (x y z : Z) : Z :=
  Z.lxor (Z.lxor (Z.land x y) (Z.land x z)) (Z.land y z).
Definition Sigma0 (x : Z) : Z :=
  Z.lxor (Z.lxor (rotr 2 x) (rotr 13 x)) (rotr 22 x).
Definition Sigma1 (x : Z) : Z :=
  Z.lxor (Z.lxor (rotr 6 x) (rotr 11 x)) (rotr 25 x).
Definition sigma0 (x : Z) : Z :=
  Z.lxor (Z.lxor (rotr 7 x) (rotr 18 x)) (Z.shiftr x 3).
Definition sigma1 (x : Z) : Z :=
  Z.lxor (Z.lxor (rotr 17 x) (rotr 19 x)) (Z.shiftr x 10).

(** The constants are fractional parts of roots of the first primes:
    the first 32 bits of the cube roots of the first 64 primes for the
    rounds, of the square roots of the first 8 for the initial state. *)
Definition is_prime (n : Z) : bool :=
  forallb (fun d => negb (n mod Z.of_nat d =? 0)) (seq 2 (Z.to_nat n - 2)%nat).

Definition primes : list Z :=
  firstn 64 (filter is_prime (map Z.of_nat (seq 2 400))).

(** The largest [r] with [r^3 <= n], found bit by bit below [2^40]. *)
Definition cube_root (n : Z) : Z :=
  fold_left
    (fun r b => let r' := r + 2 ^ Z.of_nat b in
                if r' ^ 3 <=? n then r' else r)
    (rev (seq 0 40)) 0.

Definition K : list Z :=
  Eval vm_compute in
    map (fun p => cube_root (p * 2 ^ 96) mod 2 ^ 32) primes.

(** The eight working variables / chaining values. *)
Record state : Type := mkState {
  va : Z; vb : Z; vc : Z; vd : Z; ve : Z; vf : Z; vg : Z; vh : Z
}.

Definition H0 : state :=
  Eval vm_compute in
    let h := fun i : nat => Z.sqrt (nth i primes 0 * 2 ^ 64) mod 2 ^ 32 in
    mkState (h 0%nat) (h 1%nat) (h 2%nat) (h 3%nat)
            (h 4%nat) (h 5%nat) (h 6%nat) (h 7%nat).

(** Padding: a [0x80] byte, zeros up to 56 modulo 64, the bit length on
    eight bytes, big-endian. *)
Definition be_bytes (n : nat) (x : Z) : list Z :=
  map (fun i => Z.shiftr x (8 * Z.of_nat (n - 1 - i)) mod 256) (seq 0 n).

Definition pad (msg : list Z) : list Z :=
  let len := Z.of_nat (List.length msg) in
  let zeros := Z.to_nat ((55 - len) mod 64) in
  msg ++ [128] ++ repeat 0 zeros ++ be_bytes 8 (8 * len).

Fixpoint words_of_bytes (n : nat) (bs : list Z) : list Z :=
  match n with
  | O => []
  | S n' =>
      match bs with
      | b0 :: b1 :: b2 :: b3 :: bs' =>
          (b0 * 16777216 + b1 * 65536 + b2 * 256 + b3)
            :: words_of_bytes n' bs'
      | _ => []
      end
  end.

(** Message schedule: [w] holds the words computed so far, newest first. *)
Fixpoint extend (n : nat) (w : list Z) : list Z :=
  match n with
  | O => w
  | S n' =>
      let x := add32 (add32 (sigma1 (nth 1 w 0)) (nth 6 w 0))
                     (add32 (sigma0 (nth 14 w 0)) (nth 15 w 0)) in
      extend n' (x :: w)
  end.

Definition schedule (block : list Z) : list Z :=
  rev (extend 48 (rev (words_of_bytes 16 block))).

Definition round (s : state) (kw : Z * Z) : state :=
  let (k, w) := kw in
  let t1 := add32 (add32 (add32 (vh s) (Sigma1 (ve s)))
                         (add32 (Ch (ve s) (vf s) (vg s)) k)) w in
  let t2 := add32 (Sigma0 (va s)) (Maj (va s) (vb s) (vc s)) in
  mkState (add32 t1 t2) (va s) (vb s) (vc s)
          (add32 (vd s) t1) (ve s) (vf s) (vg s).

Definition compress (h : state) (block : list Z) : state :=
  let s := fold_left round (combine K (schedule block)) h in
  mkState (add32 (va h) (va s)) (add32 (vb h) (vb s))
          (add32 (vc h) (vc s)) (add32 (vd h) (vd s))
          (add32 (ve h) (ve s)) (add32 (vf h) (vf s))
          (add32 (vg h) (vg s)) (add32 (vh h) (vh s)).

Fixpoint blocks (n : nat) (bs : list Z) (h : state) : state :=
  match n with
  | O => h
  | S n' => blocks n' (skipn 64 bs) (compress h (firstn 64 bs))
  end.

Definition digest (msg : list Z) : state :=
  let p := pad msg in
  blocks (Nat.div (List.length p) 64) p H0.

Definition hex_nibble (x : Z) (i : Z) : ascii :=
  hex_digit (Z.to_nat (Z.shiftr x (4 * i) mod 16)).

Definition hex_word (x : Z) : string :=
  String (hex_nibble x 7) (String (hex_nibble x 6)
  (String (hex_nibble x 5) (String (hex_nibble x 4)
  (String (hex_nibble x 3) (String (hex_nibble x 2)
  (String (hex_nibble x 1) (String (hex_nibble x 0) EmptyString))))))).

(** [hashlib.sha256(raw).hexdigest()] *)
Definition hexdigest (msg : list Z) : string :=
  let s := digest msg in
  (hex_word (va s) ++ hex_word (vb s) ++ hex_word (vc s) ++ hex_word (vd s)
   ++ hex_word (ve s) ++ hex_word (vf s) ++ hex_word (vg s)
   ++ hex_word (vh s))%string.

End Sha256.

(** [s.encode("utf-8")] on code points below 256. *)
Definition utf8_char (c : ascii) : list Z :=
  let n := Z.of_nat (ord c) in
  if (n <? 128)%Z then [n] else [(192 + n / 64)%Z; (128 + n mod 64)%Z].

Fixpoint utf8_encode (s : string) : list Z :=
  match s with
  | EmptyString => []
  | String c s' => utf8_char c ++ utf8_encode s'
  end.

(* ================================================================== *)
(** ** JSON documents and the Python operations applied to them *)

Section Values.
Context {RT : PyRuntime}.

Inductive json : Type :=
| JNull
| JBool (b : bool)
| JInt (z : Z)
| JFloat (f : pyfloat)
| JStr (s : string)
| JArr (l : list json)
| JObj (m : list (string * json)).

(** [bool(v)] *)
Definition truthy (v : json) : bool :=
  match v with
  | JNull => false
  | JBool b => b
  | JInt z => negb (z =? 0)%Z
  | JFloat f => negb (float_is_zero f)
  | JStr s => negb (is_empty_str s)
  | JArr l => match l with [] => false | _ => true end
  | JObj m => match m with [] => false | _ => true end
  end.

(** [a or b] *)
Definition py_or (a b : json) : json := if truthy a then a else b.

(** [v is not None] *)
Definition is_not_none (v : json) : bool :=
  match v with JNull => false | _ => true end.

(** [o.get(k)]: only a [dict] has the method; a missing key gives [None]. *)
Definition py_get (o : json) (k : string) : result json :=
  match o with
  | JObj m => Ok (match dict_get k m with Some v => v | None => JNull end)
  | _ => Raise AttributeError
  end.

(** [k in o] as the program uses it, behind [isinstance(o, dict)]. *)
Definition is_dict_with (o : json) (k : string) : bool :=
  match o with
  | JObj m => dict_mem k m
  | _ => false
  end.

(** [for x in v]: a list gives its elements, a dict its keys, a string its
    characters; nothing else is iterable. *)
Definition py_iter (v : json) : result (list json) :=
  match v with
  | JArr l => Ok l
  | JObj m => Ok (map (fun kv => JStr (fst kv)) m)
  | JStr s => Ok (map (fun c => JStr (str1 c)) (list_ascii_of_string s))
  | _ => Raise TypeError
  end.

(** [v.strip()] and [v.lower()] exist on [str] only. *)
Definition py_strip (v : json) : result string :=
  match v with
  | JStr s => Ok (strip s)
  | _ => Raise AttributeError
  end.

(** [v == s] for a string [s] *)
Definition py_eq_str (v : json) (s : string) : bool :=
  match v with
  | JStr t => String.eqb t s
  | _ => false
  end.

Definition float_of_int_r (z : Z) : result pyfloat :=
  match float_of_int z with
  | Some f => Ok f
  | None => Raise OverflowError
  end.

(** [float(v)] *)
Definition py_float (v : json) : result pyfloat :=
  match v with
  | JNull => Raise TypeError
  | JBool b => float_of_int_r (if b then 1 else 0)%Z
  | JInt z => float_of_int_r z
  | JFloat f => Ok f
  | JStr s =>
      match float_of_str s with
      | Some f => Ok f
      | None => Raise ValueError
      end
  | JArr _ => Raise TypeError
  | JObj _ => Raise TypeError
  end.

(** *** [repr] and [str] *)

Definition hex2 (n : nat) : string :=
  String (hex_digit (Nat.div n 16)) (str1 (hex_digit (Nat.modulo n 16))).

Definition is_printable (n : nat) : bool :=
  if n <? 32 then false
  else if n <? 127 then true
  else if n <? 161 then false
  else negb (n =? 173).

Definition repr_char (q c : ascii) : string :=
  let n := ord c in
  if Ascii.eqb c q || Ascii.eqb c backslash_char
  then String backslash_char (str1 c)
  else if n =? 9 then String backslash_char "t"
  else if n =? 10 then String backslash_char "n"
  else if n =? 13 then String backslash_char "r"
  else if is_printable n then str1 c
  else (String backslash_char "x" ++ hex2 n)%string.

Fixpoint repr_chars (q : ascii) (s : string) : string :=
  match s with
  | EmptyString => EmptyString
  | String c s' => (repr_char q c ++ repr_chars q s')%string
  end.

Fixpoint contains_char (c : ascii) (s : string) : bool :=
  match s with
  | EmptyString => false
  | String c' s' => Ascii.eqb c c' || contains_char c s'
  end.

(** [repr(s)] of a [str]: single quotes, unless the text has one and no
    double quote. *)
Definition str_repr (s : string) : string :=
  let q := if contains_char apostrophe_char s
              && negb (contains_char quote_char s)
           then quote_char else apostrophe_char in
  (str1 q ++ repr_chars q s ++ str1 q)%string.

Fixpoint py_repr (v : json) : string :=
  match v with
  | JNull => "None"
  | JBool b => if b then "True" else "False"
  | JInt z => int_repr z
  | JFloat f => float_repr f
  | JStr s => str_repr s
  | JArr l => ("[" ++ join ", " (map py_repr l) ++ "]")%string
  | JObj m =>
      ("{" ++ join ", "
         ((fix items (m : list (string * json)) : list string :=
             match m with
             | [] => []
             | (k, x) :: m' =>
                 (str_repr k ++ ": " ++ py_repr x)%string :: items m'
             end) m)
       ++ "}")%string
  end.

(** [str(v)] *)
Definition py_str (v : json) : string :=
  match v with
  | JStr s => s
  | _ => py_repr v
  end.

(** *** [json.dumps(obj, sort_keys=True, ensure_ascii=False)] *)

(** One character of a JSON string: the quote, the backslash and the
    control characters are escaped, everything else is kept. *)
Definition json_escape_char (c : ascii) : string :=
  let n := ord c in
  if Ascii.eqb c quote_char then String backslash_char (str1 quote_char)
  else if Ascii.eqb c backslash_char
       then String backslash_char (str1 backslash_char)
  else if n =? 8 then String backslash_char "b"
  else if n =? 12 then String backslash_char "f"
  else if n =? 10 then String backslash_char "n"
  else if n =? 13 then String backslash_char "r"
  else if n =? 9 then String backslash_char "t"
  else if n <? 32 then (String backslash_char "u00" ++ hex2 n)%string
  else str1 c.

Fixpoint json_escape (s : string) : string :=
  match s with
  | EmptyString => EmptyString
  | String c s' => (json_escape_char c ++ json_escape s')%string
  end.

Definition json_string (s : string) : string :=
  (str1 quote_char ++ json_escape s ++ str1 quote_char)%string.

Definition json_float (f : pyfloat) : string :=
  match float_kind_of f with
  | FNaN => "NaN"
  | FPosInf => "Infinity"
  | FNegInf => "-Infinity"
  | FFinite => float_repr f
  end.

(** [sorted(dct.items())]: the keys of a dict are distinct, so the pairs
    are ordered by key alone; insertion sort on the code-point order. *)
Fixpoint insert_by_key {V} (kv : string * V) (l : list (string * V))
  : list (string * V) :=
  match l with
  | [] => [kv]
  | kv' :: l' =>
      if String.leb (fst kv) (fst kv') then kv :: l
      else kv' :: insert_by_key kv l'
  end.

Fixpoint sort_by_key {V} (l : list (string * V)) : list (string * V) :=
  match l with
  | [] => []
  | kv :: l' => insert_by_key kv (sort_by_key l')
  end.

Definition json_item (kv : string * string) : string :=
  (json_string (fst kv) ++ ": " ++ snd kv)%string.

(** The encoder: every value of an object is encoded, the pairs are put in
    key order, then joined (the order of the pairs depends on the keys
    only, so encoding before ordering gives the text that ordering before
    encoding gives). *)
Fixpoint json_dumps (v : json) : string :=
  match v with
  | JNull => "null"
  | JBool b => if b then "true" else "false"
  | JInt z => int_repr z
  | JFloat f => json_float f
  | JStr s => json_string s
  | JArr l => ("[" ++ join ", " (map json_dumps l) ++ "]")%string
  | JObj m =>
      ("{" ++ join ", "
         (map json_item
            (sort_by_key
               ((fix enc (m : list (string * json)) : list (string * string) :=
                   match m with
                   | [] => []
                   | (k, x) :: m' => (k, json_dumps x) :: enc m'
                   end) m)))
       ++ "}")%string
  end.

(** [stable_hash] *)
Definition stable_hash (obj : json) : string :=
  let raw := utf8_encode (json_dumps obj) in
  Sha256.hexdigest raw.

(** [normalize_query] *)
Definition normalize_query (q : string) : string := lower (strip q).

End Values.

(* ================================================================== *)
(** ** Pure helpers of the pipeline *)

Section Helpers.
Context {RT : PyRuntime}.
Local Open Scope Z_scope.

(** [range(start, stop, step)] *)
Definition py_range (start stop step : Z) : result (list Z) :=
  if step =? 0 then Raise ValueError
  else
    let count :=
      if 0 <? step then (stop - start + step - 1) / step
      else (start - stop - step - 1) / (- step) in
    Ok (map (fun k => start + Z.of_nat k * step) (seq 0 (Z.to_nat count))).

(** [xs[i:j]]: a negative bound counts from the end, both are clamped. *)
Definition slice_bound (len k : Z) : Z :=
  if k <? 0 then Z.max 0 (len + k) else Z.min k len.

Definition py_slice {A} (xs : list A) (i j : Z) : list A :=
  let len := Z.of_nat (List.length xs) in
  let lo := slice_bound len i in
  let hi := slice_bound len j in
  firstn (Z.to_nat (hi - lo)) (skipn (Z.to_nat lo) xs).

(** [chunked] *)
Definition chunked {A} (xs : list A) (n : Z) : result (list (list A)) :=
  try! starts <- py_range 0 (Z.of_nat (List.length xs)) n;
  Ok (map (fun i => py_slice xs i (i + n)) starts).

(** [normalize_query] applied to a value that need not be a [str]. *)
Definition normalize_query_value (v : json) : result string :=
  try! s <- py_strip v;
  Ok (lower s).

(** [(f.get("properties") or {}).get("name") or ""] *)
Definition feature_name (f : json) : result json :=
  try! p <- py_get f "properties";
  let props := py_or p (JObj []) in
  try! name <- py_get props "name";
  Ok (py_or name (JStr "")).

(** The loop of [pick_best_feature]: [exact] grows by [append]. *)
Fixpoint collect_exact (q : string) (features exact : list json)
  : result (list json) :=
  match features with
  | [] => Ok exact
  | f :: rest =>
      try! name <- feature_name f;
      try! n <- normalize_query_value name;
      collect_exact q rest (if String.eqb n q then exact ++ [f] else exact)
  end.

(** [pick_best_feature] *)
Definition pick_best_feature (query : string) (features : list json)
  : result (option json) :=
  let q := normalize_query query in
  try! exact <- collect_exact q features [];
  match exact with
  | e :: _ => Ok (Some e)
  | [] => Ok (match features with f :: _ => Some f | [] => None end)
  end.

End Helpers.

(* ================================================================== *)
(** ** The transformer: [iter_timeseries_points] *)

Section Transformer.
Context {RT : PyRuntime}.

(** One element of the returned list: the tuple [(ts, fields, tags)]. *)
Record point : Type := mkPoint {
  pt_time : datetime;
  pt_fields : dict json;
  pt_tags : dict json
}.

(** [o.get(k) or d] *)
Definition get_or (o : json) (k : string) (d : json) : result json :=
  try! x <- py_get o k;
  Ok (py_or x d).

(** [dtparser.isoparse(ti)] *)
Definition py_isoparse (ti : json) : result datetime :=
  match ti with
  | JStr s =>
      match isoparse s with
      | Some t => Ok t
      | None => Raise ValueError
      end
  | _ => Raise TypeError
  end.

(** The branch taken when [var_name == "wind"]. *)
Definition wind_fields (hv : json) (fields : dict json)
  : result (dict json) :=
  try! mv <- py_get hv "moduleValue";
  try! dv <- py_get hv "directionValue";
  try! fields1 <-
    (if is_not_none mv
     then try! x <- py_float mv;
          Ok (dict_set "wind_module" (JFloat x) fields)
     else Ok fields);
  if is_not_none dv
  then try! y <- py_float dv;
       Ok (dict_set "wind_direction" (JFloat y) fields1)
  else Ok fields1.

(** The branch of every other variable; [float(v)] is tried, and
    [ValueError] and [TypeError] alone are caught. *)
Definition scalar_fields (hv : json) (fields : dict json)
  : result (dict json) :=
  try! v <- py_get hv "value";
  if is_not_none v && negb (py_eq_str v "")
  then
    match py_float v with
    | Ok x => Ok (dict_set "value" (JFloat x) fields)
    | Raise ValueError => Ok (dict_set "value_str" (JStr (py_str v)) fields)
    | Raise TypeError => Ok (dict_set "value_str" (JStr (py_str v)) fields)
    | Raise e => Raise e
    end
  else Ok fields.

(** The body of [for hv in values]: [None] when the record is skipped
    ([continue], or an empty [fields]). *)
Definition hourly_point (var_name : json) (tags : dict json) (hv : json)
  : result (option point) :=
  try! ti <- py_get hv "timeInstant";
  if negb (truthy ti) then Ok None
  else
    try! ts <- py_isoparse ti;
    try! fields <-
      (if py_eq_str var_name "wind"
       then wind_fields hv []
       else scalar_fields hv []);
    try! mr <- py_get hv "modelRun";
    let fields := if truthy mr then dict_set "model_run" mr fields
                  else fields in
    Ok (match fields with
        | [] => None
        | _ => Some (mkPoint ts fields tags)
        end).

Fixpoint values_loop (var_name : json) (tags : dict json)
  (values : list json) (out : list point) : result (list point) :=
  match values with
  | [] => Ok out
  | hv :: rest =>
      try! p <- hourly_point var_name tags hv;
      values_loop var_name tags rest
        (match p with Some p => out ++ [p] | None => out end)
  end.

(** The five tags of the place, then the four of the variable. *)
Definition place_tags (place_id : string)
  (place_name municipality province place_type : json) : dict json :=
  [("place_id", JStr place_id); ("place_name", place_name);
   ("municipality", municipality); ("province", province);
   ("type", place_type)].

(** The body of [for var in variables]. *)
Definition variable_points (ptags : dict json) (var : json)
  (out : list point) : result (list point) :=
  try! var_name <- get_or var "name" (JStr "");
  try! model <- get_or var "model" (JStr "");
  try! grid <- get_or var "grid" (JStr "");
  try! units <- get_or var "units" (JStr "");
  let tags := ptags ++ [("variable", var_name); ("model", model);
                        ("grid", grid); ("units", units)] in
  try! values <- get_or var "values" (JArr []);
  try! vs <- py_iter values;
  values_loop var_name tags vs out.

Fixpoint variables_loop (ptags : dict json) (variables : list json)
  (out : list point) : result (list point) :=
  match variables with
  | [] => Ok out
  | var :: rest =>
      try! out' <- variable_points ptags var out;
      variables_loop ptags rest out'
  end.

Fixpoint days_loop (ptags : dict json) (days : list json)
  (out : list point) : result (list point) :=
  match days with
  | [] => Ok out
  | day :: rest =>
      try! variables <- get_or day "variables" (JArr []);
      try! vars <- py_iter variables;
      try! out' <- variables_loop ptags vars out;
      days_loop ptags rest out'
  end.

(** [iter_timeseries_points] *)
Definition iter_timeseries_points (feature : json) : result (list point) :=
  try! props <- get_or feature "properties" (JObj []);
  try! exc <- py_get feature "exception";
  if truthy exc then Ok []
  else
    try! id <- get_or props "id" (JStr "");
    try! place_id <- py_strip id;
    try! place_name <- get_or props "name" (JStr "");
    try! municipality <- get_or props "municipality" (JStr "");
    try! province <- get_or props "province" (JStr "");
    try! place_type <- get_or props "type" (JStr "");
    try! days <- get_or props "days" (JArr []);
    try! ds <- py_iter days;
    days_loop
      (place_tags place_id place_name municipality province place_type)
      ds [].

End Transformer.

(* ================================================================== *)
(** ** The world: collaborators, files, console, clock *)

Section World.
Context {RT : PyRuntime}.

(** [requests.get(url, params=params, timeout=timeout)] *)
Record request : Type := mkRequest {
  req_url : string;
  req_params : dict string;
  req_timeout : Z
}.

(** What [requests.get], [raise_for_status] and [r.json()] give together:
    the decoded body, or an exception of [requests]. *)
Inductive http_outcome : Type :=
| HttpFailed
| HttpJson (data : json).

(** A [Point] of the time-series client, as built by the writer. *)
Record influx_point : Type := mkInfluxPoint {
  ip_measurement : string;
  ip_time : datetime;
  ip_precision : string;
  ip_tags : dict string;
  ip_fields : dict json
}.

Inductive event : Type :=
| EvHttpGet (r : request)
| EvInfluxWrite (bucket : string) (record : list influx_point)
| EvSaveJson (path : string) (obj : json)
| EvPrint (line : string)
| EvSleep (milliseconds : Z).

(** The files hold JSON (reading one never fails on its content, and
    writing one never fails); [trace] is the history of effects, oldest
    first. *)
Record world : Type := mkWorld {
  files : dict json;
  trace : list event
}.

(** The two remote collaborators answer as a function of the history. *)
Record collaborators : Type := mkCollaborators {
  http_get : list event -> request -> http_outcome;
  influx_accepts : list event -> string -> list influx_point -> bool
}.

(** Configuration read from the environment at import time. *)
Record config : Type := mkConfig {
  API_KEY : option string;
  INFLUX_URL : string;
  INFLUX_TOKEN : option string;
  INFLUX_ORG : string;
  INFLUX_BUCKET : string;
  STATE_PATH : string;
  PLACES_PATH : string
}.

Definition M (A : Type) : Type := world -> result A * world.

Definition ret {A} (a : A) : M A := fun w => (Ok a, w).
Definition raise {A} (e : exn) : M A := fun w => (Raise e, w).
Definition lift {A} (r : result A) : M A := fun w => (r, w).

Definition bind {A B} (m : M A) (k : A -> M B) : M B :=
  fun w =>
    match m w with
    | (Ok a, w') => k a w'
    | (Raise e, w') => (Raise e, w')
    end.

(** The world after some more effects that leave the files alone. *)
Definition log (w : world) (events : list event) : world :=
  mkWorld (files w) (trace w ++ events).

Definition emit (e : event) : M unit :=
  fun w => (Ok tt, log w [e]).

End World.

Declare Scope io_scope.
Delimit Scope io_scope with io.
Notation "'do!' x <- m ; k" := (bind m (fun x => k))
  (at level 10, x name, m at level 100, k at level 200) : io_scope.
Notation "'run!' m ; k" := (bind m (fun _ => k))
  (at level 10, m at level 100, k at level 200) : io_scope.

Section Pipeline.
Context {RT : PyRuntime}.
Variable net : collaborators.
Variable cfg : config.
Local Open Scope io_scope.

(** Truth value of an environment variable: unset and empty are false. *)
Definition env_set (v : option string) : bool :=
  match v with
  | Some s => negb (is_empty_str s)
  | None => false
  end.

Definition env_str (v : option string) : string :=
  match v with Some s => s | None => "None" end.

Definition BASE_URL : string := "https://servizos.meteogalicia.gal/apiv5/".
Definition FIND_PLACES_ENDPOINT : string := (BASE_URL ++ "/findPlaces")%string.
Definition FORECAST_ENDPOINT : string :=
  (BASE_URL ++ "/getNumericForecastInfo")%string.
Definition MAX_IDS_PER_REQUEST : Z := 20.

Definition DEFAULT_VARIABLES : list string :=
  ["temperature"; "relative_humidity"; "air_pressure_at_sea_level";
   "precipitation_amount"; "cloud_area_fraction"; "wind";
   "significative_wave_height"; "relative_peak_period";
   "mean_wave_direction"; "sea_water_temperature"].

Definition DEFAULT_PARAMS : dict string :=
  [("lang", "es"); ("format", "application/json");
   ("exceptionsFormat", "application/json")].

(** [load_json] *)
Definition load_json (path : string) (default : json) : M json :=
  fun w =>
    match dict_get path (files w) with
    | None => (Ok default, w)
    | Some content => (Ok content, w)
    end.

(** [save_json] *)
Definition save_json (path : string) (obj : json) : M unit :=
  fun w =>
    (Ok tt, mkWorld (dict_set path obj (files w))
                    (trace w ++ [EvSaveJson path obj])).

Definition print (line : string) : M unit := emit (EvPrint line).
Definition sleep (milliseconds : Z) : M unit := emit (EvSleep milliseconds).

(** The HTTP call: the request is recorded, the collaborator answers from
    the history before it. *)
Definition requests_get (r : request) : M json :=
  fun w =>
    match http_get net (trace w) r with
    | HttpFailed => (Raise RequestException, log w [EvHttpGet r])
    | HttpJson data => (Ok data, log w [EvHttpGet r])
    end.

(** [data["exception"]] once ["exception" in data] holds *)
Definition exception_of (data : json) : json :=
  match data with
  | JObj m => match dict_get "exception" m with Some v => v | None => JNull end
  | _ => JNull
  end.

(** The request of [find_places]. *)
Definition find_places_request (query types : string) : request :=
  let params :=
    [("API_KEY", env_str (API_KEY cfg)); ("location", query);
     ("types", types); ("lang", "es"); ("format", "application/json");
     ("exceptionsFormat", "application/json")] in
  mkRequest FIND_PLACES_ENDPOINT params 30.

(** [find_places] *)
Definition find_places (query types : string) : M json :=
  if negb (env_set (API_KEY cfg))
  then raise (RuntimeError "Falta METEOSIX_API_KEY en variables de entorno.")
  else
    do! data <- requests_get (find_places_request query types);
    if is_dict_with data "exception"
    then raise (RuntimeError
                  ("Error findPlaces: " ++ py_str (exception_of data)))
    else ret data.

(** The request of [request_forecast]. *)
Definition forecast_request (location_ids variables : list string)
  : request :=
  let params := DEFAULT_PARAMS in
  let params := dict_set "API_KEY" (env_str (API_KEY cfg)) params in
  let params := dict_set "locationIds" (join "," location_ids) params in
  let params := dict_set "variables" (join "," variables) params in
  mkRequest FORECAST_ENDPOINT params 60.

(** [request_forecast] *)
Definition request_forecast (location_ids variables : list string) : M json :=
  if negb (env_set (API_KEY cfg))
  then raise (RuntimeError "Falta METEOSIX_API_KEY en variables de entorno.")
  else
    do! data <- requests_get (forecast_request location_ids variables);
    if is_dict_with data "exception"
    then raise (RuntimeError
                  ("Error global getNumericForecastInfo: "
                   ++ py_str (exception_of data)))
    else ret data.

(** *** Place resolution *)

(** [dict(cache)]; the cache file holds a JSON object (it is only ever
    written by [save_json] below), another document is reported as
    [TypeError]. *)
Definition py_dict (v : json) : result (dict json) :=
  match v with
  | JObj m => Ok m
  | _ => Raise TypeError
  end.

(** [key in out and out[key].get("id")], as a truth value *)
Definition cached_id (out : dict json) (key : string) : result bool :=
  match dict_get key out with
  | None => Ok false
  | Some entry =>
      try! id <- py_get entry "id";
      Ok (truthy id)
  end.

Definition unresolved_entry (q : string) : json :=
  JObj [("id", JNull); ("query", JStr q)].

Definition resolved_entry (q place_id : string)
  (name municipality province type : json) : json :=
  JObj [("query", JStr q); ("id", JStr place_id); ("name", name);
        ("municipality", municipality); ("province", province);
        ("type", type)].

(** The branch taken when [best] is truthy. *)
Definition record_resolved (q key : string) (best : json) (out : dict json)
  : M (dict json) :=
  do! props <- lift (get_or best "properties" (JObj []));
  do! id <- lift (get_or props "id" (JStr ""));
  do! place_id <- lift (py_strip id);
  do! name <- lift (py_get props "name");
  do! municipality <- lift (py_get props "municipality");
  do! province <- lift (py_get props "province");
  do! type <- lift (py_get props "type");
  let out := dict_set key
               (resolved_entry q place_id name municipality province type)
               out in
  run! print ("[OK] " ++ q ++ " -> id=" ++ place_id ++ " ("
              ++ py_str name ++ ", " ++ py_str province ++ ")");
  run! sleep 200;
  ret out.

(** The branch taken when [not best]. *)
Definition record_unresolved (q key : string) (out : dict json)
  : M (dict json) :=
  run! print ("[WARN] No encuentro lugar para: " ++ q);
  ret (dict_set key (unresolved_entry q) out).

(** The body of [for q in place_queries]. *)
Definition resolve_one (types q : string) (out : dict json)
  : M (dict json) :=
  let key := normalize_query q in
  do! hit <- lift (cached_id out key);
  if hit then ret out
  else
    do! data <- find_places q types;
    do! features <- lift (get_or data "features" (JArr []));
    (* the loop of [pick_best_feature] iterates [features] *)
    do! fl <- lift (py_iter features);
    do! best <- lift (pick_best_feature q fl);
    match best with
    | Some b =>
        if truthy b then record_resolved q key b out
        else record_unresolved q key out
    | None => record_unresolved q key out
    end.

Fixpoint resolve_loop (types : string) (place_queries : list string)
  (out : dict json) : M (dict json) :=
  match place_queries with
  | [] => ret out
  | q :: rest =>
      do! out' <- resolve_one types q out;
      resolve_loop types rest out'
  end.

(** [resolve_place_ids] *)
Definition resolve_place_ids (place_queries : list string) (types : string)
  : M (dict json) :=
  do! cache <- load_json (PLACES_PATH cfg) (JObj []);
  do! out <- lift (py_dict cache);
  do! out <- resolve_loop types place_queries out;
  run! save_json (PLACES_PATH cfg) (JObj out);
  ret out.

(** *** The writer adapter *)

(** [p.tag(k, str(v or ""))] for every tag, [p.field(fk, fv)] for every
    field, on [Point("forecast_hourly").time(ts, WritePrecision.S)]. *)
Definition to_influx_point (p : point) : influx_point :=
  mkInfluxPoint "forecast_hourly" (pt_time p) "s"
    (fold_left
       (fun acc kv => dict_set (fst kv) (py_str (py_or (snd kv) (JStr ""))) acc)
       (pt_tags p) [])
    (fold_left (fun acc kv => dict_set (fst kv) (snd kv) acc)
       (pt_fields p) []).

(** [write_api.write(bucket=..., record=...)] *)
Definition influx_write (bucket : string) (record : list influx_point)
  : M unit :=
  fun w =>
    if influx_accepts net (trace w) bucket record
    then (Ok tt, log w [EvInfluxWrite bucket record])
    else (Raise InfluxError, log w [EvInfluxWrite bucket record]).

Definition influx_configured : bool :=
  env_set (INFLUX_TOKEN cfg)
  && negb (is_empty_str (INFLUX_ORG cfg))
  && negb (is_empty_str (INFLUX_BUCKET cfg)).

(** [write_to_influx]; the client is opened before the loop and closed
    after the write, and neither is an event of the model. *)
Definition write_to_influx (points : list point) : M Z :=
  if negb influx_configured
  then raise (RuntimeError
                "Faltan INFLUX_TOKEN/INFLUX_ORG/INFLUX_BUCKET en env vars.")
  else
    let influx_points := map to_influx_point points in
    run! (match influx_points with
          | [] => ret tt
          | _ => influx_write (INFLUX_BUCKET cfg) influx_points
          end);
    ret (Z.of_nat (List.length influx_points)).

(** *** Orchestration *)

(** [state[batch_key] = h] *)
Definition py_setitem (o : json) (k : string) (v : json) : result json :=
  match o with
  | JObj m => Ok (JObj (dict_set k v m))
  | _ => Raise TypeError
  end.

(** [for feat in features] of [run_etl] *)
Fixpoint features_loop (features : list json) (all_points : list point)
  (skipped : Z) : result (list point * Z) :=
  match features with
  | [] => Ok (all_points, skipped)
  | feat :: rest =>
      try! exc <- py_get feat "exception";
      if truthy exc then features_loop rest all_points (skipped + 1)%Z
      else
        try! pts <- iter_timeseries_points feat;
        features_loop rest (all_points ++ pts) skipped
  end.

(** The body of [for batch in chunked(...)]; the loop carries [state] and
    [total_written]. *)
Definition etl_batch (variables batch : list string) (st : json * Z)
  : M (json * Z) :=
  let (state, total_written) := st in
  do! data <- request_forecast batch variables;
  let batch_key := join "," batch in
  let h := stable_hash data in
  do! seen <- lift (py_get state batch_key);
  if py_eq_str seen h
  then
    run! print ("[SKIP] Batch sin cambios: " ++ batch_key);
    ret (state, total_written)
  else
    do! features <- lift (get_or data "features" (JArr []));
    do! fl <- lift (py_iter features);
    do! collected <- lift (features_loop fl [] 0%Z);
    let (all_points, skipped) := collected in
    do! written <- write_to_influx all_points;
    let total_written := (total_written + written)%Z in
    do! state <- lift (py_setitem state batch_key (JStr h));
    run! save_json (STATE_PATH cfg) state;
    run! print ("[OK] Batch " ++ batch_key ++ ": escritos "
                ++ int_repr written ++ " puntos; features con exception: "
                ++ int_repr skipped);
    run! sleep 500;
    ret (state, total_written).

Fixpoint etl_loop (variables : list string) (batches : list (list string))
  (st : json * Z) : M (json * Z) :=
  match batches with
  | [] => ret st
  | batch :: rest =>
      do! st' <- etl_batch variables batch st;
      etl_loop variables rest st'
  end.

(** [variables or DEFAULT_VARIABLES] *)
Definition variables_or_default (variables : option (list string))
  : list string :=
  match variables with
  | Some (v :: vs) => v :: vs
  | _ => DEFAULT_VARIABLES
  end.

(** [run_etl] *)
Definition run_etl (location_ids : list string)
  (variables : option (list string)) : M unit :=
  let variables := variables_or_default variables in
  do! state <- load_json (STATE_PATH cfg) (JObj []);
  do! batches <- lift (chunked location_ids MAX_IDS_PER_REQUEST);
  do! st <- etl_loop variables batches (state, 0%Z);
  print ("TOTAL escritos en Influx: " ++ int_repr (snd st)).

End Pipeline.

(* ================================================================== *)
(** ** An instance of the runtime: IEEE binary64

    Floats are [spec_float] values of precision 53; conversions from
    integers and from decimal text round to nearest, ties to even, on
    exact integer arithmetic; [repr] gives the shortest decimal text that
    reads back as the same float. *)

Module B64.
Local Open Scope Z_scope.

Definition prec : Z := 53.
Definition emax : Z := 1024.

Definition of_Z (m e : Z) : spec_float := binary_normalize prec emax m e false.

Definition with_sign (neg : bool) (f : spec_float) : spec_float :=
  match f with
  | S754_zero _ => S754_zero neg
  | S754_infinity _ => S754_infinity neg
  | S754_nan => S754_nan
  | S754_finite _ m e => S754_finite neg m e
  end.

(** [float(n)]: an integer that rounds beyond the largest float
    overflows. *)
Definition of_int (z : Z) : option spec_float :=
  match of_Z z 0 with
  | S754_infinity _ => None
  | f => Some f
  end.

(** The float nearest to [m * 10^e10], for [0 <= m].  For a negative
    exponent the quotient by [10^-e10] is taken with 64 spare bits and a
    sticky bit, which rounds like the exact quotient. *)
Definition of_decimal (neg : bool) (m e10 : Z) : spec_float :=
  if m =? 0 then S754_zero neg
  else if 0 <=? e10 then with_sign neg (of_Z (m * 10 ^ e10) 0)
  else
    let den := 10 ^ (- e10) in
    let k := Z.log2 den + 64 in
    let num := m * 2 ^ k in
    let sticky := if num mod den =? 0 then 0 else 1 in
    with_sign neg (of_Z (2 * (num / den) + sticky) (- (k + 1))).

(** *** Reading decimal text: [float(s)] *)

Definition is_digit (c : ascii) : bool :=
  ((48 <=? ord c) && (ord c <=? 57))%nat.

Definition digit_val (c : ascii) : Z := Z.of_nat (ord c - 48).

Definition underscore : ascii := chr 95.

(** Underscores are allowed between two digits only, and are dropped. *)
Fixpoint drop_underscores (prev : ascii) (s : string) : option string :=
  match s with
  | EmptyString => if Ascii.eqb prev underscore then None else Some EmptyString
  | String c s' =>
      if Ascii.eqb c underscore
      then if is_digit prev then drop_underscores c s' else None
      else if Ascii.eqb prev underscore && negb (is_digit c) then None
      else option_map (String c) (drop_underscores c s')
  end.

Definition read_sign (s : string) : bool * string :=
  match s with
  | String c s' =>
      if Ascii.eqb c "-" then (true, s')
      else if Ascii.eqb c "+" then (false, s')
      else (false, s)
  | EmptyString => (false, s)
  end.

(** Digits read into [acc]; the count of digits read is added to [n]. *)
Fixpoint read_digits (acc n : Z) (s : string) : Z * Z * string :=
  match s with
  | String c s' =>
      if is_digit c then read_digits (10 * acc + digit_val c) (n + 1) s'
      else (acc, n, s)
  | EmptyString => (acc, n, s)
  end.

(** An exponent part is read only when it has a digit. *)
Definition read_exponent (s : string) : Z * string :=
  match s with
  | String c s' =>
      if Ascii.eqb c "e" || Ascii.eqb c "E"
      then
        let (eneg, s1) := read_sign s' in
        let '(ev, ne, s2) := read_digits 0 0 s1 in
        if ne =? 0 then (0, s) else ((if eneg then - ev else ev), s2)
      else (0, s)
  | EmptyString => (0, s)
  end.

Definition ascii_lower (s : string) : string :=
  string_of_list_ascii
    (map (fun c => if ((65 <=? ord c) && (ord c <=? 90))%nat
                   then chr (ord c + 32) else c)
         (list_ascii_of_string s)).

Definition read_float (s : string) : option spec_float :=
  let (neg, s1) := read_sign s in
  let w := ascii_lower s1 in
  if String.eqb w "inf" || String.eqb w "infinity"
  then Some (S754_infinity neg)
  else if String.eqb w "nan" then Some S754_nan
  else
    let '(ip, ni, s2) := read_digits 0 0 s1 in
    let '(m, nf, s3) :=
      match s2 with
      | String c s2' =>
          if Ascii.eqb c "." then read_digits ip 0 s2' else (ip, 0, s2)
      | EmptyString => (ip, 0, s2)
      end in
    if ni + nf =? 0 then None
    else
      let (e, s4) := read_exponent s3 in
      if is_empty_str s4 then Some (of_decimal neg m (e - nf)) else None.

Definition of_str (s : string) : option spec_float :=
  let t := strip s in
  if contains_char underscore t
  then match drop_underscores (chr 0) t with
       | Some u => read_float u
       | None => None
       end
  else read_float t.

(** *** Writing decimal text: [repr(x)] *)

Definition sf_eqb (x y : spec_float) : bool :=
  match x, y with
  | S754_finite s m e, S754_finite s' m' e' =>
      Bool.eqb s s' && Pos.eqb m m' && (e =? e')
  | S754_zero s, S754_zero s' => Bool.eqb s s'
  | S754_infinity s, S754_infinity s' => Bool.eqb s s'
  | S754_nan, S754_nan => true
  | _, _ => false
  end.

(** The value [m * 2^e] as a fraction. *)
Definition fraction (m : positive) (e : Z) : Z * Z :=
  if 0 <=? e then (Zpos m * 2 ^ e, 1) else (Zpos m, 2 ^ (- e)).

(** [num/den] scaled by [10^j]. *)
Definition scale10 (nd : Z * Z) (j : Z) : Z * Z :=
  let (num, den) := nd in
  if 0 <=? j then (num * 10 ^ j, den) else (num, den * 10 ^ (- j)).

(** The [k] with [10^(k-1) <= v < 10^k], searched from an estimate. *)
Fixpoint decpt_from (fuel : nat) (v : Z * Z) (k : Z) : Z :=
  match fuel with
  | O => k
  | S fuel' =>
      let (a, b) := scale10 v (1 - k) in          (* v / 10^(k-1) *)
      if a <? b then decpt_from fuel' v (k - 1)
      else if 10 * b <=? a then decpt_from fuel' v (k + 1)
      else k
  end.

Definition decpt_of (v : Z * Z) : Z :=
  let (num, den) := v in
  decpt_from 8 v ((Z.log2 num - Z.log2 den) * 30103 / 100000).

(** The shortest digit string: with [d] digits, the two neighbours of the
    value are tried, the nearer first. *)
Fixpoint shortest (n : nat) (d : Z) (x : spec_float) (v : Z * Z) (k : Z)
  : Z * Z :=
  match n with
  | O => (0, 0)
  | S n' =>
      let (a, b) := scale10 v (d - k) in
      let lo := a / b in
      let hi := lo + 1 in
      let ok_lo := sf_eqb (of_decimal false lo (k - d)) x in
      let ok_hi := sf_eqb (of_decimal false hi (k - d)) x in
      let lo_nearer := 2 * a <=? (lo + hi) * b in
      if ok_lo && (lo_nearer || negb ok_hi) then (lo, k - d)
      else if ok_hi then (hi, k - d)
      else shortest n' (d + 1) x v k
  end.

Fixpoint strip_zeros (fuel : nat) (digits e10 : Z) : Z * Z :=
  match fuel with
  | O => (digits, e10)
  | S fuel' =>
      if (digits mod 10 =? 0) && negb (digits =? 0)
      then strip_zeros fuel' (digits / 10) (e10 + 1)
      else (digits, e10)
  end.

Definition zeros (n : Z) : string :=
  string_of_list_ascii (repeat "0"%char (Z.to_nat n)).

Definition exponent_text (e : Z) : string :=
  let a := int_repr (Z.abs e) in
  let sign := if e <? 0 then "-" else "+" in
  let lead := if Z.abs e <? 10 then "0" else "" in
  (sign ++ lead ++ a)%string.

(** Fixed notation when [-4 < decpt <= 16], exponent notation
    otherwise. *)
Definition format_digits (digits e10 : Z) : string :=
  let ds := int_repr digits in
  let nd := Z.of_nat (String.length ds) in
  let decpt := nd + e10 in
  if (decpt <=? -4) || (16 <? decpt)
  then
    let more := if 1 <? nd
                then String "." (substring 1 (Z.to_nat (nd - 1)) ds)
                else "" in
    (substring 0 1 ds ++ more ++ "e" ++ exponent_text (decpt - 1))%string
  else if decpt <=? 0 then ("0." ++ zeros (- decpt) ++ ds)%string
  else if nd <=? decpt then (ds ++ zeros (decpt - nd) ++ ".0")%string
  else (substring 0 (Z.to_nat decpt) ds ++ "."
        ++ substring (Z.to_nat decpt) (Z.to_nat (nd - decpt)) ds)%string.

Definition repr (x : spec_float) : string :=
  match x with
  | S754_nan => "nan"
  | S754_infinity s => if s then "-inf" else "inf"
  | S754_zero s => if s then "-0.0" else "0.0"
  | S754_finite s m e =>
      let v := fraction m e in
      let (digits, e10) := shortest 17 1 (S754_finite false m e) v (decpt_of v) in
      let (digits, e10) := strip_zeros 17 digits e10 in
      let sign := if s then "-" else "" in
      (sign ++ format_digits digits e10)%string
  end.

Definition is_zero (x : spec_float) : bool :=
  match x with S754_zero _ => true | _ => false end.

Definition kind_of (x : spec_float) : float_kind :=
  match x with
  | S754_nan => FNaN
  | S754_infinity s => if s then FNegInf else FPosInf
  | _ => FFinite
  end.

End B64.

(** A calendar date and time with an optional offset from UTC, and a
    reader for the form the provider documents,
    [yyyy-MM-ddTHH:mm:ss] followed by nothing, [Z], [+hh], [+hh:mm] or
    [+hhmm].  The other forms of ISO-8601 are outside this instance. *)
Module Iso.
Local Open Scope Z_scope.

Record t : Type := mk {
  year : Z; month : Z; day : Z;
  hour : Z; minute : Z; second : Z;
  utc_offset_minutes : option Z
}.

(** Exactly [n] digits, as a number. *)
Fixpoint digits (n : nat) (acc : Z) (s : string) : option (Z * string) :=
  match n with
  | O => Some (acc, s)
  | S n' =>
      match s with
      | String c s' =>
          if B64.is_digit c
          then digits n' (10 * acc + B64.digit_val c) s'
          else None
      | EmptyString => None
      end
  end.

Definition expect (c : ascii) (s : string) : option string :=
  match s with
  | String c' s' => if Ascii.eqb c c' then Some s' else None
  | EmptyString => None
  end.

Definition is_leap (y : Z) : bool :=
  ((y mod 4 =? 0) && negb (y mod 100 =? 0)) || (y mod 400 =? 0).

Definition days_in_month (y m : Z) : Z :=
  if m =? 2 then (if is_leap y then 29 else 28)
  else if (m =? 4) || (m =? 6) || (m =? 9) || (m =? 11) then 30
  else 31.

Definition zone (s : string) : option (option Z) :=
  match s with
  | EmptyString => Some None
  | String c s' =>
      if Ascii.eqb c "Z" then (if is_empty_str s' then Some (Some 0) else None)
      else if Ascii.eqb c "+" || Ascii.eqb c "-"
      then
        match digits 2 0 s' with
        | Some (h, s1) =>
            let s2 := match expect ":" s1 with Some r => r | None => s1 end in
            let hm :=
              if is_empty_str s1 then Some (h, 0)
              else match digits 2 0 s2 with
                   | Some (m, s3) =>
                       if is_empty_str s3 then Some (h, m) else None
                   | None => None
                   end in
            match hm with
            | Some (h, m) =>
                if (h <=? 23) && (m <=? 59)
                then Some (Some ((if Ascii.eqb c "-" then -1 else 1)
                                 * (60 * h + m)))
                else None
            | None => None
            end
        | None => None
        end
      else None
  end.

Definition parse (s : string) : option t :=
  match digits 4 0 s with
  | Some (y, s) =>
  match expect "-" s with
  | Some s =>
  match digits 2 0 s with
  | Some (mo, s) =>
  match expect "-" s with
  | Some s =>
  match digits 2 0 s with
  | Some (d, s) =>
  match expect "T" s with
  | Some s =>
  match digits 2 0 s with
  | Some (h, s) =>
  match expect ":" s with
  | Some s =>
  match digits 2 0 s with
  | Some (mi, s) =>
  match expect ":" s with
  | Some s =>
  match digits 2 0 s with
  | Some (sec, s) =>
  match zone s with
  | Some z =>
      if (1 <=? y) && (1 <=? mo) && (mo <=? 12)
         && (1 <=? d) && (d <=? days_in_month y mo)
         && (h <=? 23) && (mi <=? 59) && (sec <=? 59)
      then Some (mk y mo d h mi sec z)
      else None
  | None => None end
  | None => None end
  | None => None end
  | None => None end
  | None => None end
  | None => None end
  | None => None end
  | None => None end
  | None => None end
  | None => None end
  | None => None end
  | None => None end.

End Iso.

#[export] Instance Binary64 : PyRuntime := {
  pyfloat := spec_float;
  float_of_int := B64.of_int;
  float_of_str := B64.of_str;
  float_is_zero := B64.is_zero;
  float_kind_of := B64.kind_of;
  float_repr := B64.repr;
  datetime := Iso.t;
  isoparse := Iso.parse
}.

(* ================================================================== *)
(** ** Vocabulary of the properties *)

(** [ceil(a / b)] for a positive [b] *)
Definition ceil_div (a b : Z) : Z := ((a + b - 1) / b)%Z.

(** The [k]-th run of [m] consecutive elements. *)
Definition nth_chunk {A} (xs : list A) (m k : nat) : list A :=
  firstn m (skipn (k * m) xs).

Definition key_le {V} (kv kv' : string * V) : Prop :=
  String.leb (fst kv) (fst kv') = true.

Section Vocabulary.
Context {RT : PyRuntime}.

(** Two documents that differ only in the order of the keys of their
    objects. *)
Inductive key_reorder : json -> json -> Prop :=
| kr_null : key_reorder JNull JNull
| kr_bool b : key_reorder (JBool b) (JBool b)
| kr_int z : key_reorder (JInt z) (JInt z)
| kr_float f : key_reorder (JFloat f) (JFloat f)
| kr_str s : key_reorder (JStr s) (JStr s)
| kr_arr l1 l2 :
    key_reorder_list l1 l2 -> key_reorder (JArr l1) (JArr l2)
| kr_obj m1 m m2 :
    key_reorder_items m1 m -> Permutation m m2 ->
    key_reorder (JObj m1) (JObj m2)
with key_reorder_list : list json -> list json -> Prop :=
| krl_nil : key_reorder_list [] []
| krl_cons x1 x2 l1 l2 :
    key_reorder x1 x2 -> key_reorder_list l1 l2 ->
    key_reorder_list (x1 :: l1) (x2 :: l2)
with key_reorder_items
  : list (string * json) -> list (string * json) -> Prop :=
| kri_nil : key_reorder_items [] []
| kri_cons k x1 x2 m1 m2 :
    key_reorder x1 x2 -> key_reorder_items m1 m2 ->
    key_reorder_items ((k, x1) :: m1) ((k, x2) :: m2).

(** The keys of every object are distinct, as in any Python [dict]. *)
Fixpoint distinct_keys (v : json) : Prop :=
  match v with
  | JArr l =>
      (fix all (l : list json) : Prop :=
         match l with
         | [] => True
         | x :: l' => distinct_keys x /\ all l'
         end) l
  | JObj m =>
      NoDup (map fst m)
      /\ (fix all (m : list (string * json)) : Prop :=
            match m with
            | [] => True
            | (_, x) :: m' => distinct_keys x /\ all m'
            end) m
  | _ => True
  end.

Definition enc_items (m : list (string * json)) : list (string * string) :=
  map (fun kv => (fst kv, json_dumps (snd kv))) m.

(** *** Feature selection *)

(** The normalized name of a feature, as [pick_best_feature] reads it. *)
Definition normalized_name (f : json) : result string :=
  rbind (feature_name f) normalize_query_value.

(** The name of the feature normalizes to the normalized query. *)
Definition is_exact_match (query : string) (f : json) : bool :=
  match normalized_name f with
  | Ok n => String.eqb n (normalize_query query)
  | Raise _ => false
  end.

Definition name_readable (f : json) : Prop :=
  exists n, normalized_name f = Ok n.

(** A feature whose only content is its name. *)
Definition named_feature (name : string) : json :=
  JObj [("properties", JObj [("name", JStr name)])].

(** *** Hourly records *)

(** [m.get(k)] on the pairs of a dict *)
Definition lookup (k : string) (m : dict json) : json :=
  match dict_get k m with Some v => v | None => JNull end.

(** The field that [modelRun] adds when it is truthy. *)
Definition model_run_fields (mr : json) : dict json :=
  if truthy mr then [("model_run", mr)] else [].

(** A wind sub-value: absent or null is [None]; otherwise its [float]. *)
Definition wind_value (v : json) : result (option pyfloat) :=
  if is_not_none v then rbind (py_float v) (fun x => Ok (Some x))
  else Ok None.

Definition opt_field (k : string) (x : option pyfloat) : dict json :=
  match x with Some f => [(k, JFloat f)] | None => [] end.

(** A point is appended only when [fields] is not empty. *)
Definition point_of (ts : datetime) (fields tags : dict json)
  : option point :=
  match fields with
  | [] => None
  | _ => Some (mkPoint ts fields tags)
  end.

Definition points_of (p : option point) : list point :=
  match p with Some p => [p] | None => [] end.

Definition has_fields (p : point) : Prop := pt_fields p <> [].

(** A response feature for one place with one day, one variable and one
    hourly record, and the tags of its points. *)
Definition single_record_feature (var_name : string) (hv : json) : json :=
  JObj [("properties",
         JObj [("id", JStr "15078"); ("name", JStr "Vigo");
               ("days",
                JArr [JObj [("variables",
                             JArr [JObj [("name", JStr var_name);
                                         ("values", JArr [hv])]])]])])].

Definition single_record_tags (var_name : string) : dict json :=
  [("place_id", JStr "15078"); ("place_name", JStr "Vigo");
   ("municipality", JStr ""); ("province", JStr ""); ("type", JStr "");
   ("variable", JStr var_name); ("model", JStr ""); ("grid", JStr "");
   ("units", JStr "")].

(** *** Resolution and orchestration *)

Variable cfg : config.

(** A cache entry that the resolver reuses: its [id] is truthy. *)
Definition usable_entry (entry : json) : bool :=
  match py_get entry "id" with
  | Ok id => truthy id
  | Raise _ => false
  end.

(** The entries that the resolver writes. *)
Inductive written_entry : json -> Prop :=
| written_unresolved q : written_entry (unresolved_entry q)
| written_resolved q place_id name municipality province type :
    written_entry
      (resolved_entry q place_id name municipality province type).

(** The events of one resolution: the search request for [q], console
    lines and pauses. *)
Definition resolve_event (types q : string) (ev : event) : Prop :=
  match ev with
  | EvHttpGet r => r = find_places_request cfg q types
  | EvPrint _ => True
  | EvSleep _ => True
  | _ => False
  end.

(** The events of the whole loop over a starting mapping [out]: a search
    request is for a listed query that [out] does not answer. *)
Definition loop_event (types : string) (queries : list string)
  (out : dict json) (ev : event) : Prop :=
  match ev with
  | EvHttpGet r =>
      exists q, In q queries
                /\ r = find_places_request cfg q types
                /\ cached_id out (normalize_query q) <> Ok true
  | EvPrint _ => True
  | EvSleep _ => True
  | _ => False
  end.

(** The ledger as [run_etl] loads it. *)
Definition ledger_of (w : world) : json :=
  match dict_get (STATE_PATH cfg) (files w) with
  | Some content => content
  | None => JObj []
  end.

(** The effects of a skipped batch: the request and the diagnostic. *)
Definition skip_events (batch variables : list string) : list event :=
  [EvHttpGet (forecast_request cfg batch variables);
   EvPrint ("[SKIP] Batch sin cambios: " ++ join "," batch)].

(** What [run_etl] does once the loop has returned. *)
Definition finish (r : result (json * Z) * world) : result unit * world :=
  match r with
  | (Ok st, w) =>
      (Ok tt, log w [EvPrint ("TOTAL escritos en Influx: "
                              ++ int_repr (snd st))])
  | (Raise e, w) => (Raise e, w)
  end.

End Vocabulary.

Scheme key_reorder_ind' := Minimality for key_reorder Sort Prop
  with key_reorder_list_ind' := Minimality for key_reorder_list Sort Prop
  with key_reorder_items_ind' := Minimality for key_reorder_items Sort Prop.
Combined Scheme key_reorder_mutind
  from key_reorder_ind', key_reorder_list_ind', key_reorder_items_ind'.

(* ================================================================== *)
(** ** Concrete inputs, on the binary64 runtime *)

Module Demo.

(** The float that Python writes [s]. *)
Definition b64 (s : string) : spec_float :=
  match B64.of_str s with
  | Some f => f
  | None => S754_nan
  end.

Definition cfg : config :=
  mkConfig (Some "secret") "http://localhost:8086" (Some "token")
           "hackudc" "meteosix" "etl_state.json" "places.json".

Definition stamp : string := "2024-03-01T10:00:00+01".

Definition stamp_time : Iso.t := Iso.mk 2024 3 1 10 0 0 (Some 60%Z).

(** *** Documents for the digest *)

Definition doc_a : json :=
  JObj [("id", JInt 7);
        ("days", JArr [JObj [("name", JStr "wind"); ("units", JNull)]])].

Definition doc_b : json :=
  JObj [("days", JArr [JObj [("units", JNull); ("name", JStr "wind")]]);
        ("id", JInt 7)].

(** *** Hourly records *)

Definition wind_record : json :=
  JObj [("timeInstant", JStr stamp);
        ("moduleValue", JFloat (b64 "12.3"));
        ("directionValue", JInt 270)].

Definition temperature_record (value : string) : json :=
  JObj [("timeInstant", JStr stamp); ("value", JStr value)].

(** A wind record with neither sub-value, and a scalar record with an
    empty value, both with a model run. *)
Definition wind_record_model_run_only : json :=
  JObj [("timeInstant", JStr stamp);
        ("modelRun", JStr "2024-03-01T00:00:00+01")].

Definition scalar_record_model_run_only : json :=
  JObj [("timeInstant", JStr stamp); ("value", JStr "");
        ("modelRun", JStr "2024-03-01T00:00:00+01")].

(** One place, one day, temperature at three hours, the second with an
    empty value. *)
Definition three_hours : json :=
  JObj [("properties",
         JObj [("id", JStr "15078"); ("name", JStr "Vigo");
               ("days",
                JArr [JObj [("variables",
                  JArr [JObj [("name", JStr "temperature");
                              ("values",
                               JArr [JObj [("timeInstant",
                                            JStr "2024-03-01T10:00:00+01");
                                           ("value", JStr "18.5")];
                                     JObj [("timeInstant",
                                            JStr "2024-03-01T11:00:00+01");
                                           ("value", JStr "")];
                                     JObj [("timeInstant",
                                            JStr "2024-03-01T12:00:00+01");
                                           ("value", JInt 19)]])]])]])])].

(** *** A forecast batch *)

Definition batch : list string := ["15078"; "36057"].

Definition response : json :=
  JObj [("type", JStr "FeatureCollection");
        ("features", JArr [single_record_feature "temperature"
                             (temperature_record "18.5")])].

Definition failed_response : json :=
  JObj [("exception", JObj [("code", JStr "213");
                            ("message", JStr "Invalid API key")])].

(** A forecast service that always answers [data], and a time-series
    service that accepts every write. *)
Definition service (data : json) : collaborators :=
  mkCollaborators (fun _ _ => HttpJson data) (fun _ _ _ => true).

Definition empty_world : world := mkWorld [] [].

(** A world whose ledger already holds the digest of [response] for
    [batch]. *)
Definition ledger : json :=
  JObj [(join "," batch, JStr (stable_hash response))].

Definition world_with_ledger : world :=
  mkWorld [(STATE_PATH cfg, ledger)] [].

(** *** A place cache *)

Definition vigo_entry (id : string) : json :=
  resolved_entry "Vigo" id (JStr "Vigo") (JStr "Vigo") (JStr "Pontevedra")
                 (JStr "locality").

Definition world_with_cache (id : string) : world :=
  mkWorld [(PLACES_PATH cfg, JObj [("vigo", vigo_entry id)])] [].

Definition place_feature (id name : string) : json :=
  JObj [("properties", JObj [("id", JStr id); ("name", JStr name)])].

Definition places_response : json :=
  JObj [("features", JArr [place_feature "15079" "Vigo (Centro)";
                           place_feature "15078" "Vigo"])].

End Demo.

(* ================================================================== *)
(** ** The name of a feature, as the provider gives it *)

Section FeatureNames.
Context {RT : PyRuntime}.

(** The name in the properties of a feature: the text under ["name"];
    the empty text when there is no name or a falsy one; none when the
    name is something else. *)
Definition name_in_properties (properties : dict json) : option string :=
  match dict_get "name" properties with
  | Some (JStr s) => Some s
  | Some v => if truthy v then None else Some ""
  | None => Some ""
  end.

(** The name of a feature: that of its properties; the empty text when
    it has no properties or falsy ones; none when the feature is not an
    object or its properties are something else. *)
Definition provider_name (f : json) : option string :=
  match f with
  | JObj fm =>
      match dict_get "properties" fm with
      | Some (JObj properties) => name_in_properties properties
      | Some p => if truthy p then None else Some ""
      | None => Some ""
      end
  | _ => None
  end.

(** The name of the feature and the query are the same text once both
    are passed through [normalize_query]. *)
Definition name_matches (query : string) (f : json) : Prop :=
  exists s, provider_name f = Some s
            /\ normalize_query s = normalize_query query.

End FeatureNames.

(* ================================================================== *)
(** ** Vocabulary of further properties *)

Section MoreVocabulary.
Context {RT : PyRuntime}.
Variable net : collaborators.
Variable cfg : config.

(** The results of [f] on the elements of a list, in order, appended;
    the first error wins. *)
Fixpoint collect {A B} (f : A -> result (list B)) (xs : list A)
  : result (list B) :=
  match xs with
  | [] => Ok []
  | x :: rest =>
      try! here <- f x;
      try! there <- collect f rest;
      Ok (here ++ there)
  end.

(** The points of one hourly record, of one variable and of one day. *)
Definition record_points (var_name : json) (tags : dict json) (hv : json)
  : result (list point) :=
  try! p <- hourly_point var_name tags hv;
  Ok (points_of p).

Definition day_points (ptags : dict json) (day : json)
  : result (list point) :=
  try! variables <- get_or day "variables" (JArr []);
  try! vars <- py_iter variables;
  collect (fun var => variable_points ptags var []) vars.

(** [f] returns on every element of [pre] and raises [e] on [x]. *)
Definition first_failure {A B} (f : A -> result B) (xs : list A) (e : exn)
  : Prop :=
  exists pre x post,
    xs = pre ++ x :: post
    /\ Forall (fun y => exists r, f y = Ok r) pre
    /\ f x = Raise e.

(** The keys of the tags of a point, in the order of the tuple. *)
Definition TAG_KEYS : list string :=
  ["place_id"; "place_name"; "municipality"; "province"; "type";
   "variable"; "model"; "grid"; "units"].

(** What [x or ""] can be: truthy, or the empty string. *)
Definition tag_value (v : json) : Prop := truthy v = true \/ v = JStr "".

(** The tags of the points of a place. *)
Definition place_tagged (ptags : dict json) (p : point) : Prop :=
  exists vtags,
    pt_tags p = ptags ++ vtags
    /\ map fst vtags = ["variable"; "model"; "grid"; "units"]
    /\ Forall (fun kv => tag_value (snd kv)) vtags.

(** The exceptions that the scalar branch catches. *)
Definition caught (e : exn) : bool :=
  match e with
  | ValueError => true
  | TypeError => true
  | _ => false
  end.

(** The write call of a batch: none for no point. *)
Definition write_events (points : list point) : list event :=
  match points with
  | [] => []
  | _ => [EvInfluxWrite (INFLUX_BUCKET cfg) (map to_influx_point points)]
  end.

(** The effects of a processed batch. *)
Definition process_events (batch variables : list string)
  (points : list point) (skipped : Z) (state' : json) : list event :=
  EvHttpGet (forecast_request cfg batch variables)
  :: write_events points
  ++ [EvSaveJson (STATE_PATH cfg) state';
      EvPrint ("[OK] Batch " ++ join "," batch ++ ": escritos "
               ++ int_repr (Z.of_nat (List.length points))
               ++ " puntos; features con exception: " ++ int_repr skipped);
      EvSleep 500].

(** The points handed to write calls, counted. *)
Fixpoint written_count (events : list event) : Z :=
  match events with
  | [] => 0
  | EvInfluxWrite _ record :: rest =>
      Z.of_nat (List.length record) + written_count rest
  | _ :: rest => written_count rest
  end.

(** A truthy ["exception"] in a feature. *)
Definition has_exception (f : json) : bool :=
  match py_get f "exception" with
  | Ok e => truthy e
  | Raise _ => false
  end.

(** The response of the service to the forecast request of a batch does
    not depend on the history. *)
Definition stateless_service : Prop :=
  forall history history' r, http_get net history r = http_get net history' r.

(** The ledger holds the digest of what the service answers for the
    batch. *)
Definition recorded (variables batch : list string) (state : json) : Prop :=
  exists data,
    (forall w, request_forecast net cfg batch variables w
               = (Ok data,
                  log w [EvHttpGet (forecast_request cfg batch variables)]))
    /\ py_get state (join "," batch) = Ok (JStr (stable_hash data)).

End MoreVocabulary.

(** Events that write nothing: neither to the store nor to a file. *)
Definition quiet {RT : PyRuntime} (ev : event) : Prop :=
  match ev with
  | EvInfluxWrite _ _ => False
  | EvSaveJson _ _ => False
  | _ => True
  end.

(** More sample data. *)
Module Sample.

(** The configuration without an API key, and without a token. *)
Definition cfg_without_key : config :=
  mkConfig None "http://localhost:8086" (Some "token")
           "hackudc" "meteosix" "etl_state.json" "places.json".

Definition cfg_without_token : config :=
  mkConfig (Some "secret") "http://localhost:8086" None
           "hackudc" "meteosix" "etl_state.json" "places.json".

(** The point of [Demo.response]. *)
Definition temperature_point : point :=
  mkPoint Demo.stamp_time [("value", JFloat (Demo.b64 "18.5"))]
    (single_record_tags "temperature").

(** The ledger after [Demo.batch] has been processed from nothing. *)
Definition ledger_after : json :=
  JObj [(join "," Demo.batch, JStr (stable_hash Demo.response))].

(** The effects of processing [Demo.batch] with the default variables,
    answered by [Demo.response], and the world after a first run from
    nothing. *)
Definition first_run_events : list event :=
  process_events Demo.cfg Demo.batch DEFAULT_VARIABLES [temperature_point]
    0%Z ledger_after
  ++ [EvPrint "TOTAL escritos en Influx: 1"].

Definition world_after_first_run : world :=
  mkWorld [(STATE_PATH Demo.cfg, ledger_after)] first_run_events.

End Sample.

(* ================================================================== *)
(** ** The poller: [poller.py]

    The script polls the weather of a fixed list of places in an endless
    loop and writes one point per hourly value.  Its exceptions are kept
    by class, which is what selects a handler; a printed line is kept as
    its kind and the values formatted into it. *)

Module Poller.
Section Model.
Context {RT : PyRuntime}.

(** An element of [LOCATIONS]. *)
Record location : Type := mkLocation {
  name : string;
  lon : pyfloat;
  lat : pyfloat
}.

(** The environment, read without defaults. *)
Record settings : Type := mkSettings {
  METEOSIX_KEY : option string;
  INFLUX_URL : option string;
  INFLUX_TOKEN : option string;
  INFLUX_ORG : option string;
  INFLUX_BUCKET : option string
}.

Definition BASE_URL : string :=
  "https://servizos.meteogalicia.gal/mf-meteosix-api/getWeatherInfo".

Definition VARIABLES : string :=
  join "," ["temperature"; "wind_module"; "wind_direction";
            "relative_humidity"; "precipitation_amount";
            "cloud_area_fraction"; "air_pressure_at_sea_level"].

Definition POLL_INTERVAL : Z := 600.

(** The exceptions: [requests.HTTPError] with the status code of its
    response, [KeyError], [IndexError], and those of the runtime. *)
Inductive failure : Type :=
| HTTPError (status_code : Z)
| KeyError (key : json)
| IndexError
| Py (e : exn).

Inductive outcome (A : Type) : Type :=
| Done (a : A)
| Failed (e : failure).
Arguments Done {A} a.
Arguments Failed {A} e.

(** [requests.get(url, params=params, timeout=timeout)]; a parameter may
    be [None]. *)
Record get_request : Type := mkGet {
  get_url : string;
  get_params : dict (option string);
  get_timeout : Z
}.

(** [Point("weather").tag("location", ...).tag("variable", ...)
    .field("value", ...).time(...)] *)
Record weather_point : Type := mkWeatherPoint {
  wp_measurement : string;
  wp_location : string;
  wp_variable : json;
  wp_value : pyfloat;
  wp_time : json
}.

(** The lines of the console. *)
Inductive line : Type :=
| Started (interval : Z) (names : list string)
| Polling (clock : string)
| NoData (loc_name : string)
| NotWritten (var_name v : json) (e : failure)
| Written (loc_name : string) (written : Z)
| HttpFailure (loc_name : string) (status_code : Z) (e : failure)
| NetworkFailure (loc_name : string) (e : failure)
| Unexpected (loc_name : string) (e : failure)
| Next (interval : Z).

(** A write is recorded with what the store did with it. *)
Inductive event : Type :=
| EvGet (r : get_request)
| EvWrite (bucket org : option string) (p : weather_point)
    (refused : option failure)
| EvPrint (l : line)
| EvSleep (seconds : Z).

Inductive fetch_outcome : Type :=
| Fetched (data : json)
| FetchFailed (e : failure).

(** The service, the store and the clock answer from the history. *)
Record services : Type := mkServices {
  fetch : list event -> get_request -> fetch_outcome;
  store : list event -> option string -> option string -> weather_point
          -> option failure;
  now : list event -> string
}.

Definition P (A : Type) : Type := list event -> outcome A * list event.

Definition ret {A} (a : A) : P A := fun t => (Done a, t).
Definition fail {A} (e : failure) : P A := fun t => (Failed e, t).

Definition bind {A B} (m : P A) (k : A -> P B) : P B :=
  fun t =>
    match m t with
    | (Done a, t') => k a t'
    | (Failed e, t') => (Failed e, t')
    end.

Definition of_result {A} (r : result A) : P A :=
  match r with
  | Ok a => ret a
  | Raise e => fail (Py e)
  end.

Definition of_outcome {A} (r : outcome A) : P A := fun t => (r, t).

Definition emit (ev : event) : P unit := fun t => (Done tt, t ++ [ev]).
Definition print (l : line) : P unit := emit (EvPrint l).
Definition sleep (seconds : Z) : P unit := emit (EvSleep seconds).

(** [try: body except classes: handler] *)
Definition try_except {A} (body : P A) (handles : failure -> bool)
  (handler : failure -> P A) : P A :=
  fun t =>
    match body t with
    | (Done a, t') => (Done a, t')
    | (Failed e, t') =>
        if handles e then handler e t' else (Failed e, t')
    end.

(** [o.get(k, default)] *)
Definition get_default (o : json) (k : string) (default : json)
  : result json :=
  match o with
  | JObj m =>
      Ok (match dict_get k m with Some v => v | None => default end)
  | _ => Raise AttributeError
  end.

(** [v[0]]: the first element of a list, the first character of a
    string; a dict has no key [0]; nothing else can be indexed. *)
Definition first_item (v : json) : outcome json :=
  match v with
  | JArr (x :: _) => Done x
  | JArr [] => Failed IndexError
  | JStr (String c _) => Done (JStr (str1 c))
  | JStr EmptyString => Failed IndexError
  | JObj _ => Failed (KeyError (JInt 0))
  | _ => Failed (Py TypeError)
  end.

Variable net : services.
Variable cfg : settings.
Variable LOCATIONS : list location.

Local Notation "'let!' x <- m ; k" := (bind m (fun x => k))
  (at level 10, x name, m at level 100, k at level 200).
Local Notation "'then!' m ; k" := (bind m (fun _ => k))
  (at level 10, m at level 100, k at level 200).

(** The request of [fetch_weather]. *)
Definition weather_request (loc : location) : get_request :=
  mkGet BASE_URL
    [("lonlat",
      Some (float_repr (lon loc) ++ "," ++ float_repr (lat loc))%string);
     ("variables", Some VARIABLES);
     ("API_KEY", METEOSIX_KEY cfg);
     ("format", Some "application/json")]
    15.

(** [fetch_weather]: the call, [raise_for_status] and [r.json()]. *)
Definition fetch_weather (loc : location) : P json :=
  fun t =>
    let r := weather_request loc in
    match fetch net t r with
    | Fetched data => (Done data, t ++ [EvGet r])
    | FetchFailed e => (Failed e, t ++ [EvGet r])
    end.

(** [write_api.write(INFLUX_BUCKET, INFLUX_ORG, point)] *)
Definition write_point (p : weather_point) : P unit :=
  fun t =>
    let refused := store net t (INFLUX_BUCKET cfg) (INFLUX_ORG cfg) p in
    let t' := t ++ [EvWrite (INFLUX_BUCKET cfg) (INFLUX_ORG cfg) p refused] in
    match refused with
    | None => (Done tt, t')
    | Some e => (Failed e, t')
    end.

(** [except (ValueError, TypeError)] *)
Definition value_or_type_error (e : failure) : bool :=
  match e with
  | Py ValueError => true
  | Py TypeError => true
  | _ => false
  end.

(** The body of [for val in var.get("values", [])]; it returns the
    counter [written]. *)
Definition write_value (loc_name : string) (var_name val : json)
  (written : Z) : P Z :=
  let! ts <- of_result (py_get val "timeInstant");
  let! v <- of_result (py_get val "value");
  if negb (is_not_none ts) || negb (is_not_none v) then ret written
  else
    try_except
      (let! x <- of_result (py_float v);
       let point := mkWeatherPoint "weather" loc_name var_name x ts in
       then! write_point point;
       ret (written + 1)%Z)
      value_or_type_error
      (fun e =>
         then! print (NotWritten var_name v e);
         ret written).

Fixpoint values_loop (loc_name : string) (var_name : json)
  (values : list json) (written : Z) : P Z :=
  match values with
  | [] => ret written
  | val :: rest =>
      let! written' <- write_value loc_name var_name val written;
      values_loop loc_name var_name rest written'
  end.

(** The body of [for var in day.get("variables", [])]. *)
Definition write_variable (loc_name : string) (var : json) (written : Z)
  : P Z :=
  let! var_name <- of_result (py_get var "name");
  let! values <- of_result (get_default var "values" (JArr []));
  let! vals <- of_result (py_iter values);
  values_loop loc_name var_name vals written.

Fixpoint variables_loop (loc_name : string) (variables : list json)
  (written : Z) : P Z :=
  match variables with
  | [] => ret written
  | var :: rest =>
      let! written' <- write_variable loc_name var written;
      variables_loop loc_name rest written'
  end.

(** The body of [for day in days]. *)
Definition write_day (loc_name : string) (day : json) (written : Z)
  : P Z :=
  let! variables <- of_result (get_default day "variables" (JArr []));
  let! vars <- of_result (py_iter variables);
  variables_loop loc_name vars written.

Fixpoint days_loop (loc_name : string) (days : list json) (written : Z)
  : P Z :=
  match days with
  | [] => ret written
  | day :: rest =>
      let! written' <- write_day loc_name day written;
      days_loop loc_name rest written'
  end.

(** [write_to_influx] *)
Definition write_to_influx (data : json) (loc_name : string) : P unit :=
  let! features <- of_result (get_default data "features" (JArr []));
  if negb (truthy features) then print (NoData loc_name)
  else
    let! first <- of_outcome (first_item features);
    let! properties <- of_result (get_default first "properties" (JObj []));
    let! days <- of_result (get_default properties "days" (JArr []));
    let! ds <- of_result (py_iter days);
    let! written <- days_loop loc_name ds 0%Z;
    print (Written loc_name written).

(** The body of [for loc in LOCATIONS]: the three handlers, in the order
    of the source. *)
Definition poll_location (loc : location) : P unit :=
  fun t =>
    match (let! data <- fetch_weather loc;
           write_to_influx data (name loc)) t with
    | (Done a, t') => (Done a, t')
    | (Failed e, t') =>
        match e with
        | HTTPError status_code =>
            print (HttpFailure (name loc) status_code e) t'
        | Py RequestException => print (NetworkFailure (name loc) e) t'
        | _ => print (Unexpected (name loc) e) t'
        end
    end.

Fixpoint locations_loop (locs : list location) : P unit :=
  match locs with
  | [] => ret tt
  | loc :: rest =>
      then! poll_location loc;
      locations_loop rest
  end.

(** The body of [while True]. *)
Definition cycle : P unit :=
  then! (fun t => print (Polling (now net t)) t);
  then! locations_loop LOCATIONS;
  then! print (Next POLL_INTERVAL);
  sleep POLL_INTERVAL.

(** The first [n] turns of the loop. *)
Fixpoint cycles (n : nat) : P unit :=
  match n with
  | O => ret tt
  | S n' =>
      then! cycle;
      cycles n'
  end.

(** [main], as far as its first [n] turns; the client and the writer are
    made before, and neither is an event of the model. *)
Definition main (n : nat) : P unit :=
  then! print (Started POLL_INTERVAL (map name LOCATIONS));
  cycles n.

(** *** Vocabulary *)

Definition is_get (ev : event) : bool :=
  match ev with EvGet _ => true | _ => false end.

(** The requests among some events, in order. *)
Fixpoint requests_of (events : list event) : list get_request :=
  match events with
  | [] => []
  | EvGet r :: rest => r :: requests_of rest
  | _ :: rest => requests_of rest
  end.

(** The writes that the store accepted, counted. *)
Fixpoint accepted_writes (events : list event) : Z :=
  match events with
  | [] => 0
  | EvWrite _ _ _ None :: rest => 1 + accepted_writes rest
  | _ :: rest => accepted_writes rest
  end.

(** What the loops over a document emit: writes and reports. *)
Definition value_event (ev : event) : Prop :=
  match ev with
  | EvWrite _ _ _ _ => True
  | EvPrint (NotWritten _ _ _) => True
  | _ => False
  end.

(** Every run of [m] only appends events that satisfy [Q]. *)
Definition emits (Q : event -> Prop) {A} (m : P A) : Prop :=
  forall t, exists evs, snd (m t) = t ++ evs /\ Forall Q evs.

End Model.

Arguments Done {RT A} a.
Arguments Failed {RT A} e.

End Poller.

(** Sample data of the poller: three hourly values, one of them not a
    number and one null; a service that answers with them, a store that
    accepts every write, a clock that stands still. *)
Module PollerSample.

Definition cfg : Poller.settings :=
  Poller.mkSettings (Some "key") (Some "http://localhost:8086")
    (Some "token") (Some "hackudc") (Some "weather").

Definition vigo : Poller.location :=
  Poller.mkLocation "Vigo" (Demo.b64 "-8.7207") (Demo.b64 "42.2328").

Definition hourly (v : json) : json :=
  JObj [("timeInstant", JStr Demo.stamp); ("value", v)].

Definition feature (values : list json) : json :=
  JObj [("properties",
         JObj [("days",
                JArr [JObj [("variables",
                             JArr [JObj [("name", JStr "temperature");
                                         ("values", JArr values)]])]])])].

Definition data : json :=
  JObj [("features",
         JArr [feature [hourly (JStr "18.5"); hourly (JStr "n/a");
                        hourly JNull]])].

Definition net : Poller.services :=
  Poller.mkServices (fun _ _ => Poller.Fetched data)
                    (fun _ _ _ _ => None)
                    (fun _ => "10:00:00").

Definition point : Poller.weather_point :=
  Poller.mkWeatherPoint "weather" "Vigo" (JStr "temperature")
    (Demo.b64 "18.5") (JStr Demo.stamp).

(** What [write_to_influx] appends for [data]. *)
Definition events : list Poller.event :=
  [Poller.EvWrite (Some "weather") (Some "hackudc") point None;
   Poller.EvPrint
     (Poller.NotWritten (JStr "temperature") (JStr "n/a")
        (Poller.Py ValueError));
   Poller.EvPrint (Poller.Written "Vigo" 1%Z)].

End PollerSample.

(* ================================================================== *)
(** ** The script: the block under [if __name__ == "__main__"] *)

Section Script.
Context {RT : PyRuntime}.
Variable net : collaborators.
Variable cfg : config.
Local Open Scope io_scope.

(** The letters of the texts that are not ASCII, by code point. *)
Definition n_tilde : string := str1 (chr 241).
Definition o_acute : string := str1 (chr 243).
Definition u_acute : string := str1 (chr 250).

Definition PLACE_QUERIES : list string :=
  [("a coru" ++ n_tilde ++ "a")%string; "vigo"; "santiago de compostela";
   "ferrol"; "pontevedra"; "lugo"; "ourense"; "baiona"; "ribeira";
   "cedeira"; "fisterra"; "malpica"; "sanxenxo"; "cambados"; "viveiro";
   "o grove"; "cangas"; "mondonedo"; "a guarda"; "xinzo"].

(** [[p["id"] for p in places.values() if p.get("id")]] *)
Fixpoint truthy_ids (entries : list json) : result (list json) :=
  match entries with
  | [] => Ok []
  | p :: rest =>
      try! id <- py_get p "id";
      try! ids <- truthy_ids rest;
      Ok (if truthy id then id :: ids else ids)
  end.

(** How the script ends: it returns, it raises [SystemExit], or another
    exception is not caught. *)
Inductive script_end : Type :=
| Returned
| SystemExit (message : string)
| Uncaught (e : exn).

(** The identifiers of a batch when they are all [str]. *)
Fixpoint strs_of (values : list json) : option (list string) :=
  match values with
  | [] => Some []
  | JStr s :: rest =>
      match strs_of rest with
      | Some ss => Some (s :: ss)
      | None => None
      end
  | _ :: rest => None
  end.

(** The loop body of [run_etl] on identifiers as the script has them:
    on a batch that is not of [str] only, [request_forecast] checks the
    key and then [",".join] raises [TypeError], before any request. *)
Definition etl_batch_values (variables : list string) (batch : list json)
  (st : json * Z) : M (json * Z) :=
  match strs_of batch with
  | Some ids => etl_batch net cfg variables ids st
  | None =>
      if negb (env_set (API_KEY cfg))
      then raise (RuntimeError
                    "Falta METEOSIX_API_KEY en variables de entorno.")
      else raise TypeError
  end.

Fixpoint etl_loop_values (variables : list string)
  (batches : list (list json)) (st : json * Z) : M (json * Z) :=
  match batches with
  | [] => ret st
  | batch :: rest =>
      do! st' <- etl_batch_values variables batch st;
      etl_loop_values variables rest st'
  end.

(** [run_etl(LOCATION_IDS)] *)
Definition run_etl_values (location_ids : list json) : M unit :=
  do! state <- load_json (STATE_PATH cfg) (JObj []);
  do! batches <- lift (chunked location_ids MAX_IDS_PER_REQUEST);
  do! st <- etl_loop_values DEFAULT_VARIABLES batches (state, 0%Z);
  print ("TOTAL escritos en Influx: " ++ int_repr (snd st)).

Definition NOTHING_RESOLVED : string :=
  ("No se resolvi" ++ o_acute ++ " ning" ++ u_acute
   ++ "n locationId. Revisa METEOSIX_API_KEY o los nombres.")%string.

(** The block. *)
Definition script : world -> script_end * world :=
  fun w =>
    match resolve_place_ids net cfg PLACE_QUERIES "locality" w with
    | (Raise e, w1) => (Uncaught e, w1)
    | (Ok places, w1) =>
        match truthy_ids (map snd places) with
        | Raise e => (Uncaught e, w1)
        | Ok [] => (SystemExit NOTHING_RESOLVED, w1)
        | Ok (id :: ids) =>
            match run_etl_values (id :: ids) w1 with
            | (Ok _, w2) => (Returned, w2)
            | (Raise e, w2) => (Uncaught e, w2)
            end
        end
    end.

(** The effects of a search that finds nothing. *)
Definition search_in_vain (types q : string) : list event :=
  [EvHttpGet (find_places_request cfg q types);
   EvPrint ("[WARN] No encuentro lugar para: " ++ q)].

(** The mapping after the queries were all searched in vain. *)
Definition all_unresolved (queries : list string) (out : dict json)
  : dict json :=
  fold_left
    (fun acc q => dict_set (normalize_query q) (unresolved_entry q) acc)
    queries out.

(** A mapping whose entries are all unresolved answers no query. *)
Definition unresolved_only (out : dict json) : Prop :=
  Forall (fun kv => exists q, snd kv = unresolved_entry q) out.

End Script.

(* ================================================================== *)
(** * Properties *)

(** ** SHA-256 test vectors (FIPS 180-4) *)

Example sha256_abc :
  Sha256.hexdigest (utf8_encode "abc")
  = "ba7816bf8f01cfea414140de5dae2223b00361a396177a9cb410ff61f20015ad".
Proof. vm_compute. reflexivity. Qed.

Example sha256_empty :
  Sha256.hexdigest []
  = "e3b0c44298fc1c149afbf4c8996fb92427ae41e4649b934ca495991b7852b855".
Proof. vm_compute. reflexivity. Qed.

Example sha256_two_blocks :
  Sha256.hexdigest
    (utf8_encode "abcdbcdecdefdefgefghfghighijhijkijkljklmklmnlmnomnopnopq")
  = "248d6a61d20638b8e5c026930c3e6039a33ce45964ff2167f6ecedd419db06c1".
Proof. vm_compute. reflexivity. Qed.

(** ** Partitioning *)

Lemma ceil_div_spec (a b : Z) :
  (0 < b -> b * (ceil_div a b - 1) < a <= b * ceil_div a b)%Z.
Proof.
  intros Hb. unfold ceil_div.
  pose proof (Z.div_mod (a + b - 1) b ltac:(lia)) as E.
  pose proof (Z.mod_pos_bound (a + b - 1) b Hb) as B.
  nia.
Qed.

Lemma firstn_add_skipn {A} (a b : nat) (l : list A) :
  firstn (a + b) l = firstn a l ++ firstn b (skipn a l).
Proof.
  revert l; induction a as [|a IH]; intros l; simpl.
  - reflexivity.
  - destruct l as [|x l]; simpl.
    + now rewrite firstn_nil.
    + now rewrite IH.
Qed.

Lemma firstn_clamp {A} (a : nat) (l : list A) :
  firstn (Nat.min a (List.length l)) l = firstn a l.
Proof.
  revert l; induction a as [|a IH]; intros [|x l]; simpl; try reflexivity.
  now rewrite IH.
Qed.

(** A slice whose bounds are not negative is [firstn] of [skipn]. *)
Lemma py_slice_firstn_skipn {A} (xs : list A) (i n : Z) :
  (0 <= i)%Z -> (0 <= n)%Z ->
  py_slice xs i (i + n) = firstn (Z.to_nat n) (skipn (Z.to_nat i) xs).
Proof.
  intros Hi Hn. unfold py_slice, slice_bound.
  destruct (Z.ltb_spec i 0); [lia|].
  destruct (Z.ltb_spec (i + n) 0); [lia|].
  destruct (Z_le_gt_dec (Z.of_nat (List.length xs)) i) as [Hge|Hlt].
  - rewrite (skipn_all2 xs (n := Z.to_nat i)) by lia.
    rewrite (skipn_all2 xs) by lia.
    now rewrite !firstn_nil.
  - replace (Z.min i (Z.of_nat (List.length xs))) with i by lia.
    rewrite <- (firstn_clamp (Z.to_nat n)).
    f_equal. rewrite length_skipn. lia.
Qed.

Lemma chunked_unfold {A} (xs : list A) (n : Z) :
  (0 < n)%Z ->
  chunked xs n
  = Ok (map (nth_chunk xs (Z.to_nat n))
            (seq 0 (Z.to_nat (ceil_div (Z.of_nat (List.length xs)) n)))).
Proof.
  intros Hn. unfold chunked, py_range.
  destruct (Z.eqb_spec n 0); [lia|].
  destruct (Z.ltb_spec 0 n); [|lia].
  simpl. f_equal. rewrite map_map. unfold ceil_div.
  rewrite Z.sub_0_r. apply map_ext. intros k.
  rewrite py_slice_firstn_skipn by lia.
  unfold nth_chunk. f_equal. f_equal. lia.
Qed.

Lemma concat_chunks {A} (xs : list A) (m c : nat) :
  List.concat (map (nth_chunk xs m) (seq 0 c)) = firstn (c * m) xs.
Proof.
  induction c as [|c IH].
  - reflexivity.
  - rewrite seq_S, map_app, concat_app, IH. simpl.
    rewrite app_nil_r. unfold nth_chunk.
    rewrite <- firstn_add_skipn. f_equal. lia.
Qed.

(** C2. For a positive [maxSize], [chunked L maxSize] returns batches
    whose concatenation is [L]; every batch has at most [maxSize]
    elements; every batch but the last has exactly [maxSize]; there are
    [ceil(len(L) / maxSize)] batches; the [i]-th batch is the slice of
    [maxSize] elements that starts at [i * maxSize]. *)
Theorem chunked_partition {A} (L : list A) (maxSize : Z) :
  (0 < maxSize)%Z ->
  exists batches,
    chunked L maxSize = Ok batches
    /\ List.concat batches = L
    /\ Forall (fun b => (Z.of_nat (List.length b) <= maxSize)%Z) batches
    /\ (forall i, S i < List.length batches ->
                  Z.of_nat (List.length (nth i batches [])) = maxSize)
    /\ Z.of_nat (List.length batches)
       = ceil_div (Z.of_nat (List.length L)) maxSize
    /\ (forall i, i < List.length batches ->
                  nth i batches []
                  = firstn (Z.to_nat maxSize)
                           (skipn (i * Z.to_nat maxSize) L)).
Proof.
  intros Hn.
  pose proof (@ceil_div_spec (Z.of_nat (List.length L)) maxSize Hn)
    as [Hlo Hhi].
  set (c := ceil_div (Z.of_nat (List.length L)) maxSize) in *.
  assert (Hc : (0 <= c)%Z) by nia.
  eexists. split; [apply chunked_unfold; exact Hn|].
  fold c. set (m := Z.to_nat maxSize).
  assert (Hnth : forall i, i < Z.to_nat c ->
            nth i (map (nth_chunk L m) (seq 0 (Z.to_nat c))) []
            = nth_chunk L m i).
  { intros i Hi.
    rewrite (nth_indep _ [] (nth_chunk L m 0))
      by (rewrite length_map, length_seq; exact Hi).
    rewrite map_nth, seq_nth by exact Hi. reflexivity. }
  repeat split.
  - rewrite concat_chunks. apply firstn_all2. subst m. nia.
  - apply Forall_forall. intros b Hb.
    apply in_map_iff in Hb as (k & <- & _).
    unfold nth_chunk. pose proof (firstn_le_length m (skipn (k * m) L)).
    subst m. lia.
  - rewrite length_map, length_seq. intros i Hi.
    rewrite Hnth by lia. unfold nth_chunk.
    rewrite length_firstn, length_skipn. subst m. nia.
  - rewrite length_map, length_seq. lia.
  - rewrite length_map, length_seq. intros i Hi.
    rewrite Hnth by exact Hi. reflexivity.
Qed.

(** Five identifiers in batches of two. *)
Lemma chunked_partition_witness :
  (0 < 2)%Z
  /\ exists batches,
       chunked ["a"; "b"; "c"; "d"; "e"] 2 = Ok batches
       /\ List.concat batches = ["a"; "b"; "c"; "d"; "e"]
       /\ Forall (fun b => (Z.of_nat (List.length b) <= 2)%Z) batches
       /\ (forall i, S i < List.length batches ->
                     Z.of_nat (List.length (nth i batches [])) = 2%Z)
       /\ Z.of_nat (List.length batches) = ceil_div 5 2
       /\ (forall i, i < List.length batches ->
                     nth i batches []
                     = firstn 2 (skipn (i * 2) ["a"; "b"; "c"; "d"; "e"])).
Proof.
  split; [lia|].
  apply (chunked_partition ["a"; "b"; "c"; "d"; "e"] 2). lia.
Defined.

Example chunked_five_by_two :
  chunked ["a"; "b"; "c"; "d"; "e"] 2 = Ok [["a"; "b"]; ["c"; "d"]; ["e"]].
Proof. reflexivity. Qed.

(** ** The order on keys *)

Lemma ascii_compare_refl c : Ascii.compare c c = Eq.
Proof. apply N.compare_refl. Qed.

Lemma string_compare_refl s : String.compare s s = Eq.
Proof.
  induction s as [|c s IH]; simpl; [reflexivity|].
  now rewrite ascii_compare_refl.
Qed.

Lemma ascii_compare_lt_trans a b c :
  Ascii.compare a b = Lt -> Ascii.compare b c = Lt -> Ascii.compare a c = Lt.
Proof.
  unfold Ascii.compare. rewrite !N.compare_lt_iff. lia.
Qed.

Lemma string_compare_lt_trans s1 : forall s2 s3,
  String.compare s1 s2 = Lt -> String.compare s2 s3 = Lt ->
  String.compare s1 s3 = Lt.
Proof.
  induction s1 as [|a s1 IH]; intros [|b s2] [|c s3]; simpl;
    try discriminate; auto.
  destruct (Ascii.compare a b) eqn:Eab; try discriminate;
  destruct (Ascii.compare b c) eqn:Ebc; try discriminate; intros H1 H2.
  - apply Ascii.compare_eq_iff in Eab, Ebc. subst.
    rewrite ascii_compare_refl. eauto.
  - apply Ascii.compare_eq_iff in Eab. subst. now rewrite Ebc.
  - apply Ascii.compare_eq_iff in Ebc. subst. now rewrite Eab.
  - now rewrite (ascii_compare_lt_trans _ _ _ Eab Ebc).
Qed.

Lemma string_leb_trans s1 s2 s3 :
  String.leb s1 s2 = true -> String.leb s2 s3 = true ->
  String.leb s1 s3 = true.
Proof.
  unfold String.leb.
  destruct (String.compare s1 s2) eqn:E12; try discriminate;
  destruct (String.compare s2 s3) eqn:E23; try discriminate; intros _ _.
  - apply String.compare_eq_iff in E12, E23. subst.
    now rewrite string_compare_refl.
  - apply String.compare_eq_iff in E12. subst. now rewrite E23.
  - apply String.compare_eq_iff in E23. subst. now rewrite E12.
  - now rewrite (string_compare_lt_trans _ _ _ E12 E23).
Qed.

(** ** Sorting by key *)

Section SortByKey.
Variable V : Type.
Implicit Types (l : list (string * V)) (kv : string * V).

Lemma insert_by_key_perm kv l : Permutation (insert_by_key kv l) (kv :: l).
Proof.
  induction l as [|kv' l IH]; simpl.
  - reflexivity.
  - destruct (String.leb (fst kv) (fst kv')).
    + reflexivity.
    + rewrite IH. apply perm_swap.
Qed.

Lemma sort_by_key_perm l : Permutation (sort_by_key l) l.
Proof.
  induction l as [|kv l IH]; simpl.
  - reflexivity.
  - rewrite insert_by_key_perm. now constructor.
Qed.

Lemma insert_by_key_sorted kv l :
  StronglySorted key_le l -> StronglySorted key_le (insert_by_key kv l).
Proof.
  induction 1 as [|kv' l Hs IH Hall]; simpl.
  - repeat constructor.
  - destruct (String.leb (fst kv) (fst kv')) eqn:E.
    + constructor; [now constructor|].
      constructor; [exact E|].
      eapply Forall_impl; [|exact Hall].
      intros x Hx. unfold key_le in *. eapply string_leb_trans; eauto.
    + constructor; [exact IH|].
      assert (Hle : key_le kv' kv).
      { unfold key_le.
        destruct (String.leb_total (fst kv) (fst kv')); congruence. }
      eapply Permutation_Forall.
      * symmetry. apply insert_by_key_perm.
      * now constructor.
Qed.

Lemma sort_by_key_sorted l : StronglySorted key_le (sort_by_key l).
Proof.
  induction l; simpl; [constructor | now apply insert_by_key_sorted].
Qed.

(** Two sorted lists with the same pairs and distinct keys are equal. *)
Lemma sorted_perm_eq l1 : forall l2,
  StronglySorted key_le l1 -> StronglySorted key_le l2 ->
  Permutation l1 l2 -> NoDup (map fst l1) -> l1 = l2.
Proof.
  induction l1 as [|a t1 IH]; intros l2 S1 S2 P N.
  - now apply Permutation_nil in P.
  - destruct l2 as [|b t2].
    { symmetry in P. now apply Permutation_nil in P. }
    inversion S1 as [|? ? S1' A1]; inversion S2 as [|? ? S2' A2]; subst.
    inversion N as [|? ? Nin N']; subst.
    assert (Hab : a = b).
    { assert (Ia : In a (b :: t2))
        by (eapply Permutation_in; [exact P|now left]).
      assert (Ib : In b (a :: t1))
        by (eapply Permutation_in; [symmetry; exact P|now left]).
      destruct Ia as [->|Ia]; [reflexivity|].
      destruct Ib as [->|Ib]; [reflexivity|].
      exfalso. apply Nin.
      rewrite Forall_forall in A1, A2.
      pose proof (String.leb_antisym _ _ (A1 _ Ib) (A2 _ Ia)) as E.
      rewrite E. now apply in_map. }
    subst b. f_equal.
    apply IH; auto. now apply Permutation_cons_inv in P.
Qed.

Lemma sort_by_key_perm_eq l1 l2 :
  Permutation l1 l2 -> NoDup (map fst l1) ->
  sort_by_key l1 = sort_by_key l2.
Proof.
  intros P N. apply sorted_perm_eq; try apply sort_by_key_sorted.
  - rewrite !sort_by_key_perm. exact P.
  - eapply Permutation_NoDup; [|exact N].
    apply Permutation_map. symmetry. apply sort_by_key_perm.
Qed.

End SortByKey.

(** ** The canonical digest *)

Section Digest.
Context {RT : PyRuntime}.

Lemma json_dumps_obj m :
  json_dumps (JObj m)
  = ("{" ++ join ", " (map json_item (sort_by_key (enc_items m)))
     ++ "}")%string.
Proof.
  assert (E : forall m : list (string * json),
             (fix enc (m : list (string * json)) : list (string * string) :=
                match m with
                | [] => []
                | (k, x) :: m' => (k, json_dumps x) :: enc m'
                end) m = enc_items m).
  { intros m'. induction m' as [|[k x] m' IH]; simpl; [reflexivity|].
    now rewrite IH. }
  simpl. now rewrite E.
Qed.

Lemma json_dumps_arr l :
  json_dumps (JArr l) = ("[" ++ join ", " (map json_dumps l) ++ "]")%string.
Proof. reflexivity. Qed.

Lemma map_fst_enc_items m : map fst (enc_items m) = map fst m.
Proof. unfold enc_items. rewrite map_map. reflexivity. Qed.

Lemma distinct_keys_arr l :
  distinct_keys (JArr l) <-> Forall distinct_keys l.
Proof.
  simpl. induction l as [|x l IH].
  - split; constructor.
  - split.
    + intros [Hx Hl]. constructor; [exact Hx|now apply IH].
    + intros Hl. inversion Hl; subst. split; [assumption|now apply IH].
Qed.

Lemma distinct_keys_obj m :
  distinct_keys (JObj m)
  <-> NoDup (map fst m) /\ Forall (fun kv => distinct_keys (snd kv)) m.
Proof.
  simpl. apply and_iff_compat_l.
  induction m as [|[k x] m IH].
  - split; constructor.
  - split.
    + intros [Hx Hm]. constructor; [exact Hx|now apply IH].
    + intros Hm. inversion Hm; subst. split; [assumption|now apply IH].
Qed.

(** The encoder gives one text to two documents that differ in key order
    only. *)
Lemma key_reorder_dumps :
  (forall d1 d2, key_reorder d1 d2 ->
     distinct_keys d1 -> json_dumps d1 = json_dumps d2)
  /\ (forall l1 l2, key_reorder_list l1 l2 ->
        Forall distinct_keys l1 -> map json_dumps l1 = map json_dumps l2)
  /\ (forall m1 m2, key_reorder_items m1 m2 ->
        Forall (fun kv => distinct_keys (snd kv)) m1 ->
        enc_items m1 = enc_items m2).
Proof.
  apply key_reorder_mutind; try reflexivity.
  - intros l1 l2 _ IH Hd. rewrite !json_dumps_arr.
    rewrite IH; [reflexivity|now apply distinct_keys_arr].
  - intros m1 m m2 _ IH P Hd. apply distinct_keys_obj in Hd as [Hnd Hall].
    rewrite !json_dumps_obj. do 4 f_equal.
    rewrite (IH Hall). apply sort_by_key_perm_eq.
    + unfold enc_items. now apply Permutation_map.
    + rewrite <- (IH Hall), map_fst_enc_items. exact Hnd.
  - intros x1 x2 l1 l2 _ IHx _ IHl Hd. inversion Hd; subst. simpl.
    now rewrite IHx, IHl.
  - intros k x1 x2 m1 m2 _ IHx _ IHm Hd. inversion Hd; subst. simpl in *.
    now rewrite IHx, IHm.
Qed.

Lemma hexdigest_length (msg : list Z) :
  String.length (Sha256.hexdigest msg) = 64.
Proof.
  unfold Sha256.hexdigest, Sha256.hex_word.
  cbn [String.append String.length]. reflexivity.
Qed.

(** C3. Two documents that differ only in the order of the keys of their
    objects have the same [stable_hash]; every digest is a string of 64
    characters; two arrays with the same elements in another order can
    have different digests. *)
Theorem stable_hash_key_order :
  (forall d1 d2, key_reorder d1 d2 -> distinct_keys d1 ->
     stable_hash d1 = stable_hash d2)
  /\ (forall d, String.length (stable_hash d) = 64)
  /\ (exists a b, Permutation a b
                  /\ stable_hash (JArr a) <> stable_hash (JArr b)).
Proof.
  split; [|split].
  - intros d1 d2 Hr Hd. unfold stable_hash.
    now rewrite (proj1 key_reorder_dumps d1 d2 Hr Hd).
  - intros d. apply hexdigest_length.
  - exists [JInt 1; JInt 2], [JInt 2; JInt 1]. split.
    + apply perm_swap.
    + vm_compute. discriminate.
Qed.

End Digest.

Lemma doc_a_b_reorder : key_reorder Demo.doc_a Demo.doc_b.
Proof.
  unfold Demo.doc_a, Demo.doc_b.
  eapply kr_obj; [|apply perm_swap].
  repeat constructor.
  eapply kr_obj; [|apply perm_swap].
  repeat constructor.
Qed.

Lemma doc_a_distinct : distinct_keys Demo.doc_a.
Proof.
  simpl. repeat split; repeat constructor; simpl; intuition discriminate.
Qed.

(** The digest of [{"id": 7, "days": [{"name": "wind", "units": null}]}],
    with the keys in two orders. *)
Lemma stable_hash_key_order_witness :
  key_reorder Demo.doc_a Demo.doc_b /\ distinct_keys Demo.doc_a
  /\ stable_hash Demo.doc_a = stable_hash Demo.doc_b.
Proof.
  split; [exact doc_a_b_reorder|]. split; [exact doc_a_distinct|].
  exact (proj1 stable_hash_key_order Demo.doc_a Demo.doc_b
           doc_a_b_reorder doc_a_distinct).
Defined.

Example stable_hash_doc_a :
  json_dumps Demo.doc_a
  = json_dumps (JObj [("days", JArr [JObj [("name", JStr "wind");
                                           ("units", JNull)]]);
                      ("id", JInt 7)])
  /\ stable_hash Demo.doc_a
     = "0f7c618b2b9fe9f60a7c944412107afa798f7ed780e5e2e4cff9347e0c8a717b".
Proof. split; vm_compute; reflexivity. Qed.

(** ** Feature selection *)

Section Pick.
Context {RT : PyRuntime}.

Lemma find_hd_filter {A} (p : A -> bool) (l : list A) :
  find p l = hd_error (filter p l).
Proof.
  induction l as [|x l IH]; simpl; [reflexivity|].
  destruct (p x); [reflexivity|exact IH].
Qed.

Lemma filter_first {A} (p : A -> bool) (pre : list A) (x : A) (post : list A) :
  Forall (fun y => p y = false) pre -> p x = true ->
  filter p (pre ++ x :: post) = x :: filter p post.
Proof.
  intros Hpre Hx. induction Hpre as [|y pre Hy _ IH]; simpl.
  - now rewrite Hx.
  - now rewrite Hy.
Qed.

Lemma filter_none {A} (p : A -> bool) (l : list A) :
  Forall (fun y => p y = false) l -> filter p l = [].
Proof.
  induction 1 as [|y l Hy _ IH]; simpl; [reflexivity|now rewrite Hy].
Qed.

(** The loop collects the exact matches, in the order of the list. *)
Lemma collect_exact_filter query features : forall exact,
  Forall name_readable features ->
  collect_exact (normalize_query query) features exact
  = Ok (exact ++ filter (is_exact_match query) features).
Proof.
  induction features as [|f rest IH]; intros exact Hall; simpl.
  - now rewrite app_nil_r.
  - inversion Hall as [|? ? [n Hn] Hrest]; subst.
    unfold is_exact_match. unfold normalized_name in *.
    destruct (feature_name f) as [name|e]; simpl in *; [|discriminate].
    rewrite Hn. simpl. rewrite (IH _ Hrest).
    destruct (String.eqb n (normalize_query query)); simpl.
    + now rewrite <- app_assoc.
    + reflexivity.
Qed.

Lemma pick_best_feature_find query features :
  Forall name_readable features ->
  pick_best_feature query features
  = Ok (match find (is_exact_match query) features with
        | Some f => Some f
        | None => hd_error features
        end).
Proof.
  intros Hall. unfold pick_best_feature.
  rewrite (collect_exact_filter query features [] Hall). simpl.
  rewrite find_hd_filter.
  destruct (filter (is_exact_match query) features); simpl; [|reflexivity].
  destruct features; reflexivity.
Qed.

(** The name that the loop reads is the provider's, normalized as the
    query is. *)
Lemma name_in_properties_normalized pm s :
  name_in_properties pm = Some s ->
  rbind (rbind (py_get (JObj pm) "name")
               (fun name => Ok (py_or name (JStr ""))))
        normalize_query_value
  = Ok (normalize_query s).
Proof.
  unfold name_in_properties. cbn [py_get rbind].
  assert (Hfalsy : forall v,
            truthy v = false -> Some "" = Some s ->
            rbind (Ok (py_or v (JStr ""))) normalize_query_value
            = Ok (normalize_query s)).
  { intros v Hv [= <-]. unfold py_or. rewrite Hv. reflexivity. }
  destruct (dict_get "name" pm) as [v|]; [|now apply (Hfalsy JNull)].
  destruct v as [| b| z| x| t| l| m];
    try (destruct (truthy _) eqn:Hv; [discriminate|now apply Hfalsy]).
  intros [= <-].
  replace (py_or (JStr t) (JStr "")) with (JStr t)
    by (now destruct t).
  reflexivity.
Qed.

Lemma provider_name_normalized f s :
  provider_name f = Some s -> normalized_name f = Ok (normalize_query s).
Proof.
  unfold provider_name. destruct f as [| | | | | |fm]; try discriminate.
  unfold normalized_name, feature_name. cbn [py_get rbind].
  assert (Hfalsy : forall p,
            truthy p = false -> Some "" = Some s ->
            rbind (rbind (py_get (py_or p (JObj [])) "name")
                         (fun name => Ok (py_or name (JStr ""))))
                  normalize_query_value
            = Ok (normalize_query s)).
  { intros p Hp [= <-]. unfold py_or. rewrite Hp. reflexivity. }
  destruct (dict_get "properties" fm) as [p|];
    [|now apply (Hfalsy JNull)].
  destruct p as [| b| z| x| t| l| pm];
    try (destruct (truthy _) eqn:Hp; [discriminate|now apply Hfalsy]).
  intros H.
  replace (py_or (JObj pm) (JObj [])) with (JObj pm)
    by (now destruct pm).
  now apply name_in_properties_normalized.
Qed.

Lemma provider_name_readable f :
  provider_name f <> None -> name_readable f.
Proof.
  destruct (provider_name f) as [s|] eqn:H; [|congruence].
  intros _. exists (normalize_query s).
  now apply provider_name_normalized.
Qed.

Lemma is_exact_match_name query f s :
  provider_name f = Some s ->
  is_exact_match query f
  = String.eqb (normalize_query s) (normalize_query query).
Proof.
  intros H. unfold is_exact_match.
  now rewrite (provider_name_normalized f s H).
Qed.

Lemma no_match_not_exact query f :
  provider_name f <> None -> ~ name_matches query f ->
  is_exact_match query f = false.
Proof.
  destruct (provider_name f) as [s|] eqn:H; [|congruence].
  intros _ Hn. rewrite (is_exact_match_name query f s H).
  apply String.eqb_neq. intros E. apply Hn. exists s. auto.
Qed.

Lemma no_matches_not_exact query features :
  Forall (fun f => provider_name f <> None) features ->
  Forall (fun g => ~ name_matches query g) features ->
  Forall (fun g => is_exact_match query g = false) features.
Proof.
  induction 1 as [|f rest Hf _ IH]; intros Hn; constructor;
    inversion Hn; subst.
  - now apply no_match_not_exact.
  - now apply IH.
Qed.

(** C9. On a list of features that all have a name (a text, or the
    empty name of a feature without one): the first feature whose name,
    passed through [normalize_query], equals the query passed through
    [normalize_query] is selected when there is one; the first feature
    of the list is selected when no name matches; nothing is selected
    from the empty list.  For the query ["vigo"] and the names
    ["Vigo (Centro)"] and ["Vigo"], the feature named ["Vigo"] is
    selected, and so is one named [" Vigo "]: the name is stripped and
    lowered as the query is. *)
Theorem pick_best_feature_exact_first (query : string) (features : list json) :
  Forall (fun f => provider_name f <> None) features ->
  (forall pre f post,
      features = pre ++ f :: post ->
      Forall (fun g => ~ name_matches query g) pre ->
      name_matches query f ->
      pick_best_feature query features = Ok (Some f))
  /\ (forall f rest,
        features = f :: rest ->
        Forall (fun g => ~ name_matches query g) features ->
        pick_best_feature query features = Ok (Some f))
  /\ (features = [] -> pick_best_feature query features = Ok None)
  /\ pick_best_feature "vigo"
       [named_feature "Vigo (Centro)"; named_feature "Vigo"]
     = Ok (Some (named_feature "Vigo"))
  /\ pick_best_feature "vigo"
       [named_feature "Vigo (Centro)"; named_feature " Vigo "]
     = Ok (Some (named_feature " Vigo ")).
Proof.
  intros Hall.
  assert (Hread : Forall name_readable features).
  { eapply Forall_impl; [|exact Hall].
    intros f. apply provider_name_readable. }
  pose proof (pick_best_feature_find query features Hread) as E.
  rewrite find_hd_filter in E.
  split; [|split; [|split; [|split]]].
  - intros pre f post -> Hpre (s & Hs & Hn). rewrite E.
    apply Forall_app in Hall as [Hall_pre _].
    rewrite (filter_first _ pre f post); [reflexivity| |].
    + now apply no_matches_not_exact.
    + rewrite (is_exact_match_name query f s Hs). now apply String.eqb_eq.
  - intros f rest -> Hnone. rewrite E.
    now rewrite (filter_none _ _ (no_matches_not_exact query _ Hall Hnone)).
  - intros ->. reflexivity.
  - reflexivity.
  - reflexivity.
Qed.

(** A feature is readable when it is an object, its [properties] are
    falsy or an object, and the [name] there is falsy or a string. *)
Lemma feature_shape_readable fm pm s :
  py_or (lookup "properties" fm) (JObj []) = JObj pm ->
  py_or (lookup "name" pm) (JStr "") = JStr s ->
  name_readable (JObj fm).
Proof.
  intros Hp Hn. exists (lower (strip s)).
  unfold normalized_name, feature_name. simpl.
  fold (lookup "properties" fm). rewrite Hp. simpl.
  fold (lookup "name" pm). now rewrite Hn.
Qed.

Lemma named_feature_readable name : name_readable (named_feature name).
Proof.
  unfold name_readable, normalized_name, named_feature, feature_name.
  simpl. destruct name; simpl; eexists; reflexivity.
Qed.

End Pick.

(** The provider lists ["Vigo (Centro)"] before [" VIGO "]. *)
Lemma pick_best_feature_exact_first_witness :
  let features := [named_feature "Vigo (Centro)"; named_feature " VIGO "] in
  Forall (fun f => provider_name f <> None) features
  /\ provider_name (named_feature " VIGO ") = Some " VIGO "
  /\ normalize_query " VIGO " = normalize_query "vigo"
  /\ normalize_query "Vigo (Centro)" <> normalize_query "vigo"
  /\ pick_best_feature "vigo" features
     = Ok (Some (named_feature " VIGO ")).
Proof.
  intros features.
  assert (H : Forall (fun f => provider_name f <> None) features)
    by (repeat constructor; discriminate).
  split; [exact H|]. split; [reflexivity|]. split; [reflexivity|].
  split; [discriminate|].
  apply (proj1 (pick_best_feature_exact_first "vigo" features H)
           [named_feature "Vigo (Centro)"] (named_feature " VIGO ") []).
  - reflexivity.
  - constructor; [|constructor].
    intros (s & Hs & Hn). injection Hs as <-. discriminate Hn.
  - exists " VIGO ". split; reflexivity.
Defined.

(** ** The transformer *)

Section Records.
Context {RT : PyRuntime}.

Lemma py_get_obj m k : py_get (JObj m) k = Ok (lookup k m).
Proof. reflexivity. Qed.

Lemma py_or_str_empty s : py_or (JStr s) (JStr "") = JStr s.
Proof. destruct s; reflexivity. Qed.

(** The transformer on a single-record feature is the loop body on that
    record. *)
Lemma iter_single_record var_name hv :
  iter_timeseries_points (single_record_feature var_name hv)
  = rbind (hourly_point (JStr var_name) (single_record_tags var_name) hv)
          (fun p => Ok (points_of p)).
Proof.
  unfold iter_timeseries_points, single_record_feature. simpl.
  unfold variable_points, get_or. simpl.
  rewrite py_or_str_empty. simpl.
  unfold single_record_tags, place_tags. simpl.
  destruct (hourly_point _ _ hv) as [[p|]|e]; reflexivity.
Qed.

Lemma hourly_point_unfold var_name tags m ti ts :
  lookup "timeInstant" m = ti -> truthy ti = true -> py_isoparse ti = Ok ts ->
  hourly_point var_name tags (JObj m)
  = rbind (if py_eq_str var_name "wind"
           then wind_fields (JObj m) [] else scalar_fields (JObj m) [])
          (fun fields =>
             let mr := lookup "modelRun" m in
             Ok (point_of ts (if truthy mr
                              then dict_set "model_run" mr fields
                              else fields) tags)).
Proof.
  intros Hti Ht Hp. unfold hourly_point. rewrite !py_get_obj. simpl.
  rewrite Hti, Ht, Hp. simpl. reflexivity.
Qed.

Lemma wind_fields_spec m fm fd :
  wind_value (lookup "moduleValue" m) = Ok fm ->
  wind_value (lookup "directionValue" m) = Ok fd ->
  wind_fields (JObj m) []
  = Ok (opt_field "wind_module" fm ++ opt_field "wind_direction" fd).
Proof.
  unfold wind_fields, wind_value. rewrite !py_get_obj. simpl.
  destruct (is_not_none (lookup "moduleValue" m)).
  - destruct (py_float (lookup "moduleValue" m)) as [x|e]; simpl;
      [|discriminate]. intros [= <-].
    destruct (is_not_none (lookup "directionValue" m)).
    + destruct (py_float (lookup "directionValue" m)) as [y|e]; simpl;
        [|discriminate]. intros [= <-]. reflexivity.
    + intros [= <-]. reflexivity.
  - intros [= <-].
    destruct (is_not_none (lookup "directionValue" m)).
    + destruct (py_float (lookup "directionValue" m)) as [y|e]; simpl;
        [|discriminate]. intros [= <-]. reflexivity.
    + intros [= <-]. reflexivity.
Qed.

Lemma model_run_after_wind fm fd mr :
  (if truthy mr
   then dict_set "model_run" mr
          (opt_field "wind_module" fm ++ opt_field "wind_direction" fd)
   else opt_field "wind_module" fm ++ opt_field "wind_direction" fd)
  = opt_field "wind_module" fm ++ opt_field "wind_direction" fd
    ++ model_run_fields mr.
Proof.
  unfold model_run_fields.
  destruct (truthy mr), fm, fd; reflexivity.
Qed.

Lemma wind_fields_have_no_value fm fd mr :
  dict_get "value"
    (opt_field "wind_module" fm ++ opt_field "wind_direction" fd
     ++ model_run_fields mr) = None.
Proof.
  unfold model_run_fields. destruct (truthy mr), fm, fd; reflexivity.
Qed.

(** Numbers and [None] are wind sub-values that are read without
    error. *)
Lemma wind_value_number :
  wind_value JNull = Ok None
  /\ (forall f, wind_value (JFloat f) = Ok (Some f))
  /\ (forall z f, float_of_int z = Some f ->
                  wind_value (JInt z) = Ok (Some f)).
Proof.
  repeat split.
  intros z f H. unfold wind_value. simpl. unfold float_of_int_r.
  now rewrite H.
Qed.

(** Wind records: the two sub-values are read independently. *)
Lemma hourly_point_wind var_name tags m ts fm fd :
  py_eq_str var_name "wind" = true ->
  truthy (lookup "timeInstant" m) = true ->
  py_isoparse (lookup "timeInstant" m) = Ok ts ->
  wind_value (lookup "moduleValue" m) = Ok fm ->
  wind_value (lookup "directionValue" m) = Ok fd ->
  hourly_point var_name tags (JObj m)
  = Ok (point_of ts (opt_field "wind_module" fm
                     ++ opt_field "wind_direction" fd
                     ++ model_run_fields (lookup "modelRun" m)) tags).
Proof.
  intros Hw Ht Hp Hm Hd.
  rewrite (hourly_point_unfold var_name tags m _ ts eq_refl Ht Hp), Hw.
  rewrite (wind_fields_spec m fm fd Hm Hd). simpl.
  now rewrite model_run_after_wind.
Qed.

(** Scalar records. *)
Lemma hourly_point_scalar_number var_name tags m ts x :
  py_eq_str var_name "wind" = false ->
  truthy (lookup "timeInstant" m) = true ->
  py_isoparse (lookup "timeInstant" m) = Ok ts ->
  is_not_none (lookup "value" m) = true ->
  py_eq_str (lookup "value" m) "" = false ->
  py_float (lookup "value" m) = Ok x ->
  hourly_point var_name tags (JObj m)
  = Ok (Some (mkPoint ts (("value", JFloat x)
                            :: model_run_fields (lookup "modelRun" m)) tags)).
Proof.
  intros Hw Ht Hp Hn He Hf.
  rewrite (hourly_point_unfold var_name tags m _ ts eq_refl Ht Hp), Hw.
  unfold scalar_fields. rewrite py_get_obj. simpl. rewrite Hn, He, Hf. simpl.
  unfold model_run_fields. destruct (truthy (lookup "modelRun" m)); reflexivity.
Qed.

Lemma hourly_point_scalar_text var_name tags m ts :
  py_eq_str var_name "wind" = false ->
  truthy (lookup "timeInstant" m) = true ->
  py_isoparse (lookup "timeInstant" m) = Ok ts ->
  is_not_none (lookup "value" m) = true ->
  py_eq_str (lookup "value" m) "" = false ->
  py_float (lookup "value" m) = Raise ValueError
  \/ py_float (lookup "value" m) = Raise TypeError ->
  hourly_point var_name tags (JObj m)
  = Ok (Some (mkPoint ts (("value_str", JStr (py_str (lookup "value" m)))
                            :: model_run_fields (lookup "modelRun" m)) tags)).
Proof.
  intros Hw Ht Hp Hn He Hf.
  rewrite (hourly_point_unfold var_name tags m _ ts eq_refl Ht Hp), Hw.
  unfold scalar_fields. rewrite py_get_obj. simpl. rewrite Hn, He.
  unfold model_run_fields.
  destruct Hf as [-> | ->]; simpl;
    destruct (truthy (lookup "modelRun" m)); reflexivity.
Qed.

End Records.

Section NonEmpty.
Context {RT : PyRuntime}.

Lemma point_of_has_fields ts fields tags p :
  point_of ts fields tags = Some p -> has_fields p.
Proof.
  destruct fields; simpl; [discriminate|].
  intros [= <-]. unfold has_fields. simpl. discriminate.
Qed.

Ltac step_result H :=
  match type of H with
  | rbind ?r _ = Ok _ =>
      let x := fresh "x" in
      destruct r as [x|] eqn:?; simpl in H; [|discriminate H]
  end.

Lemma hourly_point_has_fields var_name tags hv p :
  hourly_point var_name tags hv = Ok (Some p) -> has_fields p.
Proof.
  unfold hourly_point. intros H.
  step_result H.
  destruct (negb (truthy x)); [discriminate|].
  do 3 step_result H.
  injection H as H. eapply point_of_has_fields with (ts := x0). exact H.
Qed.

Lemma values_loop_has_fields var_name tags values : forall out out',
  Forall has_fields out ->
  values_loop var_name tags values out = Ok out' ->
  Forall has_fields out'.
Proof.
  induction values as [|hv rest IH]; simpl; intros out out' Hout H.
  - now injection H as <-.
  - step_result H.
    eapply IH; [|exact H].
    destruct x as [p|]; [|exact Hout].
    apply Forall_app. split; [exact Hout|].
    constructor; [|constructor].
    eapply hourly_point_has_fields; eassumption.
Qed.

Lemma variables_loop_has_fields ptags variables : forall out out',
  Forall has_fields out ->
  variables_loop ptags variables out = Ok out' ->
  Forall has_fields out'.
Proof.
  induction variables as [|var rest IH]; simpl; intros out out' Hout H.
  - now injection H as <-.
  - step_result H. eapply IH; [|exact H].
    unfold variable_points in *.
    match goal with E : _ = Ok x |- _ => rename E into Hv end.
    do 6 step_result Hv.
    eapply values_loop_has_fields; eassumption.
Qed.

Lemma days_loop_has_fields ptags days : forall out out',
  Forall has_fields out ->
  days_loop ptags days out = Ok out' ->
  Forall has_fields out'.
Proof.
  induction days as [|day rest IH]; simpl; intros out out' Hout H.
  - now injection H as <-.
  - do 3 step_result H. eapply IH; [|exact H].
    eapply variables_loop_has_fields; eassumption.
Qed.

Lemma iter_timeseries_points_has_fields feature points :
  iter_timeseries_points feature = Ok points -> Forall has_fields points.
Proof.
  unfold iter_timeseries_points. intros H.
  do 2 step_result H.
  destruct (truthy x0).
  - injection H as <-. constructor.
  - do 8 step_result H.
    eapply days_loop_has_fields; [|exact H]. constructor.
Qed.

(** A record for which the loop body returns nothing whenever its
    timestamp is read never gives a point. *)
Lemma hourly_point_never var_name tags m :
  (forall ts, truthy (lookup "timeInstant" m) = true ->
              py_isoparse (lookup "timeInstant" m) = Ok ts ->
              hourly_point var_name tags (JObj m) = Ok None) ->
  forall p, hourly_point var_name tags (JObj m) <> Ok (Some p).
Proof.
  intros E p.
  destruct (truthy (lookup "timeInstant" m)) eqn:Ht.
  - destruct (py_isoparse (lookup "timeInstant" m)) as [ts|e] eqn:Hp.
    + rewrite (E ts eq_refl eq_refl). discriminate.
    + unfold hourly_point. rewrite py_get_obj. simpl.
      rewrite Ht, Hp. simpl. discriminate.
  - unfold hourly_point. rewrite py_get_obj. simpl. rewrite Ht. simpl.
    discriminate.
Qed.

Lemma single_record_no_point var_name m :
  (forall p, hourly_point (JStr var_name) (single_record_tags var_name)
               (JObj m) <> Ok (Some p)) ->
  forall points,
    iter_timeseries_points (single_record_feature var_name (JObj m))
    = Ok points ->
    points = [].
Proof.
  intros Hno points. rewrite iter_single_record.
  destruct (hourly_point _ _ _) as [[p|]|e]; simpl.
  - now destruct (Hno p).
  - now intros [= <-].
  - discriminate.
Qed.

(** A wind record with neither sub-value and no model run. *)
Lemma wind_record_without_fields tags m ts :
  lookup "moduleValue" m = JNull ->
  lookup "directionValue" m = JNull ->
  truthy (lookup "modelRun" m) = false ->
  truthy (lookup "timeInstant" m) = true ->
  py_isoparse (lookup "timeInstant" m) = Ok ts ->
  hourly_point (JStr "wind") tags (JObj m) = Ok None.
Proof.
  intros Hm Hd Hr Ht Hp.
  rewrite (hourly_point_wind (JStr "wind") tags m ts None None eq_refl Ht Hp).
  - unfold model_run_fields. rewrite Hr. reflexivity.
  - unfold wind_value. now rewrite Hm.
  - unfold wind_value. now rewrite Hd.
Qed.

(** A scalar record whose value is absent, null or the empty string, and
    no model run. *)
Lemma scalar_record_without_fields var_name tags m ts :
  py_eq_str var_name "wind" = false ->
  lookup "value" m = JNull \/ lookup "value" m = JStr "" ->
  truthy (lookup "modelRun" m) = false ->
  truthy (lookup "timeInstant" m) = true ->
  py_isoparse (lookup "timeInstant" m) = Ok ts ->
  hourly_point var_name tags (JObj m) = Ok None.
Proof.
  intros Hw Hv Hr Ht Hp.
  rewrite (hourly_point_unfold var_name tags m _ ts eq_refl Ht Hp), Hw.
  unfold scalar_fields. rewrite py_get_obj. simpl.
  destruct Hv as [-> | ->]; simpl; rewrite Hr; reflexivity.
Qed.

(** C7, as the code has it.  No point of the transformer has an empty
    field map, so a record that ends up with no field gives no point.
    A wind record with neither [moduleValue] nor [directionValue] gives
    no point, and a record of another variable with an absent or empty
    [value] gives no point, when the record has no truthy [modelRun]
    either. *)
Theorem no_point_without_fields :
  (forall feature points,
      iter_timeseries_points feature = Ok points ->
      Forall has_fields points)
  /\ (forall var_name tags hv p,
        hourly_point var_name tags hv = Ok (Some p) -> has_fields p)
  /\ (forall m,
        lookup "moduleValue" m = JNull ->
        lookup "directionValue" m = JNull ->
        truthy (lookup "modelRun" m) = false ->
        (forall tags p,
            hourly_point (JStr "wind") tags (JObj m) <> Ok (Some p))
        /\ (forall points,
              iter_timeseries_points
                (single_record_feature "wind" (JObj m)) = Ok points ->
              points = []))
  /\ (forall name m,
        String.eqb name "wind" = false ->
        lookup "value" m = JNull \/ lookup "value" m = JStr "" ->
        truthy (lookup "modelRun" m) = false ->
        (forall tags p,
            hourly_point (JStr name) tags (JObj m) <> Ok (Some p))
        /\ (forall points,
              iter_timeseries_points
                (single_record_feature name (JObj m)) = Ok points ->
              points = [])).
Proof.
  split; [exact iter_timeseries_points_has_fields|].
  split; [exact hourly_point_has_fields|]. split.
  - intros m Hm Hd Hr.
    assert (Hno : forall tags p,
               hourly_point (JStr "wind") tags (JObj m) <> Ok (Some p)).
    { intros tags. apply hourly_point_never. intros ts.
      now apply wind_record_without_fields. }
    split; [exact Hno|]. apply single_record_no_point. apply Hno.
  - intros name m Hn Hv Hr.
    assert (Hno : forall tags p,
               hourly_point (JStr name) tags (JObj m) <> Ok (Some p)).
    { intros tags. apply hourly_point_never. intros ts.
      now apply scalar_record_without_fields. }
    split; [exact Hno|]. apply single_record_no_point. apply Hno.
Qed.

End NonEmpty.

(** A wind record with a timestamp only, and a temperature record with
    an empty value: the transformer returns no point. *)
Lemma no_point_without_fields_witness :
  lookup "moduleValue" [("timeInstant", JStr Demo.stamp)] = JNull
  /\ lookup "directionValue" [("timeInstant", JStr Demo.stamp)] = JNull
  /\ truthy (lookup "modelRun" [("timeInstant", JStr Demo.stamp)]) = false
  /\ forall points,
       iter_timeseries_points
         (single_record_feature "wind"
            (JObj [("timeInstant", JStr Demo.stamp)])) = Ok points ->
       points = [].
Proof.
  repeat (split; [reflexivity|]).
  apply (proj1 (proj2 (proj2 no_point_without_fields))
           [("timeInstant", JStr Demo.stamp)]); reflexivity.
Defined.

Example wind_record_timestamp_only :
  iter_timeseries_points
    (single_record_feature "wind" (JObj [("timeInstant", JStr Demo.stamp)]))
  = Ok [].
Proof. reflexivity. Qed.

(** The claim of C7 fails on a record that carries a model run: a wind
    record with neither sub-value, and a temperature record with an empty
    value, each give one point whose only field is [model_run]. *)
Lemma model_run_alone_gives_a_point :
  let model_run := JStr "2024-03-01T00:00:00+01" in
  py_get Demo.wind_record_model_run_only "moduleValue" = Ok JNull
  /\ py_get Demo.wind_record_model_run_only "directionValue" = Ok JNull
  /\ iter_timeseries_points
       (single_record_feature "wind" Demo.wind_record_model_run_only)
     = Ok [mkPoint Demo.stamp_time [("model_run", model_run)]
                   (single_record_tags "wind")]
  /\ py_get Demo.scalar_record_model_run_only "value" = Ok (JStr "")
  /\ iter_timeseries_points
       (single_record_feature "temperature"
          Demo.scalar_record_model_run_only)
     = Ok [mkPoint Demo.stamp_time [("model_run", model_run)]
                   (single_record_tags "temperature")].
Proof. repeat split; reflexivity. Qed.

(** X25. In a wind record with a readable timestamp, each of
    [moduleValue] and [directionValue] that is present, and that [float]
    converts, becomes its own field ([wind_module], [wind_direction]),
    whether or not the other is present; no [value] field is written.
    The record [{moduleValue: 12.3, directionValue: 270}] gives exactly
    one point, with the fields [{wind_module: 12.3, wind_direction:
    270.0}]. *)
Theorem wind_fields_independent :
  (forall (RT : PyRuntime) tags m ts fm fd,
      truthy (lookup "timeInstant" m) = true ->
      py_isoparse (lookup "timeInstant" m) = Ok ts ->
      wind_value (lookup "moduleValue" m) = Ok fm ->
      wind_value (lookup "directionValue" m) = Ok fd ->
      let fields := opt_field "wind_module" fm
                    ++ opt_field "wind_direction" fd
                    ++ model_run_fields (lookup "modelRun" m) in
      hourly_point (JStr "wind") tags (JObj m) = Ok (point_of ts fields tags)
      /\ iter_timeseries_points (single_record_feature "wind" (JObj m))
         = Ok (points_of (point_of ts fields (single_record_tags "wind")))
      /\ dict_get "value" fields = None)
  /\ iter_timeseries_points (single_record_feature "wind" Demo.wind_record)
     = Ok [mkPoint Demo.stamp_time
             [("wind_module", JFloat (Demo.b64 "12.3"));
              ("wind_direction", JFloat (Demo.b64 "270.0"))]
             (single_record_tags "wind")].
Proof.
  split.
  - intros RT tags m ts fm fd Ht Hp Hm Hd fields.
    split; [|split].
    + now apply hourly_point_wind.
    + rewrite iter_single_record.
      now rewrite (hourly_point_wind (JStr "wind") _ m ts fm fd eq_refl
                     Ht Hp Hm Hd).
    + apply wind_fields_have_no_value.
  - reflexivity.
Qed.

(** A wind record with a direction and no module. *)
Lemma wind_fields_independent_witness :
  let m := [("timeInstant", JStr Demo.stamp); ("moduleValue", JNull);
            ("directionValue", JInt 270)] in
  truthy (lookup "timeInstant" m) = true
  /\ py_isoparse (lookup "timeInstant" m) = Ok Demo.stamp_time
  /\ wind_value (lookup "moduleValue" m) = Ok None
  /\ wind_value (lookup "directionValue" m) = Ok (Some (Demo.b64 "270.0"))
  /\ iter_timeseries_points (single_record_feature "wind" (JObj m))
     = Ok [mkPoint Demo.stamp_time
             [("wind_direction", JFloat (Demo.b64 "270.0"))]
             (single_record_tags "wind")].
Proof.
  intros m. repeat (split; [reflexivity|]).
  exact (proj1 (proj2
    (proj1 wind_fields_independent Binary64 [] m Demo.stamp_time
       None (Some (Demo.b64 "270.0")) eq_refl eq_refl eq_refl eq_refl))).
Defined.

(** C5. The record [{moduleValue: 12.3, directionValue: 270}] of the
    wind variable gives exactly one point, with the fields
    [{wind_module: 12.3, wind_direction: 270.0}] and no [value]; a wind
    record without a [moduleValue] gives the point of its
    [directionValue].  The code does not do what the claim says for
    every wind record: the wind branch calls [float] on each sub-value
    that is not [None] with nothing to catch a failure, so a record
    whose [moduleValue] is the empty text or ["N/A"] makes the
    transformer raise [ValueError], and its [directionValue] 270, which
    is present, becomes no field; likewise with the two exchanged.  On
    the same values the branch of the other variables passes over the
    empty text and keeps ["N/A"] as text. *)
Theorem wind_value_that_float_rejects :
  let wind mv dv :=
    single_record_feature "wind"
      (JObj [("timeInstant", JStr Demo.stamp); ("moduleValue", mv);
             ("directionValue", dv)]) in
  let point fields var_name :=
    mkPoint Demo.stamp_time fields (single_record_tags var_name) in
  iter_timeseries_points (single_record_feature "wind" Demo.wind_record)
  = Ok [point [("wind_module", JFloat (Demo.b64 "12.3"));
               ("wind_direction", JFloat (Demo.b64 "270.0"))] "wind"]
  /\ iter_timeseries_points (wind JNull (JInt 270))
     = Ok [point [("wind_direction", JFloat (Demo.b64 "270.0"))] "wind"]
  /\ iter_timeseries_points (wind (JStr "") (JInt 270)) = Raise ValueError
  /\ iter_timeseries_points (wind (JStr "N/A") (JInt 270))
     = Raise ValueError
  /\ iter_timeseries_points (wind (JFloat (Demo.b64 "12.3")) (JStr "N/A"))
     = Raise ValueError
  /\ iter_timeseries_points
       (single_record_feature "temperature" (Demo.temperature_record ""))
     = Ok []
  /\ iter_timeseries_points
       (single_record_feature "temperature" (Demo.temperature_record "N/A"))
     = Ok [point [("value_str", JStr "N/A")] "temperature"].
Proof.
  intros wind point.
  split; [reflexivity|]. split; [reflexivity|]. split; [reflexivity|].
  split; [reflexivity|]. split; [reflexivity|]. split; reflexivity.
Qed.

(** C6. In a record of a variable other than wind, with a readable
    timestamp and a [value] that is neither [None] nor the empty string:
    when [float(value)] returns, the point has the number under [value];
    when it raises [ValueError] or [TypeError], the point has
    [str(value)] under [value_str].  For a string value the two cases are
    all there is.  The values ["18.5"] and ["N/A"] give the fields
    [{value: 18.5}] and [{value_str: "N/A"}]. *)
Theorem scalar_value_or_text :
  (forall (RT : PyRuntime) var_name tags m ts,
      py_eq_str var_name "wind" = false ->
      truthy (lookup "timeInstant" m) = true ->
      py_isoparse (lookup "timeInstant" m) = Ok ts ->
      is_not_none (lookup "value" m) = true ->
      py_eq_str (lookup "value" m) "" = false ->
      let v := lookup "value" m in
      let extra := model_run_fields (lookup "modelRun" m) in
      (forall x, py_float v = Ok x ->
         hourly_point var_name tags (JObj m)
         = Ok (Some (mkPoint ts (("value", JFloat x) :: extra) tags)))
      /\ (py_float v = Raise ValueError \/ py_float v = Raise TypeError ->
          hourly_point var_name tags (JObj m)
          = Ok (Some (mkPoint ts (("value_str", JStr (py_str v)) :: extra)
                        tags)))
      /\ (forall s, v = JStr s ->
            hourly_point var_name tags (JObj m)
            = Ok (Some (mkPoint ts
                          (match float_of_str s with
                           | Some x => ("value", JFloat x)
                           | None => ("value_str", JStr s)
                           end :: extra) tags))))
  /\ iter_timeseries_points
       (single_record_feature "temperature" (Demo.temperature_record "18.5"))
     = Ok [mkPoint Demo.stamp_time [("value", JFloat (Demo.b64 "18.5"))]
             (single_record_tags "temperature")]
  /\ iter_timeseries_points
       (single_record_feature "temperature" (Demo.temperature_record "N/A"))
     = Ok [mkPoint Demo.stamp_time [("value_str", JStr "N/A")]
             (single_record_tags "temperature")].
Proof.
  split; [|split; reflexivity].
  intros RT var_name tags m ts Hw Ht Hp Hn He v extra.
  split; [|split].
  - intros x Hx. now apply hourly_point_scalar_number.
  - intros Hx. now apply hourly_point_scalar_text.
  - intros s Hs. subst v extra.
    destruct (float_of_str s) as [x|] eqn:Hf.
    + apply hourly_point_scalar_number; auto.
      rewrite Hs. simpl. now rewrite Hf.
    + replace (JStr s) with (JStr (py_str (lookup "value" m)))
        by (rewrite Hs; reflexivity).
      apply hourly_point_scalar_text; auto.
      left. rewrite Hs. simpl. now rewrite Hf.
Qed.

(** A humidity record whose value is the number 81, with a model run. *)
Lemma scalar_value_or_text_witness :
  let m := [("timeInstant", JStr Demo.stamp); ("value", JInt 81);
            ("modelRun", JStr "00")] in
  py_eq_str (JStr "relative_humidity") "wind" = false
  /\ truthy (lookup "timeInstant" m) = true
  /\ py_isoparse (lookup "timeInstant" m) = Ok Demo.stamp_time
  /\ is_not_none (lookup "value" m) = true
  /\ py_eq_str (lookup "value" m) "" = false
  /\ py_float (lookup "value" m) = Ok (Demo.b64 "81.0")
  /\ hourly_point (JStr "relative_humidity") [] (JObj m)
     = Ok (Some (mkPoint Demo.stamp_time
                   [("value", JFloat (Demo.b64 "81.0"));
                    ("model_run", JStr "00")] [])).
Proof.
  intros m. repeat (split; [reflexivity|]).
  exact (proj1
    (proj1 scalar_value_or_text Binary64 (JStr "relative_humidity") [] m
       Demo.stamp_time eq_refl eq_refl eq_refl eq_refl eq_refl)
    (Demo.b64 "81.0") eq_refl).
Defined.

(** Three hours of temperature, one of them empty: two points, tagged with
    the place and the variable. *)
Example three_hours_two_points :
  iter_timeseries_points Demo.three_hours
  = Ok [mkPoint (Iso.mk 2024 3 1 10 0 0 (Some 60%Z))
          [("value", JFloat (Demo.b64 "18.5"))]
          (single_record_tags "temperature");
        mkPoint (Iso.mk 2024 3 1 12 0 0 (Some 60%Z))
          [("value", JFloat (Demo.b64 "19.0"))]
          (single_record_tags "temperature")].
Proof. reflexivity. Qed.

(** ** Effects *)

Section Effects.
Context {RT : PyRuntime}.
Variable net : collaborators.
Variable cfg : config.

Lemma log_nil (w : world) : log w [] = w.
Proof. destruct w. unfold log. simpl. now rewrite app_nil_r. Qed.

Lemma log_log w evs evs' : log (log w evs) evs' = log w (evs ++ evs').
Proof. unfold log. simpl. now rewrite app_assoc. Qed.

(** *** The fetcher *)

Lemma request_forecast_raises batch variables w m e :
  env_set (API_KEY cfg) = true ->
  http_get net (trace w) (forecast_request cfg batch variables)
  = HttpJson (JObj m) ->
  dict_get "exception" m = Some e ->
  request_forecast net cfg batch variables w
  = (Raise (RuntimeError
              ("Error global getNumericForecastInfo: " ++ py_str e)),
     log w [EvHttpGet (forecast_request cfg batch variables)]).
Proof.
  intros Hk Hg Hx. unfold request_forecast, bind, requests_get.
  rewrite Hk. simpl. rewrite Hg. simpl. unfold dict_mem.
  rewrite Hx. reflexivity.
Qed.

(** A fetch that returns has logged its request and nothing else. *)
Lemma request_forecast_ok batch variables w data w1 :
  request_forecast net cfg batch variables w = (Ok data, w1) ->
  w1 = log w [EvHttpGet (forecast_request cfg batch variables)].
Proof.
  unfold request_forecast, bind, requests_get, raise, ret.
  destruct (negb (env_set (API_KEY cfg))); [discriminate|].
  destruct (http_get net (trace w) _) as [|d]; [discriminate|].
  destruct (is_dict_with d "exception"); [discriminate|].
  now intros [= _ <-].
Qed.

(** *** The loop *)

Lemma etl_loop_cons variables batch rest st w :
  etl_loop net cfg variables (batch :: rest) st w
  = match etl_batch net cfg variables batch st w with
    | (Ok st', w') => etl_loop net cfg variables rest st' w'
    | (Raise e, w') => (Raise e, w')
    end.
Proof. reflexivity. Qed.

Lemma etl_loop_app variables pre post : forall st w,
  etl_loop net cfg variables (pre ++ post) st w
  = match etl_loop net cfg variables pre st w with
    | (Ok st', w') => etl_loop net cfg variables post st' w'
    | (Raise e, w') => (Raise e, w')
    end.
Proof.
  induction pre as [|b pre IH]; intros st w.
  - reflexivity.
  - simpl app. rewrite !etl_loop_cons.
    destruct (etl_batch net cfg variables b st w) as [[st'|e] w'];
      [apply IH|reflexivity].
Qed.

Lemma run_etl_unfold ids variables w batches :
  chunked ids MAX_IDS_PER_REQUEST = Ok batches ->
  run_etl net cfg ids variables w
  = finish (etl_loop net cfg (variables_or_default variables) batches
              (ledger_of cfg w, 0%Z) w).
Proof.
  intros Hc. unfold run_etl, bind, load_json, lift, ledger_of, finish.
  destruct (dict_get (STATE_PATH cfg) (files w)); rewrite Hc;
    destruct (etl_loop _ _ _ _ _ _) as [[st|e] w']; reflexivity.
Qed.

(** The run, once the batches before [batch] have been processed. *)
Lemma run_etl_at ids variables w0 pre batch rest st w :
  chunked ids MAX_IDS_PER_REQUEST = Ok (pre ++ batch :: rest) ->
  etl_loop net cfg (variables_or_default variables) pre
    (ledger_of cfg w0, 0%Z) w0 = (Ok st, w) ->
  run_etl net cfg ids variables w0
  = finish (etl_loop net cfg (variables_or_default variables)
              (batch :: rest) st w).
Proof.
  intros Hc Hpre. rewrite (run_etl_unfold ids variables w0 _ Hc).
  now rewrite etl_loop_app, Hpre.
Qed.

(** *** Skip *)

Lemma etl_batch_skip variables batch state total w data w1 D :
  request_forecast net cfg batch variables w = (Ok data, w1) ->
  py_get state (join "," batch) = Ok (JStr D) ->
  stable_hash data = D ->
  etl_batch net cfg variables batch (state, total) w
  = (Ok (state, total), log w (skip_events cfg batch variables)).
Proof.
  intros Hf Hs Hd.
  pose proof (request_forecast_ok _ _ _ _ _ Hf) as Hw.
  unfold etl_batch, bind. rewrite Hf. unfold lift. rewrite Hs. simpl.
  rewrite Hd, String.eqb_refl. unfold print, emit, ret. subst w1.
  rewrite log_log. reflexivity.
Qed.

(** C1. When the fetch for a batch returns a response whose digest [D]
    is the one the ledger holds for the batch key, the iteration returns
    the ledger and the count of written points as they were; its only
    effects are the request and the [SKIP] line: no write to the
    time-series store, no ledger file written, and nothing of the
    response is read beyond its digest.  The loop, and the run, go on
    with the next batch from there. *)
Theorem skip_unchanged_batch variables batch state total w data w1 D :
  request_forecast net cfg batch variables w = (Ok data, w1) ->
  py_get state (join "," batch) = Ok (JStr D) ->
  stable_hash data = D ->
  let w' := log w (skip_events cfg batch variables) in
  etl_batch net cfg variables batch (state, total) w
  = (Ok (state, total), w')
  /\ files w' = files w
  /\ trace w'
     = trace w ++ [EvHttpGet (forecast_request cfg batch variables);
                   EvPrint ("[SKIP] Batch sin cambios: " ++ join "," batch)]
  /\ (forall rest,
        etl_loop net cfg variables (batch :: rest) (state, total) w
        = etl_loop net cfg variables rest (state, total) w')
  /\ (forall ids variables0 w0 pre rest,
        variables = variables_or_default variables0 ->
        chunked ids MAX_IDS_PER_REQUEST = Ok (pre ++ batch :: rest) ->
        etl_loop net cfg variables pre (ledger_of cfg w0, 0%Z) w0
        = (Ok (state, total), w) ->
        run_etl net cfg ids variables0 w0
        = finish (etl_loop net cfg variables rest (state, total) w')).
Proof.
  intros Hf Hs Hd w'.
  pose proof (etl_batch_skip variables batch state total w data w1 D
                Hf Hs Hd) as Hb.
  split; [exact Hb|]. split; [reflexivity|]. split; [reflexivity|].
  split.
  - intros rest. now rewrite etl_loop_cons, Hb.
  - intros ids variables0 w0 pre rest -> Hc Hpre.
    rewrite (run_etl_at ids variables0 w0 pre batch rest _ _ Hc Hpre).
    now rewrite etl_loop_cons, Hb.
Qed.

(** *** Hard failure *)

Lemma etl_batch_raises variables batch st w e w1 :
  request_forecast net cfg batch variables w = (Raise e, w1) ->
  etl_batch net cfg variables batch st w = (Raise e, w1).
Proof.
  intros Hf. unfold etl_batch, bind. destruct st as [state total].
  now rewrite Hf.
Qed.

(** C4. When the service answers a forecast request with an object that
    has an ["exception"] key, [request_forecast] raises; the iteration,
    the loop and the run raise the same error, and the world is the one
    the batch started in plus the request: no write to the time-series
    store, no file written, no later batch fetched. *)
Theorem forecast_exception_aborts variables batch st w m e :
  env_set (API_KEY cfg) = true ->
  http_get net (trace w) (forecast_request cfg batch variables)
  = HttpJson (JObj m) ->
  dict_get "exception" m = Some e ->
  let err := RuntimeError
               ("Error global getNumericForecastInfo: " ++ py_str e) in
  let w' := log w [EvHttpGet (forecast_request cfg batch variables)] in
  request_forecast net cfg batch variables w = (Raise err, w')
  /\ etl_batch net cfg variables batch st w = (Raise err, w')
  /\ (forall rest,
        etl_loop net cfg variables (batch :: rest) st w = (Raise err, w'))
  /\ (forall ids variables0 w0 pre rest,
        variables = variables_or_default variables0 ->
        chunked ids MAX_IDS_PER_REQUEST = Ok (pre ++ batch :: rest) ->
        etl_loop net cfg variables pre (ledger_of cfg w0, 0%Z) w0
        = (Ok st, w) ->
        run_etl net cfg ids variables0 w0 = (Raise err, w'))
  /\ files w' = files w
  /\ ledger_of cfg w' = ledger_of cfg w.
Proof.
  intros Hk Hg Hx err w'.
  pose proof (request_forecast_raises batch variables w m e Hk Hg Hx) as Hf.
  pose proof (etl_batch_raises variables batch st w _ _ Hf) as Hb.
  split; [exact Hf|]. split; [exact Hb|]. split; [|split].
  - intros rest. now rewrite etl_loop_cons, Hb.
  - intros ids variables0 w0 pre rest -> Hc Hpre.
    rewrite (run_etl_at ids variables0 w0 pre batch rest _ _ Hc Hpre).
    now rewrite etl_loop_cons, Hb.
  - split; reflexivity.
Qed.

(** *** The writer adapter *)

(** C10. With the credentials configured: on the empty list the writer
    returns 0 and calls nothing; on a list that is not empty it makes one
    write call, whose record has one point for each input tuple, in
    order, and returns the number of tuples when the call is accepted (it
    raises when the store refuses). *)
Theorem write_to_influx_counts (points : list point) (w : world) :
  influx_configured cfg = true ->
  let record := map to_influx_point points in
  (points = [] -> write_to_influx net cfg points w = (Ok 0%Z, w))
  /\ (points <> [] ->
      influx_accepts net (trace w) (INFLUX_BUCKET cfg) record = true ->
      write_to_influx net cfg points w
      = (Ok (Z.of_nat (List.length points)),
         log w [EvInfluxWrite (INFLUX_BUCKET cfg) record]))
  /\ (points <> [] ->
      influx_accepts net (trace w) (INFLUX_BUCKET cfg) record = false ->
      write_to_influx net cfg points w
      = (Raise InfluxError,
         log w [EvInfluxWrite (INFLUX_BUCKET cfg) record]))
  /\ List.length record = List.length points
  /\ (forall i p, nth_error points i = Some p ->
                  nth_error record i = Some (to_influx_point p)
                  /\ ip_time (to_influx_point p) = pt_time p).
Proof.
  intros Hc record.
  assert (Hrun : write_to_influx net cfg points w
                 = match points with
                   | [] => (Ok 0%Z, w)
                   | _ =>
                       if influx_accepts net (trace w) (INFLUX_BUCKET cfg)
                            record
                       then (Ok (Z.of_nat (List.length points)),
                             log w [EvInfluxWrite (INFLUX_BUCKET cfg) record])
                       else (Raise InfluxError,
                             log w [EvInfluxWrite (INFLUX_BUCKET cfg) record])
                   end).
  { unfold write_to_influx. rewrite Hc. subst record.
    destruct points as [|p ps]; [reflexivity|].
    unfold bind, influx_write, ret. cbn [negb map].
    destruct (influx_accepts net (trace w) (INFLUX_BUCKET cfg) _);
      [|reflexivity].
    now rewrite <- (length_map to_influx_point (p :: ps)). }
  split; [|split; [|split; [|split]]].
  - intros ->. exact Hrun.
  - intros Hne Ha. rewrite Hrun, Ha. destruct points; [congruence|reflexivity].
  - intros Hne Ha. rewrite Hrun, Ha. destruct points; [congruence|reflexivity].
  - apply length_map.
  - intros i p Hp. split; [|reflexivity].
    subst record. now rewrite nth_error_map, Hp.
Qed.

End Effects.

(** A run over one unchanged batch: the ledger file holds the digest of
    the response; the run requests, skips, and prints the total. *)
Lemma skip_unchanged_batch_witness :
  let net := Demo.service Demo.response in
  let w := Demo.world_with_ledger in
  let get := EvHttpGet
               (forecast_request Demo.cfg Demo.batch DEFAULT_VARIABLES) in
  request_forecast net Demo.cfg Demo.batch DEFAULT_VARIABLES w
  = (Ok Demo.response, log w [get])
  /\ py_get Demo.ledger (join "," Demo.batch)
     = Ok (JStr (stable_hash Demo.response))
  /\ run_etl net Demo.cfg Demo.batch None w
     = (Ok tt,
        log w [get; EvPrint "[SKIP] Batch sin cambios: 15078,36057";
               EvPrint "TOTAL escritos en Influx: 0"]).
Proof.
  intros net w get.
  assert (H1 : request_forecast net Demo.cfg Demo.batch DEFAULT_VARIABLES w
               = (Ok Demo.response, log w [get])) by reflexivity.
  assert (H2 : py_get Demo.ledger (join "," Demo.batch)
               = Ok (JStr (stable_hash Demo.response))) by reflexivity.
  split; [exact H1|]. split; [exact H2|].
  exact (proj2 (proj2 (proj2 (proj2
    (skip_unchanged_batch net Demo.cfg DEFAULT_VARIABLES Demo.batch
       Demo.ledger 0%Z w Demo.response _ _ H1 H2 eq_refl))))
    Demo.batch None w [] [] eq_refl eq_refl eq_refl).
Defined.

(** A run whose only batch is answered by an exception envelope. *)
Lemma forecast_exception_aborts_witness :
  let net := Demo.service Demo.failed_response in
  let w := Demo.world_with_ledger in
  let fault := JObj [("code", JStr "213");
                     ("message", JStr "Invalid API key")] in
  env_set (API_KEY Demo.cfg) = true
  /\ http_get net (trace w)
       (forecast_request Demo.cfg Demo.batch DEFAULT_VARIABLES)
     = HttpJson (JObj [("exception", fault)])
  /\ run_etl net Demo.cfg Demo.batch None w
     = (Raise (RuntimeError
                 ("Error global getNumericForecastInfo: " ++ py_str fault)),
        log w [EvHttpGet
                 (forecast_request Demo.cfg Demo.batch DEFAULT_VARIABLES)]).
Proof.
  intros net w fault.
  split; [reflexivity|]. split; [reflexivity|].
  exact (proj1 (proj2 (proj2 (proj2
    (forecast_exception_aborts net Demo.cfg DEFAULT_VARIABLES Demo.batch
       (Demo.ledger, 0%Z) w [("exception", fault)] fault
       eq_refl eq_refl eq_refl))))
    Demo.batch None w [] [] eq_refl eq_refl eq_refl).
Defined.

Example forecast_exception_message :
  py_str (JObj [("code", JStr "213"); ("message", JStr "Invalid API key")])
  = "{'code': '213', 'message': 'Invalid API key'}".
Proof. reflexivity. Qed.

(** One temperature point, written to a store that accepts it. *)
Lemma write_to_influx_counts_witness :
  let net := Demo.service Demo.response in
  let p := mkPoint Demo.stamp_time [("value", JFloat (Demo.b64 "18.5"))]
             (single_record_tags "temperature") in
  influx_configured Demo.cfg = true
  /\ [p] <> []
  /\ write_to_influx net Demo.cfg [p] Demo.empty_world
     = (Ok 1%Z,
        log Demo.empty_world [EvInfluxWrite "meteosix" [to_influx_point p]]).
Proof.
  intros net p.
  split; [reflexivity|]. split; [discriminate|].
  apply (proj1 (proj2
    (write_to_influx_counts net Demo.cfg [p] Demo.empty_world eq_refl))).
  - discriminate.
  - reflexivity.
Defined.

(** ** Place resolution *)

Section DictFacts.
Variable V : Type.

Lemma dict_get_set_same k (v : V) m : dict_get k (dict_set k v m) = Some v.
Proof.
  induction m as [|[k' v'] m IH]; simpl.
  - now rewrite String.eqb_refl.
  - destruct (String.eqb k k') eqn:E; simpl; rewrite E; [reflexivity|exact IH].
Qed.

Lemma dict_get_set_other k k' (v : V) m :
  k <> k' -> dict_get k (dict_set k' v m) = dict_get k m.
Proof.
  intros Hne. induction m as [|[k'' v''] m IH]; simpl.
  - apply String.eqb_neq in Hne. now rewrite Hne.
  - destruct (String.eqb k' k'') eqn:E; simpl.
    + apply String.eqb_eq in E. subst k''.
      apply String.eqb_neq in Hne. now rewrite Hne.
    + destruct (String.eqb k k''); [reflexivity|exact IH].
Qed.

End DictFacts.

Section Resolve.
Context {RT : PyRuntime}.
Variable net : collaborators.
Variable cfg : config.

Lemma cached_id_true out key :
  cached_id out key = Ok true <->
  exists entry, dict_get key out = Some entry /\ usable_entry entry = true.
Proof.
  unfold cached_id. split.
  - destruct (dict_get key out) as [entry|]; [|discriminate].
    intros H. exists entry. split; [reflexivity|].
    unfold usable_entry.
    destruct (py_get entry "id") as [id|]; simpl in *; congruence.
  - intros (entry & -> & H). unfold usable_entry in H.
    destruct (py_get entry "id") as [id|]; simpl; congruence.
Qed.

(** A hit: nothing happens. *)
Lemma resolve_one_hit types q out w :
  cached_id out (normalize_query q) = Ok true ->
  resolve_one net cfg types q out w = (Ok out, w).
Proof.
  intros H. unfold resolve_one, bind, lift. rewrite H. reflexivity.
Qed.

Lemma find_places_world types q w r w1 :
  find_places net cfg q types w = (r, w1) ->
  w1 = w \/ w1 = log w [EvHttpGet (find_places_request cfg q types)].
Proof.
  unfold find_places, bind, requests_get, raise, ret.
  destruct (negb (env_set (API_KEY cfg))).
  - intros [= _ <-]. now left.
  - destruct (http_get net (trace w) _) as [|data].
    + intros [= _ <-]. now right.
    + destruct (is_dict_with data "exception"); intros [= _ <-]; now right.
Qed.

(** What the search call gave when [find_places] returned. *)
Lemma find_places_ok types q w data w1 :
  find_places net cfg q types w = (Ok data, w1) ->
  http_get net (trace w) (find_places_request cfg q types) = HttpJson data
  /\ w1 = log w [EvHttpGet (find_places_request cfg q types)].
Proof.
  unfold find_places, bind, requests_get, raise, ret.
  destruct (negb (env_set (API_KEY cfg))); [discriminate|].
  destruct (http_get net (trace w) _) as [|d]; [discriminate|].
  destruct (is_dict_with d "exception"); [discriminate|].
  intros [= <- <-]. split; reflexivity.
Qed.

Lemma find_places_request_inj types q q' :
  find_places_request cfg q types = find_places_request cfg q' types ->
  q = q'.
Proof. unfold find_places_request. now intros [= ->]. Qed.

Lemma record_unresolved_run q key out w :
  record_unresolved q key out w
  = (Ok (dict_set key (unresolved_entry q) out),
     log w [EvPrint ("[WARN] No encuentro lugar para: " ++ q)]).
Proof. reflexivity. Qed.

Lemma record_resolved_run q key best out w r w' :
  record_resolved q key best out w = (r, w') ->
  (w' = w /\ exists e, r = Raise e)
  \/ exists place_id name municipality province type line,
       r = Ok (dict_set key
                 (resolved_entry q place_id name municipality province type)
                 out)
       /\ w' = log w [EvPrint line; EvSleep 200].
Proof.
  unfold record_resolved, bind, lift.
  repeat match goal with
  | |- context [match ?x with Ok _ => _ | Raise _ => _ end] =>
      destruct x; [|intros [= <- <-]; left; eauto]
  end.
  unfold print, sleep, emit, ret.
  intros [= <- <-]. right. do 6 eexists. split; [reflexivity|].
  unfold log. simpl. rewrite <- app_assoc. reflexivity.
Qed.

(** A miss: the events are those of one resolution, and the mapping
    changes at the key of the query only, by a written entry. *)
Lemma resolve_one_miss types q out w r w' :
  cached_id out (normalize_query q) <> Ok true ->
  resolve_one net cfg types q out w = (r, w') ->
  exists evs,
    w' = log w evs
    /\ Forall (resolve_event cfg types q) evs
    /\ forall out', r = Ok out' ->
         exists e, written_entry e
                   /\ out' = dict_set (normalize_query q) e out
                   /\ (e = unresolved_entry q ->
                       exists data features fl best,
                         http_get net (trace w)
                           (find_places_request cfg q types) = HttpJson data
                         /\ get_or data "features" (JArr []) = Ok features
                         /\ py_iter features = Ok fl
                         /\ pick_best_feature q fl = Ok best
                         /\ (best = None
                             \/ exists b, best = Some b
                                          /\ truthy b = false)).
Proof.
  intros Hmiss. unfold resolve_one, bind, lift.
  destruct (cached_id out (normalize_query q)) as [[|]|e0].
  - congruence.
  - destruct (find_places net cfg q types w) as [[data|e1] w1] eqn:Hfp.
    2:{ intros [= <- <-].
        destruct (find_places_world types q w _ _ Hfp) as [-> | ->].
        - exists []. rewrite log_nil.
          split; [reflexivity|split; [constructor|discriminate]].
        - eexists.
          split; [reflexivity|split; [repeat constructor|discriminate]]. }
    apply find_places_ok in Hfp as [Hget ->].
    set (get := EvHttpGet (find_places_request cfg q types)).
    assert (Hraise : forall (e1 : exn) (P : dict json -> Prop),
      exists evs, log w [get] = log w evs
        /\ Forall (resolve_event cfg types q) evs
        /\ forall out' : dict json, @Raise (dict json) e1 = Ok out' -> P out').
    { intros e1 P. exists [get].
      split; [reflexivity|split; [|discriminate]].
      repeat constructor. }
    destruct (get_or data "features" (JArr [])) as [features|e1] eqn:Hfeat;
      [|intros [= <- <-]; apply Hraise].
    destruct (py_iter features) as [fl|e1] eqn:Hiter;
      [|intros [= <- <-]; apply Hraise].
    destruct (pick_best_feature q fl) as [best|e1] eqn:Hpick;
      [|intros [= <- <-]; apply Hraise].
    assert (Hunres :
      best = None \/ (exists b, best = Some b /\ truthy b = false) ->
      exists evs,
        log (log w [get])
            [EvPrint ("[WARN] No encuentro lugar para: " ++ q)] = log w evs
        /\ Forall (resolve_event cfg types q) evs
        /\ forall out' : dict json,
             Ok (dict_set (normalize_query q) (unresolved_entry q) out)
             = Ok out' ->
             exists e, written_entry e
               /\ out' = dict_set (normalize_query q) e out
               /\ (e = unresolved_entry q ->
                   exists data features fl best,
                     http_get net (trace w)
                       (find_places_request cfg q types) = HttpJson data
                     /\ get_or data "features" (JArr []) = Ok features
                     /\ py_iter features = Ok fl
                     /\ pick_best_feature q fl = Ok best
                     /\ (best = None
                         \/ exists b, best = Some b /\ truthy b = false))).
    { intros Hbest. eexists. rewrite log_log. split; [reflexivity|split].
      - repeat constructor.
      - intros out' [= <-]. eexists.
        split; [constructor|split; [reflexivity|]].
        intros _. exists data, features, fl, best. auto. }
    destruct best as [b|].
    + destruct (truthy b) eqn:Hb.
      * intros Hrec.
        apply record_resolved_run in Hrec
          as [[-> [e1 ->]] | (pid & n & m & p & t & line & -> & ->)].
        -- apply Hraise.
        -- eexists. rewrite log_log. split; [reflexivity|split].
           ++ repeat constructor.
           ++ intros out' [= <-]. eexists.
              split; [constructor|split; [reflexivity|]].
              unfold resolved_entry, unresolved_entry. discriminate.
      * rewrite record_unresolved_run. intros [= <- <-].
        apply Hunres. right. eauto.
    + rewrite record_unresolved_run. intros [= <- <-].
      apply Hunres. now left.
  - intros [= <- <-]. exists []. rewrite log_nil.
    split; [reflexivity|split; [constructor|discriminate]].
Qed.

Lemma loop_event_weaken types q queries out out' ev :
  (forall k, cached_id out k = Ok true -> cached_id out' k = Ok true) ->
  loop_event cfg types queries out' ev ->
  loop_event cfg types (q :: queries) out ev.
Proof.
  intros Hpres. destruct ev; simpl; auto.
  intros (q' & Hin & -> & Hm). exists q'.
  split; [now right|split; [reflexivity|]]. intros Hc. apply Hm. auto.
Qed.

Lemma resolve_loop_inv types queries : forall out w r w',
  resolve_loop net cfg types queries out w = (r, w') ->
  exists evs,
    w' = log w evs
    /\ Forall (loop_event cfg types queries out) evs
    /\ forall out', r = Ok out' ->
         (forall key entry, dict_get key out = Some entry ->
            usable_entry entry = true -> dict_get key out' = Some entry)
         /\ (forall key e, dict_get key out' = Some e ->
               dict_get key out = Some e \/ written_entry e).
Proof.
  induction queries as [|q rest IH]; intros out w r w'.
  - simpl. unfold ret. intros [= <- <-]. exists []. rewrite log_nil.
    split; [reflexivity|split; [constructor|]].
    intros out' [= <-]. split; auto.
  - simpl. unfold bind.
    destruct (resolve_one net cfg types q out w) as [[out1|e1] w1] eqn:H1.
    + destruct (cached_id out (normalize_query q)) as [[|]|e0] eqn:Hc.
      * rewrite resolve_one_hit in H1 by exact Hc.
        injection H1 as <- <-. intros Hrest.
        destruct (IH _ _ _ _ Hrest) as (evs & -> & Hev & Hout).
        exists evs. split; [reflexivity|split; [|exact Hout]].
        eapply Forall_impl; [|exact Hev].
        intros ev. apply loop_event_weaken. auto.
      * assert (Hm : cached_id out (normalize_query q) <> Ok true)
          by congruence.
        destruct (resolve_one_miss types q out w _ _ Hm H1)
          as (evs1 & -> & Hev1 & Hw).
        destruct (Hw _ eq_refl) as (e & Hwe & -> & _).
        intros Hrest.
        destruct (IH _ _ _ _ Hrest) as (evs2 & -> & Hev2 & Hout).
        assert (Hpres : forall k, cached_id out k = Ok true ->
                  cached_id (dict_set (normalize_query q) e out) k = Ok true).
        { intros k Hk.
          assert (k <> normalize_query q) by congruence.
          unfold cached_id in *. now rewrite dict_get_set_other. }
        exists (evs1 ++ evs2). rewrite log_log.
        split; [reflexivity|split; [|intros out' H; split]].
        -- apply Forall_app. split.
           ++ eapply Forall_impl; [|exact Hev1].
              intros [] Hr; simpl in *; auto.
              exists q. split; [now left|split; [exact Hr|exact Hm]].
           ++ eapply Forall_impl; [|exact Hev2].
              intros ev. now apply loop_event_weaken.
        -- intros key entry Hk Hu. destruct (Hout _ H) as [Hp _].
           apply Hp; [|exact Hu].
           assert (key <> normalize_query q).
           { intros ->. apply Hm. apply cached_id_true. eauto. }
           now rewrite dict_get_set_other.
        -- intros key e' Hk. destruct (Hout _ H) as [_ Hq].
           destruct (Hq _ _ Hk) as [Hk'|]; [|now right].
           destruct (String.eqb_spec key (normalize_query q)) as [->|Hne].
           ++ rewrite dict_get_set_same in Hk'. injection Hk' as <-.
              now right.
           ++ rewrite dict_get_set_other in Hk' by exact Hne. now left.
      * unfold resolve_one, bind, lift in H1. rewrite Hc in H1.
        discriminate.
    + intros [= <- <-].
      assert (Hm : cached_id out (normalize_query q) <> Ok true).
      { intros Hc. rewrite resolve_one_hit in H1 by exact Hc. discriminate. }
      destruct (resolve_one_miss types q out w _ _ Hm H1)
        as (evs1 & -> & Hev1 & _).
      exists evs1. split; [reflexivity|split; [|discriminate]].
      eapply Forall_impl; [|exact Hev1].
      intros [] Hr; simpl in *; auto.
      exists q. split; [now left|split; [exact Hr|exact Hm]].
Qed.

Lemma resolve_loop_hits types queries out w :
  Forall (fun q => cached_id out (normalize_query q) = Ok true) queries ->
  resolve_loop net cfg types queries out w = (Ok out, w).
Proof.
  induction 1 as [|q rest Hq _ IH]; simpl; [reflexivity|].
  unfold bind. now rewrite resolve_one_hit.
Qed.

Lemma collect_exact_in q features : forall exact l,
  collect_exact q features exact = Ok l ->
  forall x, In x l -> In x exact \/ In x features.
Proof.
  induction features as [|f rest IH]; simpl; intros exact l H x Hx.
  - injection H as <-. now left.
  - destruct (feature_name f) as [name|]; simpl in H; [|discriminate].
    destruct (normalize_query_value name) as [n|]; simpl in H;
      [|discriminate].
    destruct (IH _ _ H x Hx) as [Hin|Hin]; [|now right; right].
    destruct (String.eqb n q); [|now left].
    apply in_app_or in Hin as [Hin|[<-|[]]]; [now left|now right; left].
Qed.

(** The selected feature is one of the list. *)
Lemma pick_best_feature_in q fl b :
  pick_best_feature q fl = Ok (Some b) -> In b fl.
Proof.
  unfold pick_best_feature.
  destruct (collect_exact (normalize_query q) fl []) as [[|e l]|] eqn:H;
    simpl; try discriminate.
  - destruct fl; [discriminate|]. intros [= <-]. now left.
  - intros [= <-].
    destruct (collect_exact_in _ _ _ _ H e (or_introl eq_refl)) as [[]|Hin].
    exact Hin.
Qed.

(** Nothing is selected from the empty list only. *)
Lemma pick_best_feature_none q fl :
  pick_best_feature q fl = Ok None -> fl = [].
Proof.
  unfold pick_best_feature.
  destruct (collect_exact (normalize_query q) fl []) as [[|e l]|];
    simpl; try discriminate.
  now destruct fl.
Qed.

(** C8, as the code has it.  Let the loaded cache map [key] to an entry
    whose [id] is truthy (not null and not empty).  A query that
    normalizes to [key] leaves the mapping and the world as they are: no
    search request is made for it.  If [resolve_place_ids] returns, the
    entry is in the returned mapping and in the persisted one, unchanged,
    and every other entry is either loaded or written by the resolver.
    In a written entry [id] is null only in the unresolved entry, which
    is written only when nothing truthy was selected; when the features
    of the response are all truthy (objects that are not empty), that is
    when the response has no feature.  When every query is
    answered by the cache, the call returns the cache and only saves
    it. *)
Theorem resolve_reuses_usable_entry queries types w cache key entry :
  dict_get (PLACES_PATH cfg) (files w) = Some (JObj cache) ->
  dict_get key cache = Some entry ->
  usable_entry entry = true ->
  (forall q out w1,
      normalize_query q = key -> dict_get key out = Some entry ->
      resolve_one net cfg types q out w1 = (Ok out, w1))
  /\ (forall r w',
        resolve_place_ids net cfg queries types w = (r, w') ->
        exists evs,
          trace w' = trace w ++ evs
          /\ (forall q req,
                normalize_query q = key -> In (EvHttpGet req) evs ->
                req <> find_places_request cfg q types)
          /\ (forall out,
                r = Ok out ->
                dict_get key out = Some entry
                /\ dict_get (PLACES_PATH cfg) (files w') = Some (JObj out)
                /\ (forall key' e',
                      dict_get key' out = Some e' ->
                      dict_get key' cache = Some e' \/ written_entry e')))
  /\ (forall e, written_entry e -> py_get e "id" = Ok JNull ->
                exists q, e = unresolved_entry q)
  /\ (forall q out w1 out' w1',
        cached_id out (normalize_query q) <> Ok true ->
        resolve_one net cfg types q out w1 = (Ok out', w1') ->
        dict_get (normalize_query q) out' = Some (unresolved_entry q) ->
        exists data features fl best,
          http_get net (trace w1) (find_places_request cfg q types)
          = HttpJson data
          /\ get_or data "features" (JArr []) = Ok features
          /\ py_iter features = Ok fl
          /\ pick_best_feature q fl = Ok best
          /\ ((best = None /\ fl = [])
              \/ exists b, best = Some b /\ truthy b = false)
          /\ (Forall (fun f => truthy f = true) fl -> fl = []))
  /\ (Forall (fun q => cached_id cache (normalize_query q) = Ok true)
             queries ->
      resolve_place_ids net cfg queries types w
      = (Ok cache,
         mkWorld (dict_set (PLACES_PATH cfg) (JObj cache) (files w))
                 (trace w ++ [EvSaveJson (PLACES_PATH cfg) (JObj cache)]))).
Proof.
  intros Hfile Hkey Huse.
  assert (Hhit : cached_id cache key = Ok true)
    by (apply cached_id_true; eauto).
  split; [|split; [|split; [|split]]].
  - intros q out w1 <- Hout. apply resolve_one_hit.
    apply cached_id_true. eauto.
  - intros r w'. unfold resolve_place_ids, bind, load_json, lift.
    rewrite Hfile. simpl.
    destruct (resolve_loop net cfg types queries cache w)
      as [[out|e] w1] eqn:Hloop;
      destruct (resolve_loop_inv types queries cache w _ _ Hloop)
        as (evs & -> & Hev & Hout).
    + unfold save_json, ret. intros [= <- <-]. simpl.
      exists (evs ++ [EvSaveJson (PLACES_PATH cfg) (JObj out)]).
      split; [now rewrite app_assoc|split].
      * intros q req Hq Hin Hreq.
        apply in_app_or in Hin as [Hin|[Hin|[]]]; [|discriminate].
        rewrite Forall_forall in Hev. specialize (Hev _ Hin).
        destruct Hev as (q' & _ & -> & Hmiss).
        apply find_places_request_inj in Hreq. subst q'. congruence.
      * intros out' [= <-]. destruct (Hout _ eq_refl) as [Hp Hq].
        split; [now apply Hp|]. split; [apply dict_get_set_same|exact Hq].
    + intros [= <- <-]. exists evs. split; [reflexivity|split].
      * intros q req Hq Hin Hreq.
        rewrite Forall_forall in Hev. specialize (Hev _ Hin).
        destruct Hev as (q' & _ & -> & Hmiss).
        apply find_places_request_inj in Hreq. subst q'. congruence.
      * discriminate.
  - intros e [q|q pid n m p t]; [eauto|discriminate].
  - intros q out w1 out' w1' Hmiss Hone Hget.
    destruct (resolve_one_miss types q out w1 _ _ Hmiss Hone)
      as (evs & _ & _ & Hw).
    destruct (Hw _ eq_refl) as (e & _ & -> & Hun).
    rewrite dict_get_set_same in Hget. injection Hget as ->.
    destruct (Hun eq_refl) as (data & features & fl & best
                               & H1 & H2 & H3 & H4 & H5).
    exists data, features, fl, best. repeat (split; [assumption|]).
    destruct H5 as [-> | (b & -> & Hb)].
    + pose proof (pick_best_feature_none _ _ H4) as Hfl.
      split; [now left|]. intros _. exact Hfl.
    + split; [right; eauto|]. intros Hall.
      rewrite Forall_forall in Hall.
      rewrite (Hall b (pick_best_feature_in _ _ _ H4)) in Hb. discriminate.
  - intros Hall. unfold resolve_place_ids, bind, load_json, lift.
    rewrite Hfile. simpl. now rewrite resolve_loop_hits.
Qed.

End Resolve.

(** The cache holds Vigo with its identifier: two spellings of the query
    are answered by the cache, and the call only saves. *)
Lemma resolve_reuses_usable_entry_witness :
  let net := Demo.service Demo.places_response in
  let w := Demo.world_with_cache "15078" in
  let cache := [("vigo", Demo.vigo_entry "15078")] in
  dict_get (PLACES_PATH Demo.cfg) (files w) = Some (JObj cache)
  /\ dict_get "vigo" cache = Some (Demo.vigo_entry "15078")
  /\ usable_entry (Demo.vigo_entry "15078") = true
  /\ resolve_place_ids net Demo.cfg [" Vigo "; "VIGO"] "locality" w
     = (Ok cache,
        mkWorld [("places.json", JObj cache)]
                [EvSaveJson "places.json" (JObj cache)]).
Proof.
  intros net w cache.
  split; [reflexivity|]. split; [reflexivity|]. split; [reflexivity|].
  apply (proj2 (proj2 (proj2 (proj2
    (resolve_reuses_usable_entry net Demo.cfg [" Vigo "; "VIGO"] "locality"
       w cache "vigo" (Demo.vigo_entry "15078")
       eq_refl eq_refl eq_refl))))).
  repeat constructor.
Defined.

(** The claim of C8 fails on an entry whose [id] is the empty string: it
    is not null, yet the query is searched again and the entry is
    replaced. *)
Lemma empty_id_is_resolved_again :
  let net := Demo.service Demo.places_response in
  let w := Demo.world_with_cache "" in
  let entry := resolved_entry "vigo" "15078" (JStr "Vigo") JNull JNull JNull in
  dict_get (PLACES_PATH Demo.cfg) (files w)
  = Some (JObj [("vigo", Demo.vigo_entry "")])
  /\ py_get (Demo.vigo_entry "") "id" = Ok (JStr "")
  /\ resolve_place_ids net Demo.cfg ["vigo"] "locality" w
     = (Ok [("vigo", entry)],
        mkWorld [("places.json", JObj [("vigo", entry)])]
          [EvHttpGet (find_places_request Demo.cfg "vigo" "locality");
           EvPrint "[OK] vigo -> id=15078 (Vigo, None)";
           EvSleep 200;
           EvSaveJson "places.json" (JObj [("vigo", entry)])]).
Proof. repeat split. Qed.

(** ** More on the helpers *)

Lemma lower_char_space c : is_space (lower_char c) = is_space c.
Proof.
  destruct c as [[] [] [] [] [] [] [] []]; reflexivity.
Qed.

Lemma lower_char_idempotent c : lower_char (lower_char c) = lower_char c.
Proof.
  destruct c as [[] [] [] [] [] [] [] []]; reflexivity.
Qed.

Lemma lower_idempotent s : lower (lower s) = lower s.
Proof.
  induction s as [|c s IH]; simpl; [reflexivity|].
  now rewrite lower_char_idempotent, IH.
Qed.

Lemma lstrip_lower s : lstrip (lower s) = lower (lstrip s).
Proof.
  induction s as [|c s IH]; simpl; [reflexivity|].
  rewrite lower_char_space. destruct (is_space c); [exact IH|reflexivity].
Qed.

Lemma rstrip_lower s : rstrip (lower s) = lower (rstrip s).
Proof.
  induction s as [|c s IH]; simpl; [reflexivity|].
  rewrite IH, lower_char_space.
  destruct (rstrip s); simpl; [|reflexivity].
  destruct (is_space c); reflexivity.
Qed.

Lemma strip_lower s : strip (lower s) = lower (strip s).
Proof. unfold strip. now rewrite lstrip_lower, rstrip_lower. Qed.

Lemma rstrip_idempotent s : rstrip (rstrip s) = rstrip s.
Proof.
  induction s as [|c s IH]; simpl; [reflexivity|].
  destruct (rstrip s) as [|a r] eqn:E.
  - destruct (is_space c) eqn:Hc; simpl; [reflexivity|now rewrite Hc].
  - simpl in *. rewrite IH. reflexivity.
Qed.

(** Stripping on the right keeps a first character that is not a
    space. *)
Lemma lstrip_rstrip_lstrip s : lstrip (rstrip (lstrip s)) = rstrip (lstrip s).
Proof.
  induction s as [|c s IH]; simpl; [reflexivity|].
  destruct (is_space c) eqn:Hc; [exact IH|].
  simpl. destruct (rstrip s); rewrite ?Hc; simpl; now rewrite Hc.
Qed.

Lemma strip_idempotent s : strip (strip s) = strip s.
Proof.
  unfold strip. now rewrite lstrip_rstrip_lstrip, rstrip_idempotent.
Qed.

(** X1. [normalize_query] is idempotent, and it gives one key to a query,
    to the query without its surrounding white space and to the query in
    lower case: [" Vigo "] and ["vigo"] have the same key. *)
Theorem normalize_query_idempotent (q : string) :
  normalize_query (normalize_query q) = normalize_query q
  /\ normalize_query (strip q) = normalize_query q
  /\ normalize_query (lower q) = normalize_query q
  /\ normalize_query " Vigo " = normalize_query "vigo".
Proof.
  unfold normalize_query. repeat split.
  - now rewrite strip_lower, strip_idempotent, lower_idempotent.
  - now rewrite strip_idempotent.
  - now rewrite strip_lower, lower_idempotent.
Qed.

(** ** More on partitioning *)

Lemma nth_chunk_not_empty {A} (xs : list A) (m k : nat) :
  0 < m -> k * m < List.length xs -> nth_chunk xs m k <> [].
Proof.
  intros Hm Hk E. apply (f_equal (@List.length A)) in E.
  unfold nth_chunk in E. rewrite length_firstn, length_skipn in E.
  simpl in E. lia.
Qed.

(** X2. [chunked] at its edges: a zero size raises [ValueError] (the step
    of [range]); a negative size gives no batch; for a positive size no
    batch is empty, the empty list gives no batch, and a list that fits
    in one batch is that batch. *)
Theorem chunked_edges {A} (xs : list A) (n : Z) :
  (n = 0%Z -> chunked xs n = Raise ValueError)
  /\ ((n < 0)%Z -> chunked xs n = Ok [])
  /\ ((0 < n)%Z ->
      exists batches,
        chunked xs n = Ok batches
        /\ Forall (fun b => b <> []) batches
        /\ (xs = [] -> batches = [])
        /\ (xs <> [] -> (Z.of_nat (List.length xs) <= n)%Z ->
            batches = [xs])).
Proof.
  split; [|split].
  - intros ->. reflexivity.
  - intros Hn. unfold chunked, py_range.
    destruct (Z.eqb_spec n 0); [lia|].
    destruct (Z.ltb_spec 0 n); [lia|].
    set (len := Z.of_nat (List.length xs)).
    assert (Hq : ((0 - len - n - 1) / (- n) <= 0)%Z).
    { destruct (Z_le_gt_dec len (- n - 1)).
      - rewrite Z.div_small by lia. lia.
      - assert (Hneg : ((0 - len - n - 1) / (- n) < 0)%Z)
          by (apply Z.div_lt_upper_bound; lia).
        lia. }
    replace (Z.to_nat _) with 0 by lia. reflexivity.
  - intros Hn. rewrite (chunked_unfold xs n Hn).
    pose proof (@ceil_div_spec (Z.of_nat (List.length xs)) n Hn) as [Hlo Hhi].
    set (c := ceil_div (Z.of_nat (List.length xs)) n) in *.
    eexists. split; [reflexivity|]. split; [|split].
    + apply Forall_forall. intros b Hb.
      apply in_map_iff in Hb as (k & <- & Hk). apply in_seq in Hk.
      apply nth_chunk_not_empty; nia.
    + intros ->. simpl in *. replace (Z.to_nat c) with 0 by nia.
      reflexivity.
    + intros Hne Hfit.
      assert (Hlen : 0 < List.length xs) by (destruct xs; simpl; [congruence|lia]).
      replace (Z.to_nat c) with 1 by nia. simpl.
      unfold nth_chunk. simpl. rewrite firstn_all2 by lia. reflexivity.
Qed.

Lemma chunked_edges_witness :
  (0 < 20)%Z
  /\ exists batches,
       chunked ["15078"; "36057"] 20 = Ok batches
       /\ Forall (fun b => b <> []) batches
       /\ batches = [["15078"; "36057"]].
Proof.
  split; [lia|].
  destruct (proj2 (proj2 (chunked_edges ["15078"; "36057"] 20)) ltac:(lia))
    as (batches & H1 & H2 & _ & H4).
  exists batches. split; [exact H1|]. split; [exact H2|].
  apply H4; [discriminate|simpl; lia].
Defined.

(** ** More on the orchestration *)

Section Batch.
Context {RT : PyRuntime}.
Variable net : collaborators.
Variable cfg : config.

Lemma write_to_influx_run points w :
  write_to_influx net cfg points w
  = if negb (influx_configured cfg)
    then (Raise (RuntimeError
                   "Faltan INFLUX_TOKEN/INFLUX_ORG/INFLUX_BUCKET en env vars."),
          w)
    else match points with
         | [] => (Ok 0%Z, w)
         | _ =>
             if influx_accepts net (trace w) (INFLUX_BUCKET cfg)
                  (map to_influx_point points)
             then (Ok (Z.of_nat (List.length points)),
                   log w (write_events cfg points))
             else (Raise InfluxError, log w (write_events cfg points))
         end.
Proof.
  unfold write_to_influx. destruct (negb (influx_configured cfg)).
  - reflexivity.
  - destruct points as [|p ps]; [reflexivity|].
    unfold bind, influx_write, ret, write_events. cbn [map].
    destruct (influx_accepts net (trace w) (INFLUX_BUCKET cfg) _);
      [|reflexivity].
    now rewrite <- (length_map to_influx_point (p :: ps)).
Qed.

(** What one iteration can do. *)
Inductive batch_outcome (variables batch : list string) (state : json)
  (total : Z) (w : world) : result (json * Z) * world -> Prop :=
| outcome_no_key e :
    env_set (API_KEY cfg) = false ->
    batch_outcome variables batch state total w (Raise e, w)
| outcome_failed e :
    batch_outcome variables batch state total w
      (Raise e, log w [EvHttpGet (forecast_request cfg batch variables)])
| outcome_refused e points :
    points <> [] ->
    influx_configured cfg = true ->
    batch_outcome variables batch state total w
      (Raise e, log w (EvHttpGet (forecast_request cfg batch variables)
                       :: write_events cfg points))
| outcome_skipped data :
    request_forecast net cfg batch variables w
    = (Ok data, log w [EvHttpGet (forecast_request cfg batch variables)]) ->
    py_get state (join "," batch) = Ok (JStr (stable_hash data)) ->
    batch_outcome variables batch state total w
      (Ok (state, total), log w (skip_events cfg batch variables))
| outcome_processed data m features fl points skipped :
    request_forecast net cfg batch variables w
    = (Ok data, log w [EvHttpGet (forecast_request cfg batch variables)]) ->
    state = JObj m ->
    py_eq_str (lookup (join "," batch) m) (stable_hash data) = false ->
    get_or data "features" (JArr []) = Ok features ->
    py_iter features = Ok fl ->
    features_loop fl [] 0%Z = Ok (points, skipped) ->
    influx_configured cfg = true ->
    let state' := JObj (dict_set (join "," batch)
                          (JStr (stable_hash data)) m) in
    batch_outcome variables batch state total w
      (Ok (state', (total + Z.of_nat (List.length points))%Z),
       mkWorld (dict_set (STATE_PATH cfg) state' (files w))
               (trace w
                ++ process_events cfg batch variables points skipped state')).

Lemma request_forecast_failed batch variables w e w1 :
  request_forecast net cfg batch variables w = (Raise e, w1) ->
  (env_set (API_KEY cfg) = false /\ w1 = w)
  \/ w1 = log w [EvHttpGet (forecast_request cfg batch variables)].
Proof.
  unfold request_forecast, bind, requests_get, raise, ret.
  destruct (env_set (API_KEY cfg)); simpl.
  - destruct (http_get net (trace w) _) as [|d].
    + intros [= _ <-]. now right.
    + destruct (is_dict_with d "exception"); intros [= _ <-]; now right.
  - intros [= _ <-]. now left.
Qed.

Lemma py_eq_str_true v s : py_eq_str v s = true -> v = JStr s.
Proof.
  destruct v; simpl; try discriminate.
  intros H. apply String.eqb_eq in H. now subst.
Qed.

Lemma etl_batch_outcome variables batch state total w :
  batch_outcome variables batch state total w
    (etl_batch net cfg variables batch (state, total) w).
Proof.
  unfold etl_batch, bind.
  destruct (request_forecast net cfg batch variables w)
    as [[data|e] w1] eqn:Hf.
  2:{ destruct (request_forecast_failed _ _ _ _ _ Hf) as [[Hk ->] | ->];
        now constructor. }
  pose proof (request_forecast_ok _ _ _ _ _ _ _ Hf) as ->.
  set (get := EvHttpGet (forecast_request cfg batch variables)) in *.
  assert (Hfail : forall e, batch_outcome variables batch state total w
                              (Raise e, log w [get]))
    by (intros e; constructor).
  unfold lift.
  destruct (py_get state (join "," batch)) as [seen|e] eqn:Hseen;
    [|apply Hfail].
  destruct (py_eq_str seen (stable_hash data)) eqn:Heq.
  - apply py_eq_str_true in Heq. subst seen.
    unfold print, emit, ret. rewrite log_log.
    now apply outcome_skipped with (data := data).
  - destruct state as [| | | | | |m]; try discriminate.
    injection Hseen as <-.
    destruct (get_or data "features" (JArr [])) as [features|e] eqn:Hfeat;
      [|apply Hfail].
    destruct (py_iter features) as [fl|e] eqn:Hiter; [|apply Hfail].
    destruct (features_loop fl [] 0%Z) as [[points skipped]|e] eqn:Hloop;
      [|apply Hfail].
    rewrite write_to_influx_run.
    destruct (influx_configured cfg) eqn:Hcfg; [|apply Hfail].
    cbn [negb].
    assert (Hdone : forall w2,
      w2 = log w (get :: write_events cfg points) ->
      batch_outcome variables batch (JObj m) total w
        (let (state0, w3) :=
           match py_setitem (JObj m) (join "," batch)
                   (JStr (stable_hash data)) with
           | Ok a => (Ok a, w2)
           | Raise e => (Raise e, w2)
           end in
         match state0 with
         | Ok state1 =>
             let (r, w4) := save_json (STATE_PATH cfg) state1 w3 in
             match r with
             | Ok _ =>
                 let (r0, w5) :=
                   print ("[OK] Batch " ++ join "," batch ++ ": escritos "
                          ++ int_repr (Z.of_nat (List.length points))
                          ++ " puntos; features con exception: "
                          ++ int_repr skipped) w4 in
                 match r0 with
                 | Ok _ =>
                     let (r1, w6) := sleep 500 w5 in
                     match r1 with
                     | Ok _ =>
                         ret (state1,
                              (total + Z.of_nat (List.length points))%Z) w6
                     | Raise e => (Raise e, w6)
                     end
                 | Raise e => (Raise e, w5)
                 end
             | Raise e => (Raise e, w4)
             end
         | Raise e => (Raise e, w3)
         end)).
    { intros w2 ->. simpl.
      unfold save_json, print, sleep, emit, ret, log. simpl.
      match goal with
      | |- batch_outcome _ _ _ _ _ (_, mkWorld _ ?t) =>
          replace t
            with (trace w ++ process_events cfg batch variables points skipped
                    (JObj (dict_set (join "," batch)
                             (JStr (stable_hash data)) m)))
      end.
      - eapply outcome_processed; eauto.
      - unfold process_events. fold get.
        rewrite <- !app_assoc. reflexivity. }
    destruct points as [|p ps].
    + apply Hdone. reflexivity.
    + destruct (influx_accepts net (trace (log w [get])) (INFLUX_BUCKET cfg) _).
      * apply Hdone. now rewrite log_log.
      * rewrite log_log. now constructor.
Qed.

(** The batches of a run. *)
Lemma run_batches {A} (ids : list A) :
  exists batches,
    chunked ids MAX_IDS_PER_REQUEST = Ok batches
    /\ Forall (fun b => b <> [] /\ List.length b <= 20
                        /\ exists k, b = nth_chunk ids 20 k) batches
    /\ (ids <> [] -> batches <> []).
Proof.
  unfold MAX_IDS_PER_REQUEST.
  rewrite (chunked_unfold ids 20 ltac:(lia)).
  pose proof (@ceil_div_spec (Z.of_nat (List.length ids)) 20 ltac:(lia))
    as [Hlo Hhi].
  set (c := ceil_div (Z.of_nat (List.length ids)) 20) in *.
  change (Z.to_nat 20) with 20.
  eexists. split; [reflexivity|]. split.
  - apply Forall_forall. intros b Hb.
    apply in_map_iff in Hb as (k & <- & Hk). apply in_seq in Hk.
    split; [|split].
    + apply nth_chunk_not_empty; lia.
    + unfold nth_chunk. apply firstn_le_length.
    + now exists k.
  - intros Hne E.
    assert (Hlen : 0 < List.length ids)
      by (destruct ids; simpl; [congruence|lia]).
    apply (f_equal (@List.length _)) in E.
    rewrite length_map, length_seq in E. simpl in E. lia.
Qed.

(** *** Configuration faults *)

(** X3. Without an API key nothing is requested: [find_places] and
    [request_forecast] raise [RuntimeError] in the world they were called
    in, and so does a run over at least one identifier; a run over no
    identifier needs no key and prints a total of zero. *)
Theorem missing_api_key_no_effect :
  env_set (API_KEY cfg) = false ->
  let e := RuntimeError "Falta METEOSIX_API_KEY en variables de entorno." in
  (forall q types w, find_places net cfg q types w = (Raise e, w))
  /\ (forall batch variables w,
        request_forecast net cfg batch variables w = (Raise e, w))
  /\ (forall ids variables w,
        ids <> [] -> run_etl net cfg ids variables w = (Raise e, w))
  /\ (forall variables w,
        run_etl net cfg [] variables w
        = (Ok tt, log w [EvPrint "TOTAL escritos en Influx: 0"])).
Proof.
  intros Hk e.
  assert (Hreq : forall batch variables w,
            request_forecast net cfg batch variables w = (Raise e, w)).
  { intros. unfold request_forecast. now rewrite Hk. }
  split; [|split; [exact Hreq|split]].
  - intros. unfold find_places. now rewrite Hk.
  - intros ids variables w Hne.
    destruct (run_batches ids) as (batches & Hc & _ & Hnb).
    rewrite (run_etl_unfold net cfg ids variables w batches Hc).
    destruct batches as [|b rest]; [now destruct (Hnb Hne)|].
    rewrite etl_loop_cons. unfold etl_batch, bind. now rewrite Hreq.
  - intros variables w.
    now rewrite (run_etl_unfold net cfg [] variables w [] eq_refl).
Qed.

Lemma etl_batch_quiet variables batch st w :
  influx_configured cfg = false ->
  exists evs, snd (etl_batch net cfg variables batch st w) = log w evs
              /\ Forall quiet evs.
Proof.
  intros Hcfg. destruct st as [state total].
  destruct (etl_batch_outcome variables batch state total w); simpl.
  - exists []. now rewrite log_nil.
  - eexists. split; [reflexivity|]. now repeat constructor.
  - congruence.
  - eexists. split; [reflexivity|]. now repeat constructor.
  - congruence.
Qed.

Lemma etl_loop_quiet variables batches : forall st w,
  influx_configured cfg = false ->
  exists evs, snd (etl_loop net cfg variables batches st w) = log w evs
              /\ Forall quiet evs.
Proof.
  induction batches as [|b rest IH]; intros st w Hcfg.
  - exists []. simpl. now rewrite log_nil.
  - rewrite etl_loop_cons.
    destruct (etl_batch_quiet variables b st w Hcfg) as (evs & E & Hq).
    destruct (etl_batch net cfg variables b st w) as [[st'|e] w'];
      simpl in E; subst w'.
    + destruct (IH st' (log w evs) Hcfg) as (evs' & E' & Hq').
      exists (evs ++ evs'). rewrite E', log_log.
      split; [reflexivity|]. now apply Forall_app.
    + now exists evs.
Qed.

(** X4. Without the credentials of the store, [write_to_influx] raises
    [RuntimeError] in the world it was called in, even for no point; and
    a run, however it ends, writes neither to the store nor to a file:
    the ledger is never advanced. *)
Theorem missing_influx_credentials_no_write :
  influx_configured cfg = false ->
  (forall points w,
     write_to_influx net cfg points w
     = (Raise (RuntimeError
                 "Faltan INFLUX_TOKEN/INFLUX_ORG/INFLUX_BUCKET en env vars."),
        w))
  /\ (forall ids variables w,
        exists evs, snd (run_etl net cfg ids variables w) = log w evs
                    /\ Forall quiet evs).
Proof.
  intros Hcfg. split.
  - intros. rewrite write_to_influx_run. now rewrite Hcfg.
  - intros ids variables w.
    destruct (run_batches ids) as (batches & Hc & _).
    rewrite (run_etl_unfold net cfg ids variables w batches Hc).
    destruct (etl_loop_quiet (variables_or_default variables) batches
                (ledger_of cfg w, 0%Z) w Hcfg) as (evs & E & Hq).
    destruct (etl_loop _ _ _ _ _ _) as [[st|e] w']; simpl in *; subst w'.
    + eexists. rewrite log_log. split; [reflexivity|].
      apply Forall_app. split; [exact Hq|now repeat constructor].
    + now exists evs.
Qed.

(** *** A changed batch *)

(** X5. A batch whose digest differs from the ledger's is processed: the
    points of its features are written in one call (none for no point),
    the count of the points is added to the total, the digest is recorded
    under the batch key, the ledger is saved, the summary is printed, and
    the run pauses for half a second. *)
Theorem changed_batch_is_processed variables batch m total w data features fl
  points skipped :
  request_forecast net cfg batch variables w
  = (Ok data, log w [EvHttpGet (forecast_request cfg batch variables)]) ->
  py_eq_str (lookup (join "," batch) m) (stable_hash data) = false ->
  get_or data "features" (JArr []) = Ok features ->
  py_iter features = Ok fl ->
  features_loop fl [] 0%Z = Ok (points, skipped) ->
  influx_configured cfg = true ->
  (points = []
   \/ influx_accepts net
        (trace w ++ [EvHttpGet (forecast_request cfg batch variables)])
        (INFLUX_BUCKET cfg) (map to_influx_point points) = true) ->
  let state' := JObj (dict_set (join "," batch) (JStr (stable_hash data)) m) in
  etl_batch net cfg variables batch (JObj m, total) w
  = (Ok (state', (total + Z.of_nat (List.length points))%Z),
     mkWorld (dict_set (STATE_PATH cfg) state' (files w))
             (trace w
              ++ process_events cfg batch variables points skipped state')).
Proof.
  intros Hf Hne Hfeat Hiter Hloop Hcfg Hacc state'.
  unfold etl_batch, bind. rewrite Hf. unfold lift.
  rewrite py_get_obj, Hne, Hfeat, Hiter, Hloop, write_to_influx_run, Hcfg.
  cbn [negb].
  assert (Hw : match points with
               | [] => (Ok 0%Z, log w [EvHttpGet (forecast_request cfg batch variables)])
               | _ :: _ =>
                   if influx_accepts net
                        (trace (log w [EvHttpGet (forecast_request cfg batch variables)]))
                        (INFLUX_BUCKET cfg) (map to_influx_point points)
                   then (Ok (Z.of_nat (List.length points)),
                         log (log w [EvHttpGet (forecast_request cfg batch variables)])
                           (write_events cfg points))
                   else (Raise InfluxError,
                         log (log w [EvHttpGet (forecast_request cfg batch variables)])
                           (write_events cfg points))
               end
               = (Ok (Z.of_nat (List.length points)),
                  log w (EvHttpGet (forecast_request cfg batch variables)
                         :: write_events cfg points))).
  { destruct points as [|p ps]; [reflexivity|].
    destruct Hacc as [Hnil|Hacc]; [discriminate|].
    simpl trace. rewrite Hacc. now rewrite log_log. }
  rewrite Hw. simpl.
  unfold save_json, print, sleep, emit, ret, log. simpl.
  f_equal. f_equal. unfold process_events.
  rewrite <- !app_assoc. reflexivity.
Qed.

(** *** The ledger on disk *)

Lemma etl_batch_ledger variables batch st w r w' :
  fst st = ledger_of cfg w ->
  etl_batch net cfg variables batch st w = (r, w') ->
  (forall path, path <> STATE_PATH cfg ->
                dict_get path (files w') = dict_get path (files w))
  /\ match r with
     | Ok st' => fst st' = ledger_of cfg w'
     | Raise _ => files w' = files w
     end.
Proof.
  destruct st as [state total]. intros Hst E. cbn [fst] in Hst.
  pose proof (etl_batch_outcome variables batch state total w) as H.
  rewrite E in H. inversion H; subst; simpl; try (split; [reflexivity|]; auto).
  split.
  - intros path Hp. now apply dict_get_set_other.
  - unfold ledger_of. simpl. now rewrite dict_get_set_same.
Qed.

Lemma etl_loop_ledger variables batches : forall st w st' w',
  fst st = ledger_of cfg w ->
  etl_loop net cfg variables batches st w = (Ok st', w') ->
  fst st' = ledger_of cfg w'.
Proof.
  induction batches as [|b rest IH]; intros st w st' w' Hst E.
  - now injection E as <- <-.
  - rewrite etl_loop_cons in E.
    destruct (etl_batch net cfg variables b st w) as [[st1|e] w1] eqn:Eb;
      [|discriminate].
    destruct (etl_batch_ledger variables b st w _ _ Hst Eb) as [_ Hl].
    exact (IH st1 w1 st' w' Hl E).
Qed.

(** X6. The ledger file follows the loop: from a world whose ledger file
    is the loop's state, a loop that returns leaves its final state in
    the file; a loop that raises does so in some batch, and the files are
    then as the batches before it left them, the ledger file holding
    their state.  No other file is touched. *)
Theorem ledger_file_follows_the_loop variables batches st w :
  fst st = ledger_of cfg w ->
  let r := fst (etl_loop net cfg variables batches st w) in
  let w' := snd (etl_loop net cfg variables batches st w) in
  (forall path, path <> STATE_PATH cfg ->
                dict_get path (files w') = dict_get path (files w))
  /\ match r with
     | Ok st' => fst st' = ledger_of cfg w'
     | Raise _ =>
         exists pre batch rest st1 w1,
           batches = pre ++ batch :: rest
           /\ etl_loop net cfg variables pre st w = (Ok st1, w1)
           /\ fst st1 = ledger_of cfg w1
           /\ files w' = files w1
     end.
Proof.
  revert st w. induction batches as [|b rest IH]; intros st w Hst; simpl.
  - auto.
  - unfold bind.
    destruct (etl_batch net cfg variables b st w) as [[st'|e] w'] eqn:E;
      destruct (etl_batch_ledger variables b st w _ _ Hst E) as [Hother Hl].
    + specialize (IH st' w' Hl). simpl in IH. destruct IH as [Hother' IH].
      split.
      * intros path Hp. now rewrite Hother', Hother.
      * destruct (etl_loop net cfg variables rest st' w') as [[st2|e] w2];
          simpl in *; [exact IH|].
        destruct IH as (pre & batch & rest' & st1 & w1 & -> & Hpre & H1 & H2).
        exists (b :: pre), batch, rest', st1, w1.
        split; [reflexivity|]. split; [|auto].
        rewrite etl_loop_cons, E. exact Hpre.
    + simpl. split; [exact Hother|].
      exists [], b, rest, st, w. auto.
Qed.

(** *** Events of a run *)

Lemma written_count_app evs evs' :
  written_count (evs ++ evs')
  = (written_count evs + written_count evs')%Z.
Proof.
  induction evs as [|ev evs IH]; [reflexivity|].
  destruct ev; simpl; rewrite IH; lia.
Qed.

Lemma etl_batch_trace variables batch st w r w' :
  etl_batch net cfg variables batch st w = (r, w') ->
  exists evs,
    trace w' = trace w ++ evs
    /\ (forall req, In (EvHttpGet req) evs ->
                    req = forecast_request cfg batch variables)
    /\ (forall st', r = Ok st' ->
                    snd st' = (snd st + written_count evs)%Z).
Proof.
  destruct st as [state total]. intros E.
  pose proof (etl_batch_outcome variables batch state total w) as H.
  rewrite E in H.
  assert (Hw : forall points req,
            In (EvHttpGet req) (write_events cfg points) -> False).
  { intros [|p ps] req; simpl; [tauto|]. intros [Hx|[]]. discriminate. }
  inversion H; subst; simpl.
  - exists []. rewrite app_nil_r. split; [reflexivity|].
    split; [intros ? []|discriminate].
  - eexists. split; [reflexivity|]. split; [|discriminate].
    intros req [[= <-]|[]]. reflexivity.
  - eexists. split; [reflexivity|]. split; [|discriminate].
    intros req [[= <-]|Hin]; [reflexivity|]. now destruct (Hw _ _ Hin).
  - eexists. split; [reflexivity|]. split.
    + intros req [[= <-]|[Hx|[]]]; [reflexivity|discriminate].
    + intros st' [= <-]. simpl. lia.
  - eexists. split; [reflexivity|]. split.
    + unfold process_events. intros req [[= <-]|Hin]; [reflexivity|].
      apply in_app_or in Hin as [Hin|Hin]; [now destruct (Hw _ _ Hin)|].
      simpl in Hin. decompose [or] Hin; try discriminate. tauto.
    + intros st' [= <-]. simpl. unfold process_events. simpl.
      rewrite written_count_app. simpl.
      destruct points as [|p ps]; simpl; [lia|].
      rewrite length_map. lia.
Qed.

Lemma etl_loop_trace variables batches : forall st w r w',
  etl_loop net cfg variables batches st w = (r, w') ->
  exists evs,
    trace w' = trace w ++ evs
    /\ (forall req, In (EvHttpGet req) evs ->
                    exists b, In b batches
                              /\ req = forecast_request cfg b variables)
    /\ (forall st', r = Ok st' ->
                    snd st' = (snd st + written_count evs)%Z).
Proof.
  induction batches as [|b rest IH]; intros st w r w' E.
  - injection E as <- <-. exists []. rewrite app_nil_r.
    split; [reflexivity|]. split; [intros ? []|].
    intros st' [= <-]. simpl. lia.
  - rewrite etl_loop_cons in E.
    destruct (etl_batch net cfg variables b st w) as [[st1|e] w1] eqn:Eb;
      destruct (etl_batch_trace variables b st w _ _ Eb)
        as (evs & Ht & Hreq & Htot).
    + destruct (IH st1 w1 r w' E) as (evs' & Ht' & Hreq' & Htot').
      exists (evs ++ evs'). rewrite Ht', Ht, app_assoc.
      split; [reflexivity|]. split.
      * intros req Hin. apply in_app_or in Hin as [Hin|Hin].
        -- exists b. split; [now left|auto].
        -- destruct (Hreq' req Hin) as (b' & Hb' & ->).
           exists b'. split; [now right|reflexivity].
      * intros st' Hr. rewrite written_count_app, (Htot' st' Hr).
        rewrite (Htot st1 eq_refl). lia.
    + injection E as <- <-. exists evs. split; [exact Ht|]. split.
      * intros req Hin. exists b. split; [now left|auto].
      * discriminate.
Qed.

(** X7. Every request of a run, however the run ends, is the forecast
    request of a batch: between one and twenty identifiers, consecutive
    in [location_ids] from a multiple of twenty, with the variables of
    the run. *)
Theorem every_request_is_a_batch ids variables w :
  exists evs,
    trace (snd (run_etl net cfg ids variables w)) = trace w ++ evs
    /\ forall req, In (EvHttpGet req) evs ->
         exists k batch,
           batch = nth_chunk ids 20 k
           /\ batch <> []
           /\ List.length batch <= 20
           /\ req = forecast_request cfg batch
                      (variables_or_default variables).
Proof.
  destruct (run_batches ids) as (batches & Hc & Hall & _).
  rewrite (run_etl_unfold net cfg ids variables w batches Hc).
  destruct (etl_loop net cfg (variables_or_default variables) batches
              (ledger_of cfg w, 0%Z) w) as [r w'] eqn:E.
  destruct (etl_loop_trace _ _ _ _ _ _ E) as (evs & Ht & Hreq & _).
  assert (Hbatch : forall req, In (EvHttpGet req) evs ->
            exists k batch,
              batch = nth_chunk ids 20 k /\ batch <> []
              /\ List.length batch <= 20
              /\ req = forecast_request cfg batch
                         (variables_or_default variables)).
  { intros req Hin. destruct (Hreq req Hin) as (b & Hb & ->).
    rewrite Forall_forall in Hall.
    destruct (Hall b Hb) as (Hne & Hlen & k & Hk).
    exists k, b. auto. }
  destruct r as [st|e]; simpl.
  - exists (evs ++ [EvPrint ("TOTAL escritos en Influx: "
                             ++ int_repr (snd st))]).
    rewrite Ht, app_assoc. split; [reflexivity|].
    intros req Hin. apply in_app_or in Hin as [Hin|[Hx|[]]];
      [auto|discriminate].
  - exists evs. auto.
Qed.

(** X8. The total that a run prints is the number of points handed to
    the store in the write calls of that run. *)
Theorem printed_total_counts_written_points ids variables w w' :
  run_etl net cfg ids variables w = (Ok tt, w') ->
  exists evs,
    trace w'
    = trace w ++ evs
      ++ [EvPrint ("TOTAL escritos en Influx: "
                   ++ int_repr (written_count evs))].
Proof.
  destruct (run_batches ids) as (batches & Hc & _).
  rewrite (run_etl_unfold net cfg ids variables w batches Hc).
  destruct (etl_loop net cfg (variables_or_default variables) batches
              (ledger_of cfg w, 0%Z) w) as [[st|e] w1] eqn:E;
    simpl; [|discriminate].
  intros [= <-].
  destruct (etl_loop_trace _ _ _ _ _ _ E) as (evs & Ht & _ & Htot).
  exists evs. simpl. rewrite Ht, (Htot st eq_refl), <- app_assoc.
  reflexivity.
Qed.

(** *** A second run *)

Lemma request_forecast_stateless batch variables w data w1 :
  stateless_service net ->
  request_forecast net cfg batch variables w = (Ok data, w1) ->
  forall w2, request_forecast net cfg batch variables w2
             = (Ok data,
                log w2 [EvHttpGet (forecast_request cfg batch variables)]).
Proof.
  intros Hs. unfold request_forecast, bind, requests_get, raise, ret.
  destruct (negb (env_set (API_KEY cfg))); [discriminate|].
  intros E w2. rewrite (Hs (trace w2) (trace w)).
  destruct (http_get net (trace w) _) as [|d]; [discriminate|].
  destruct (is_dict_with d "exception"); [discriminate|].
  now injection E as <- _.
Qed.

Lemma forecast_request_key batch batch' variables :
  join "," batch = join "," batch' ->
  forecast_request cfg batch variables
  = forecast_request cfg batch' variables.
Proof. intros E. unfold forecast_request. now rewrite E. Qed.

Lemma etl_batch_records variables batch st w st' w' :
  stateless_service net ->
  etl_batch net cfg variables batch st w = (Ok st', w') ->
  recorded net cfg variables batch (fst st')
  /\ forall b, recorded net cfg variables b (fst st) ->
               recorded net cfg variables b (fst st').
Proof.
  intros Hs E. destruct st as [state total].
  pose proof (etl_batch_outcome variables batch state total w) as H.
  rewrite E in H. inversion H; subst; cbn [fst].
  - split; [|auto]. exists data. split; [|assumption].
    eapply request_forecast_stateless; eauto.
  - assert (Hall : forall w2,
              request_forecast net cfg batch variables w2
              = (Ok data,
                 log w2 [EvHttpGet (forecast_request cfg batch variables)]))
      by (eapply request_forecast_stateless; eauto).
    subst state'. split.
    + exists data. split; [exact Hall|].
      rewrite py_get_obj. unfold lookup. now rewrite dict_get_set_same.
    + intros b (d & Hb & Hg).
      exists d. split; [exact Hb|].
      rewrite py_get_obj in *. unfold lookup in *.
      destruct (string_dec (join "," b) (join "," batch)) as [Ek|Ek].
      * rewrite Ek, dict_get_set_same.
        specialize (Hb w). specialize (Hall w).
        rewrite (forecast_request_key b batch variables Ek) in Hb.
        unfold request_forecast, bind, requests_get in Hb, Hall.
        rewrite (forecast_request_key b batch variables Ek) in Hb.
        rewrite Hb in Hall. now injection Hall as ->.
      * now rewrite dict_get_set_other.
Qed.

Lemma etl_loop_records variables batches : forall st w st' w',
  stateless_service net ->
  etl_loop net cfg variables batches st w = (Ok st', w') ->
  Forall (fun b => recorded net cfg variables b (fst st')) batches
  /\ forall b, recorded net cfg variables b (fst st) ->
               recorded net cfg variables b (fst st').
Proof.
  induction batches as [|b rest IH]; intros st w st' w' Hs E.
  - injection E as <- <-. auto.
  - rewrite etl_loop_cons in E.
    destruct (etl_batch net cfg variables b st w) as [[st1|e] w1] eqn:Eb;
      [|discriminate].
    destruct (etl_batch_records variables b st w st1 w1 Hs Eb) as [Hb Hkeep].
    destruct (IH st1 w1 st' w' Hs E) as [Hrest Hkeep'].
    split; [constructor|]; auto.
Qed.

Lemma etl_loop_all_recorded variables batches : forall state total w,
  Forall (fun b => recorded net cfg variables b state) batches ->
  etl_loop net cfg variables batches (state, total) w
  = (Ok (state, total),
     log w (flat_map (fun b => skip_events cfg b variables) batches)).
Proof.
  induction batches as [|b rest IH]; intros state total w Hall.
  - simpl. unfold ret. now rewrite log_nil.
  - inversion Hall as [|? ? (data & Hreq & Hget) Hrest]; subst.
    rewrite etl_loop_cons.
    rewrite (etl_batch_skip net cfg variables b state total w data _ _
               (Hreq w) Hget eq_refl).
    rewrite (IH state total _ Hrest), log_log. reflexivity.
Qed.

(** X9. Running again changes nothing: when the service answers a
    request the same whatever happened before, a run that returned is
    followed by a run that only fetches and skips every batch and prints
    a total of zero; it writes no point and does not save the ledger. *)
Theorem second_run_skips_every_batch ids variables batches w w1 :
  stateless_service net ->
  chunked ids MAX_IDS_PER_REQUEST = Ok batches ->
  run_etl net cfg ids variables w = (Ok tt, w1) ->
  run_etl net cfg ids variables w1
  = (Ok tt,
     log w1 (flat_map
               (fun b => skip_events cfg b (variables_or_default variables))
               batches
             ++ [EvPrint "TOTAL escritos en Influx: 0"])).
Proof.
  intros Hs Hc.
  rewrite !(run_etl_unfold net cfg ids variables _ batches Hc).
  destruct (etl_loop net cfg (variables_or_default variables) batches
              (ledger_of cfg w, 0%Z) w) as [[st|e] w0] eqn:E;
    simpl; [|discriminate].
  intros [= <-].
  destruct (etl_loop_records _ _ _ _ _ _ Hs E) as [Hall _].
  pose proof (etl_loop_ledger _ _ (ledger_of cfg w, 0%Z) w _ _ eq_refl E)
    as Hl.
  simpl in Hl.
  change (ledger_of cfg (log w0 _)) with (ledger_of cfg w0).
  rewrite <- Hl.
  rewrite (etl_loop_all_recorded _ _ _ _ _ Hall). simpl.
  now rewrite log_log.
Qed.

End Batch.

(** A run over two identifiers without an API key. *)
Lemma missing_api_key_no_effect_witness :
  let net := Demo.service Demo.response in
  env_set (API_KEY Sample.cfg_without_key) = false
  /\ run_etl net Sample.cfg_without_key Demo.batch None Demo.world_with_ledger
     = (Raise (RuntimeError
                 "Falta METEOSIX_API_KEY en variables de entorno."),
        Demo.world_with_ledger).
Proof.
  intros net. split; [reflexivity|].
  apply (proj1 (proj2 (proj2
    (missing_api_key_no_effect net Sample.cfg_without_key eq_refl)))).
  discriminate.
Defined.

(** Writing no point without a token. *)
Lemma missing_influx_credentials_no_write_witness :
  let net := Demo.service Demo.response in
  influx_configured Sample.cfg_without_token = false
  /\ write_to_influx net Sample.cfg_without_token [] Demo.empty_world
     = (Raise (RuntimeError
                 "Faltan INFLUX_TOKEN/INFLUX_ORG/INFLUX_BUCKET en env vars."),
        Demo.empty_world).
Proof.
  intros net. split; [reflexivity|].
  apply (proj1
    (missing_influx_credentials_no_write net Sample.cfg_without_token
       eq_refl)).
Defined.

(** The first batch of a run that starts from nothing. *)
Lemma changed_batch_is_processed_witness :
  let net := Demo.service Demo.response in
  let w := Demo.empty_world in
  let get := EvHttpGet
               (forecast_request Demo.cfg Demo.batch DEFAULT_VARIABLES) in
  let fl := [single_record_feature "temperature"
               (Demo.temperature_record "18.5")] in
  request_forecast net Demo.cfg Demo.batch DEFAULT_VARIABLES w
  = (Ok Demo.response, log w [get])
  /\ features_loop fl [] 0%Z = Ok ([Sample.temperature_point], 0%Z)
  /\ etl_batch net Demo.cfg DEFAULT_VARIABLES Demo.batch (JObj [], 0%Z) w
     = (Ok (Sample.ledger_after, 1%Z),
        mkWorld [(STATE_PATH Demo.cfg, Sample.ledger_after)]
          (process_events Demo.cfg Demo.batch DEFAULT_VARIABLES
             [Sample.temperature_point] 0%Z Sample.ledger_after)).
Proof.
  intros net w get fl.
  split; [reflexivity|]. split; [reflexivity|].
  apply (changed_batch_is_processed net Demo.cfg DEFAULT_VARIABLES Demo.batch
           [] 0%Z w Demo.response (JArr fl) fl [Sample.temperature_point]
           0%Z);
    try reflexivity.
  right. reflexivity.
Defined.

(** The loop over one batch, from a world without a ledger file. *)
Lemma ledger_file_follows_the_loop_witness :
  let net := Demo.service Demo.response in
  let w := Demo.empty_world in
  let loop := etl_loop net Demo.cfg DEFAULT_VARIABLES [Demo.batch]
                (JObj [], 0%Z) w in
  fst (JObj [], 0%Z) = ledger_of Demo.cfg w
  /\ forall path, path <> STATE_PATH Demo.cfg ->
                  dict_get path (files (snd loop)) = dict_get path (files w).
Proof.
  intros net w loop. split; [reflexivity|].
  apply (proj1
    (ledger_file_follows_the_loop net Demo.cfg DEFAULT_VARIABLES
       [Demo.batch] (JObj [], 0%Z) w eq_refl)).
Defined.

(** A first run from nothing writes one point and prints a total of
    one. *)
Lemma printed_total_counts_written_points_witness :
  let net := Demo.service Demo.response in
  run_etl net Demo.cfg Demo.batch None Demo.empty_world
  = (Ok tt, Sample.world_after_first_run)
  /\ exists evs,
       trace Sample.world_after_first_run
       = trace Demo.empty_world ++ evs
         ++ [EvPrint ("TOTAL escritos en Influx: "
                      ++ int_repr (written_count evs))].
Proof.
  intros net.
  assert (H : run_etl net Demo.cfg Demo.batch None Demo.empty_world
              = (Ok tt, Sample.world_after_first_run)) by reflexivity.
  split; [exact H|].
  exact (printed_total_counts_written_points net Demo.cfg Demo.batch None
           Demo.empty_world Sample.world_after_first_run H).
Defined.

(** After the first run, a second one only fetches and skips. *)
Lemma second_run_skips_every_batch_witness :
  let net := Demo.service Demo.response in
  stateless_service net
  /\ chunked Demo.batch MAX_IDS_PER_REQUEST = Ok [Demo.batch]
  /\ run_etl net Demo.cfg Demo.batch None Demo.empty_world
     = (Ok tt, Sample.world_after_first_run)
  /\ run_etl net Demo.cfg Demo.batch None Sample.world_after_first_run
     = (Ok tt,
        log Sample.world_after_first_run
          [EvHttpGet (forecast_request Demo.cfg Demo.batch DEFAULT_VARIABLES);
           EvPrint "[SKIP] Batch sin cambios: 15078,36057";
           EvPrint "TOTAL escritos en Influx: 0"]).
Proof.
  intros net.
  assert (Hs : stateless_service net) by (intros h h' r; reflexivity).
  assert (H : run_etl net Demo.cfg Demo.batch None Demo.empty_world
              = (Ok tt, Sample.world_after_first_run)) by reflexivity.
  split; [exact Hs|]. split; [reflexivity|]. split; [exact H|].
  exact (second_run_skips_every_batch net Demo.cfg Demo.batch None
           [Demo.batch] Demo.empty_world Sample.world_after_first_run
           Hs eq_refl H).
Defined.

(** ** More on the transformer *)

Section Flatten.
Context {RT : PyRuntime}.

Ltac ok_step H :=
  match type of H with
  | rbind ?r _ = Ok _ =>
      let x := fresh "x" in
      destruct r as [x|] eqn:?; simpl in H; [|discriminate H]
  end.

Lemma collect_app {A B} (f : A -> result (list B)) xs ys :
  collect f (xs ++ ys)
  = rbind (collect f xs) (fun ps =>
      rbind (collect f ys) (fun qs => Ok (ps ++ qs))).
Proof.
  induction xs as [|x xs IH]; simpl.
  - destruct (collect f ys); reflexivity.
  - destruct (f x) as [here|e]; simpl; [|reflexivity].
    rewrite IH. destruct (collect f xs) as [ps|e]; simpl; [|reflexivity].
    destruct (collect f ys) as [qs|e]; simpl; [|reflexivity].
    now rewrite app_assoc.
Qed.

Lemma collect_raise {A B} (f : A -> result (list B)) xs e :
  collect f xs = Raise e <-> first_failure f xs e.
Proof.
  split.
  - induction xs as [|x xs IH]; simpl; [discriminate|].
    destruct (f x) as [here|e'] eqn:Hx; simpl.
    + destruct (collect f xs) as [there|e'']; simpl; [discriminate|].
      intros [= ->].
      destruct (IH eq_refl) as (pre & y & post & -> & Hpre & Hy).
      exists (x :: pre), y, post. split; [reflexivity|].
      split; [constructor; eauto|exact Hy].
    + intros [= ->]. exists [], x, xs. auto.
  - intros (pre & x & post & -> & Hpre & Hx).
    induction Hpre as [|y pre [r Hy] _ IH]; simpl.
    + now rewrite Hx.
    + rewrite Hy. simpl. now rewrite IH.
Qed.

Lemma collect_Forall {A B} (f : A -> result (list B)) (P : B -> Prop) xs :
  (forall x ps, In x xs -> f x = Ok ps -> Forall P ps) ->
  forall ps, collect f xs = Ok ps -> Forall P ps.
Proof.
  induction xs as [|x xs IH]; simpl; intros Hf ps H.
  - injection H as <-. constructor.
  - ok_step H. ok_step H. injection H as <-.
    apply Forall_app. split; [eapply Hf; eauto|apply IH; eauto].
Qed.

Lemma values_loop_collect var_name tags values : forall out,
  values_loop var_name tags values out
  = rbind (collect (record_points var_name tags) values)
          (fun ps => Ok (out ++ ps)).
Proof.
  induction values as [|hv rest IH]; intros out; simpl.
  - now rewrite app_nil_r.
  - unfold record_points at 1.
    destruct (hourly_point var_name tags hv) as [p|e]; simpl; [|reflexivity].
    rewrite IH.
    destruct (collect (record_points var_name tags) rest) as [there|e];
      simpl; [|reflexivity].
    destruct p as [p|]; simpl; [|reflexivity].
    now rewrite <- app_assoc.
Qed.

Lemma variable_points_append ptags var out :
  variable_points ptags var out
  = rbind (variable_points ptags var []) (fun ps => Ok (out ++ ps)).
Proof.
  unfold variable_points.
  repeat match goal with
  | |- context [rbind ?r _] =>
      match r with
      | get_or _ _ _ => destruct r; simpl; [|reflexivity]
      | py_iter _ => destruct r; simpl; [|reflexivity]
      end
  end.
  rewrite !values_loop_collect.
  destruct (collect _ _); reflexivity.
Qed.

Lemma variables_loop_collect ptags vars : forall out,
  variables_loop ptags vars out
  = rbind (collect (fun var => variable_points ptags var []) vars)
          (fun ps => Ok (out ++ ps)).
Proof.
  induction vars as [|var rest IH]; intros out; simpl.
  - now rewrite app_nil_r.
  - rewrite variable_points_append.
    destruct (variable_points ptags var []) as [here|e]; simpl;
      [|reflexivity].
    rewrite IH. destruct (collect _ rest) as [there|e]; simpl;
      [|reflexivity].
    now rewrite app_assoc.
Qed.

Lemma days_loop_collect ptags days : forall out,
  days_loop ptags days out
  = rbind (collect (day_points ptags) days) (fun ps => Ok (out ++ ps)).
Proof.
  induction days as [|day rest IH]; intros out; simpl.
  - now rewrite app_nil_r.
  - unfold day_points at 1.
    destruct (get_or day "variables" (JArr [])) as [variables|e]; simpl;
      [|reflexivity].
    destruct (py_iter variables) as [vars|e]; simpl; [|reflexivity].
    rewrite variables_loop_collect.
    destruct (collect _ vars) as [here|e]; simpl; [|reflexivity].
    rewrite IH. destruct (collect _ rest) as [there|e]; simpl;
      [|reflexivity].
    now rewrite app_assoc.
Qed.

Lemma record_points_length var_name tags hv ps :
  record_points var_name tags hv = Ok ps -> List.length ps <= 1.
Proof.
  unfold record_points. intros H. ok_step H. injection H as <-.
  destruct x; simpl; lia.
Qed.

Lemma collect_length {A B} (f : A -> result (list B)) xs :
  (forall x ps, f x = Ok ps -> List.length ps <= 1) ->
  forall ps, collect f xs = Ok ps -> List.length ps <= List.length xs.
Proof.
  intros Hf. induction xs as [|x xs IH]; simpl; intros ps H.
  - injection H as <-. simpl. lia.
  - destruct (f x) as [here|] eqn:Hx; simpl in H; [|discriminate].
    destruct (collect f xs) as [there|] eqn:Hxs; simpl in H; [|discriminate].
    injection H as <-. rewrite length_app.
    pose proof (Hf _ _ Hx). pose proof (IH _ eq_refl). lia.
Qed.

(** X10. The three loops of the transformer append, to what was already
    collected, the points of their elements in the order of the document:
    the loop over hourly records gives at most one point per record, the
    loop over variables the points of each variable, the loop over days
    the points of each day; the first element that raises makes the loop
    raise. *)
Theorem loops_collect_in_document_order :
  (forall var_name tags values out,
     values_loop var_name tags values out
     = rbind (collect (record_points var_name tags) values)
             (fun ps => Ok (out ++ ps)))
  /\ (forall var_name tags values ps,
        collect (record_points var_name tags) values = Ok ps ->
        List.length ps <= List.length values)
  /\ (forall ptags vars out,
        variables_loop ptags vars out
        = rbind (collect (fun var => variable_points ptags var []) vars)
                (fun ps => Ok (out ++ ps)))
  /\ (forall ptags days out,
        days_loop ptags days out
        = rbind (collect (day_points ptags) days)
                (fun ps => Ok (out ++ ps)))
  /\ (forall A B (f : A -> result (list B)) xs e,
        collect f xs = Raise e <-> first_failure f xs e).
Proof.
  split; [|split; [|split; [|split]]].
  - intros. apply values_loop_collect.
  - intros var_name tags values ps. apply collect_length.
    intros x qs. apply record_points_length.
  - intros. apply variables_loop_collect.
  - intros. apply days_loop_collect.
  - intros. apply collect_raise.
Qed.

Lemma exception_feature_no_point m :
  truthy (lookup "exception" m) = true ->
  iter_timeseries_points (JObj m) = Ok [].
Proof.
  intros H. unfold iter_timeseries_points, get_or.
  rewrite !py_get_obj. simpl. now rewrite H.
Qed.

Lemma features_loop_collect fl : forall all_points skipped,
  features_loop fl all_points skipped
  = rbind (collect iter_timeseries_points fl)
          (fun ps =>
             Ok (all_points ++ ps,
                 (skipped
                  + Z.of_nat (List.length (filter has_exception fl)))%Z)).
Proof.
  induction fl as [|feat rest IH]; intros all_points skipped.
  - simpl. now rewrite app_nil_r, Z.add_0_r.
  - cbn [features_loop collect filter].
    destruct feat as [| | | | | |m]; try reflexivity.
    assert (Hh : has_exception (JObj m) = truthy (lookup "exception" m))
      by reflexivity.
    rewrite Hh, py_get_obj. cbn [rbind].
    destruct (truthy (lookup "exception" m)) eqn:Hx.
    + rewrite (exception_feature_no_point m Hx). cbn [rbind].
      rewrite IH.
      destruct (collect iter_timeseries_points rest) as [ps|e];
        cbn [rbind app List.length]; [|reflexivity].
      do 2 f_equal. lia.
    + destruct (iter_timeseries_points (JObj m)) as [pts|e]; cbn [rbind];
        [|reflexivity].
      rewrite IH.
      destruct (collect iter_timeseries_points rest) as [ps|e];
        cbn [rbind]; [|reflexivity].
      now rewrite app_assoc.
Qed.

(** X11. The loop of [run_etl] over the features collects what
    [iter_timeseries_points] returns for every feature, in order, and
    counts the features whose ["exception"] is truthy: the transformer
    returns no point for those, so the check of [run_etl] only counts.
    The loop raises exactly when the transformer raises on a feature
    before which it returned on every feature; the points collected so
    far are then lost. *)
Theorem features_loop_collects_and_counts fl all_points skipped :
  features_loop fl all_points skipped
  = rbind (collect iter_timeseries_points fl)
          (fun ps =>
             Ok (all_points ++ ps,
                 (skipped
                  + Z.of_nat (List.length (filter has_exception fl)))%Z))
  /\ (forall m, truthy (lookup "exception" m) = true ->
                iter_timeseries_points (JObj m) = Ok [])
  /\ (forall e, features_loop fl all_points skipped = Raise e
                <-> first_failure iter_timeseries_points fl e).
Proof.
  split; [apply features_loop_collect|split].
  - apply exception_feature_no_point.
  - intros e. rewrite features_loop_collect, <- collect_raise.
    destruct (collect iter_timeseries_points fl); simpl;
      split; congruence.
Qed.

(** *** When a record raises *)

Lemma wind_fields_raises m e :
  wind_fields (JObj m) [] = Raise e <->
  (is_not_none (lookup "moduleValue" m) = true
   /\ py_float (lookup "moduleValue" m) = Raise e)
  \/ ((is_not_none (lookup "moduleValue" m) = false
       \/ exists x, py_float (lookup "moduleValue" m) = Ok x)
      /\ is_not_none (lookup "directionValue" m) = true
      /\ py_float (lookup "directionValue" m) = Raise e).
Proof.
  unfold wind_fields. rewrite !py_get_obj. cbn [rbind].
  destruct (is_not_none (lookup "moduleValue" m));
    [destruct (py_float (lookup "moduleValue" m)) as [x|e1]|];
    cbn [rbind];
    try (destruct (is_not_none (lookup "directionValue" m));
         [destruct (py_float (lookup "directionValue" m)) as [y|e2]|]);
    cbn [rbind];
    split; intros H;
    repeat match goal with
    | H : _ \/ _ |- _ => destruct H
    | H : _ /\ _ |- _ => destruct H
    | H : exists _, _ |- _ => destruct H
    end;
    try congruence; try discriminate;
    try (injection H as ->); eauto 8.
Qed.

Lemma scalar_fields_raises m e :
  scalar_fields (JObj m) [] = Raise e <->
  is_not_none (lookup "value" m) = true
  /\ py_eq_str (lookup "value" m) "" = false
  /\ py_float (lookup "value" m) = Raise e
  /\ caught e = false.
Proof.
  unfold scalar_fields. rewrite py_get_obj. cbn [rbind].
  destruct (is_not_none (lookup "value" m));
    destruct (py_eq_str (lookup "value" m) ""); cbn [andb negb];
    try (split; [discriminate|intros (? & ? & _); discriminate]).
  destruct (py_float (lookup "value" m)) as [x|e1].
  - split; [discriminate|intros (_ & _ & ? & _); discriminate].
  - destruct e1; simpl;
      (split;
       [intros H; try discriminate; injection H as <-; auto
       |intros (_ & _ & H & Hc); injection H as <-;
        try discriminate; reflexivity]).
Qed.

(** X12. When the loop body raises on a record.  A record that is not an
    object raises [AttributeError].  An object raises only when its
    timestamp is truthy, and then: when the timestamp does not parse;
    for wind, when [float] fails on a sub-value that is not null (no
    failure is caught there); for another variable, when [float] fails on
    a value that is neither null nor empty with an exception other than
    [ValueError] and [TypeError]. *)
Theorem hourly_point_raises var_name tags m e :
  (forall hv, (forall m', hv <> JObj m') ->
              hourly_point var_name tags hv = Raise AttributeError)
  /\ (hourly_point var_name tags (JObj m) = Raise e <->
      truthy (lookup "timeInstant" m) = true
      /\ (py_isoparse (lookup "timeInstant" m) = Raise e
          \/ ((exists ts, py_isoparse (lookup "timeInstant" m) = Ok ts)
              /\ if py_eq_str var_name "wind"
                 then
                   (is_not_none (lookup "moduleValue" m) = true
                    /\ py_float (lookup "moduleValue" m) = Raise e)
                   \/ ((is_not_none (lookup "moduleValue" m) = false
                        \/ exists x,
                             py_float (lookup "moduleValue" m) = Ok x)
                       /\ is_not_none (lookup "directionValue" m) = true
                       /\ py_float (lookup "directionValue" m) = Raise e)
                 else
                   is_not_none (lookup "value" m) = true
                   /\ py_eq_str (lookup "value" m) "" = false
                   /\ py_float (lookup "value" m) = Raise e
                   /\ caught e = false))).
Proof.
  split.
  - intros hv Hhv. destruct hv; try reflexivity.
    now destruct (Hhv m0).
  - unfold hourly_point. rewrite !py_get_obj. cbn [rbind].
    destruct (truthy (lookup "timeInstant" m)); cbn [negb].
    2:{ split; [discriminate|intros [? _]; discriminate]. }
    destruct (py_isoparse (lookup "timeInstant" m)) as [ts|e1]; cbn [rbind].
    2:{ split.
        - intros [= ->]. auto.
        - intros (_ & [H|[[ts H] _]]); congruence. }
    destruct (py_eq_str var_name "wind").
    + rewrite <- wind_fields_raises.
      destruct (wind_fields (JObj m) []) as [fields|e1]; cbn [rbind].
      * split; [discriminate|].
        intros (_ & [H|[_ H]]); discriminate.
      * split.
        -- intros [= ->]. split; [reflexivity|]. right. eauto.
        -- intros (_ & [H|[_ H]]); [discriminate|now injection H as ->].
    + rewrite <- scalar_fields_raises.
      destruct (scalar_fields (JObj m) []) as [fields|e1]; cbn [rbind].
      * split; [discriminate|].
        intros (_ & [H|[_ H]]); discriminate.
      * split.
        -- intros [= ->]. split; [reflexivity|]. right. eauto.
        -- intros (_ & [H|[_ H]]); [discriminate|now injection H as ->].
Qed.

(** *** Tags *)

Lemma hourly_point_tags var_name tags hv p :
  hourly_point var_name tags hv = Ok (Some p) -> pt_tags p = tags.
Proof.
  unfold hourly_point. intros H.
  ok_step H.
  destruct (negb (truthy x)); [discriminate|].
  do 3 ok_step H.
  injection H as H.
  match type of H with
  | match ?f with [] => _ | _ => _ end = _ => destruct f
  end; [discriminate|].
  now injection H as <-.
Qed.

Lemma py_or_tag_value v : tag_value (py_or v (JStr "")).
Proof.
  unfold py_or, tag_value. destruct (truthy v) eqn:E; auto.
Qed.

Lemma get_or_tag_value o k v :
  get_or o k (JStr "") = Ok v -> tag_value v.
Proof.
  unfold get_or. intros H. ok_step H. injection H as <-.
  apply py_or_tag_value.
Qed.

Lemma variable_points_tags ptags var ps :
  variable_points ptags var [] = Ok ps -> Forall (place_tagged ptags) ps.
Proof.
  unfold variable_points. intros H. do 6 ok_step H.
  rewrite values_loop_collect in H. ok_step H. injection H as <-.
  simpl. eapply collect_Forall; [|eassumption].
  intros hv ps _ Hr. unfold record_points in Hr. ok_step Hr.
  injection Hr as <-.
  match goal with
  | Hp : hourly_point _ _ _ = Ok ?p |- _ =>
      destruct p as [p|]; [|constructor];
      apply hourly_point_tags in Hp
  end.
  constructor; [|constructor].
  eexists. split; [eassumption|]. split; [reflexivity|].
  repeat first [apply Forall_nil | apply Forall_cons]; simpl;
    eapply get_or_tag_value; eassumption.
Qed.

Lemma iter_timeseries_points_tags feature points :
  iter_timeseries_points feature = Ok points ->
  exists ptags,
    map fst ptags
    = ["place_id"; "place_name"; "municipality"; "province"; "type"]
    /\ Forall (fun kv => tag_value (snd kv)) ptags
    /\ Forall (place_tagged ptags) points.
Proof.
  unfold iter_timeseries_points. intros H. do 2 ok_step H.
  destruct (truthy x0).
  { injection H as <-.
    exists (place_tags "" (JStr "") (JStr "") (JStr "") (JStr "")).
    split; [reflexivity|]. split; [|constructor].
    repeat first [apply Forall_nil | apply Forall_cons]; simpl;
      unfold tag_value; auto. }
  do 8 ok_step H.
  match type of H with
  | days_loop ?t _ _ = _ => exists t
  end.
  split; [reflexivity|]. split.
  - repeat first [apply Forall_nil | apply Forall_cons]; simpl;
      try (eapply get_or_tag_value; eassumption).
    unfold tag_value.
    match goal with |- _ \/ JStr ?s = _ => destruct s; simpl; auto end.
  - rewrite days_loop_collect in H. ok_step H. injection H as <-. simpl.
    eapply collect_Forall; [|eassumption].
    intros day ps _ Hd. unfold day_points in Hd. do 2 ok_step Hd.
    eapply collect_Forall; [|eassumption].
    intros var qs _. apply variable_points_tags.
Qed.

End Flatten.

(** *** The points handed to the store *)

Section DictKeys.
Variable V : Type.

Lemma dict_get_none_notin k (m : dict V) :
  dict_get k m = None -> ~ In k (map fst m).
Proof.
  induction m as [|[k' v'] m IH]; simpl; [tauto|].
  destruct (String.eqb_spec k k') as [->|Hne]; [discriminate|].
  intros H [E|Hin]; [congruence|]. now apply IH.
Qed.

Lemma dict_get_notin_none k (m : dict V) :
  ~ In k (map fst m) -> dict_get k m = None.
Proof.
  induction m as [|[k' v'] m IH]; simpl; [reflexivity|].
  intros H. destruct (String.eqb_spec k k') as [->|Hne]; [tauto|].
  apply IH. tauto.
Qed.

Lemma dict_set_fresh k (v : V) m :
  dict_get k m = None -> dict_set k v m = m ++ [(k, v)].
Proof.
  induction m as [|[k' v'] m IH]; simpl; [reflexivity|].
  destruct (String.eqb k k'); [discriminate|].
  intros H. now rewrite IH.
Qed.

Lemma dict_set_keys k (v : V) m :
  map fst (dict_set k v m)
  = match dict_get k m with
    | Some _ => map fst m
    | None => map fst m ++ [k]
    end.
Proof.
  induction m as [|[k' v'] m IH]; simpl; [reflexivity|].
  destruct (String.eqb k k'); simpl; [reflexivity|].
  rewrite IH. now destruct (dict_get k m).
Qed.

Lemma dict_set_nodup k (v : V) m :
  NoDup (map fst m) -> NoDup (map fst (dict_set k v m)).
Proof.
  intros H. rewrite dict_set_keys.
  destruct (dict_get k m) eqn:E; [exact H|].
  apply NoDup_app; [exact H|repeat constructor; tauto|].
  intros x Hx [<-|[]]. now apply (dict_get_none_notin _ _ E).
Qed.

End DictKeys.

Lemma fold_left_dict_set {V W} (g : V -> W) (l : dict V) : forall acc,
  NoDup (map fst l) ->
  (forall k, In k (map fst l) -> ~ In k (map fst acc)) ->
  fold_left (fun acc kv => dict_set (fst kv) (g (snd kv)) acc) l acc
  = acc ++ map (fun kv => (fst kv, g (snd kv))) l.
Proof.
  induction l as [|[k v] l IH]; intros acc Hnd Hfresh; simpl.
  - now rewrite app_nil_r.
  - inversion Hnd as [|? ? Hk Hl]; subst.
    rewrite dict_set_fresh.
    + rewrite IH; [now rewrite <- app_assoc|exact Hl|].
      intros k' Hk'. rewrite map_app, in_app_iff. simpl.
      intros [Hin|[<-|[]]]; [|tauto].
      apply (Hfresh k'); [now right|exact Hin].
    + clear IH. induction acc as [|[k' w'] acc IHa]; [reflexivity|].
      simpl. destruct (String.eqb_spec k k') as [->|Hne].
      * destruct (Hfresh k' (or_introl eq_refl)). now left.
      * apply IHa. intros k'' Hk'' Hin.
        apply (Hfresh k'' Hk''). now right.
Qed.


Section Tags.
Context {RT : PyRuntime}.

Ltac ok_step H :=
  match type of H with
  | rbind ?r _ = Ok _ =>
      let x := fresh "x" in
      destruct r as [x|] eqn:?; simpl in H; [|discriminate H]
  end.

Lemma hourly_point_fields_nodup var_name tags hv p :
  hourly_point var_name tags hv = Ok (Some p) ->
  NoDup (map fst (pt_fields p)).
Proof.
  unfold hourly_point. intros H.
  ok_step H.
  destruct (negb (truthy x)); [discriminate|].
  do 3 ok_step H.
  assert (Hf : NoDup (map fst x1)).
  { destruct (py_eq_str var_name "wind").
    - unfold wind_fields in *.
      match goal with E : _ = Ok x1 |- _ => rename E into Hw end.
      do 3 ok_step Hw.
      assert (NoDup (map fst x5)).
      { match goal with
        | E : (if ?c then _ else _) = Ok x5 |- _ =>
            destruct c; [ok_step E|]; injection E as <-;
            repeat constructor; simpl; tauto
        end. }
      destruct (is_not_none x4); [ok_step Hw|]; injection Hw as <-;
        [now apply dict_set_nodup|assumption].
    - unfold scalar_fields in *.
      match goal with E : _ = Ok x1 |- _ => rename E into Hs end.
      ok_step Hs.
      destruct (is_not_none x3 && negb (py_eq_str x3 ""));
        [|injection Hs as <-; constructor].
      destruct (py_float x3) as [y|[]]; try discriminate;
        injection Hs as <-; repeat constructor; simpl; tauto. }
  injection H as H.
  assert (Hf' : NoDup (map fst (if truthy x2
                                then dict_set "model_run" x2 x1 else x1)))
    by (destruct (truthy x2); [now apply dict_set_nodup|exact Hf]).
  remember (if truthy x2 then dict_set "model_run" x2 x1 else x1) as f.
  destruct f; [discriminate|].
  injection H as <-. cbn [pt_fields]. now rewrite Heqf.
Qed.

Lemma iter_timeseries_points_each (P : point -> Prop) feature points :
  (forall var_name tags hv p,
     hourly_point var_name tags hv = Ok (Some p) -> P p) ->
  iter_timeseries_points feature = Ok points ->
  Forall P points.
Proof.
  intros HP. unfold iter_timeseries_points. intros H. do 2 ok_step H.
  destruct (truthy x0); [injection H as <-; constructor|].
  do 8 ok_step H.
  rewrite days_loop_collect in H. ok_step H. injection H as <-. simpl.
  eapply collect_Forall; [|eassumption].
  intros day ps _ Hd. unfold day_points in Hd. do 2 ok_step Hd.
  eapply collect_Forall; [|eassumption].
  intros var qs _ Hv. unfold variable_points in Hv. do 6 ok_step Hv.
  rewrite values_loop_collect in Hv. ok_step Hv. injection Hv as <-.
  simpl. eapply collect_Forall; [|eassumption].
  intros hv rs _ Hr. unfold record_points in Hr. ok_step Hr.
  injection Hr as <-.
  match goal with
  | Hp : hourly_point _ _ _ = Ok ?p |- _ =>
      destruct p as [p|]; [|constructor]; apply HP in Hp
  end.
  now repeat constructor.
Qed.

Lemma py_str_tag_value v :
  tag_value v -> py_str (py_or v (JStr "")) = py_str v.
Proof.
  unfold py_or. intros [H| ->]; [now rewrite H|reflexivity].
Qed.

(** X13. Every point that the transformer returns for a feature carries
    the nine tags in the order of the tuple, none of them null (each is
    truthy or the empty string), the first five the same for all the
    points of the feature.  The point handed to the store has the
    measurement [forecast_hourly], the time of the tuple with the
    precision of seconds, the text of each tag under its key and the
    fields of the tuple, in the same order. *)
Theorem points_carry_nine_tags feature points :
  iter_timeseries_points feature = Ok points ->
  Forall (fun p =>
            map fst (pt_tags p) = TAG_KEYS
            /\ Forall (fun kv => tag_value (snd kv)) (pt_tags p)
            /\ to_influx_point p
               = mkInfluxPoint "forecast_hourly" (pt_time p) "s"
                   (map (fun kv => (fst kv, py_str (snd kv))) (pt_tags p))
                   (pt_fields p))
         points
  /\ (forall p q, In p points -> In q points ->
                  firstn 5 (pt_tags p) = firstn 5 (pt_tags q)).
Proof.
  intros H.
  destruct (iter_timeseries_points_tags _ _ H) as (ptags & Hk & Hv & Ht).
  pose proof (iter_timeseries_points_each
                (fun p => NoDup (map fst (pt_fields p))) _ _
                hourly_point_fields_nodup H) as Hf.
  assert (Hlen : List.length ptags = 5)
    by (apply (f_equal (@List.length _)) in Hk;
        now rewrite length_map in Hk).
  rewrite Forall_forall in Ht, Hf.
  split.
  - apply Forall_forall. intros p Hp.
    destruct (Ht p Hp) as (vtags & Hp1 & Hp2 & Hp3).
    assert (Hkeys : map fst (pt_tags p) = TAG_KEYS)
      by (now rewrite Hp1, map_app, Hk, Hp2).
    assert (Hvals : Forall (fun kv => tag_value (snd kv)) (pt_tags p))
      by (rewrite Hp1; apply Forall_app; auto).
    split; [exact Hkeys|]. split; [exact Hvals|].
    unfold to_influx_point. f_equal.
    + rewrite (fold_left_dict_set
                 (fun v => py_str (py_or v (JStr ""))) (pt_tags p) []).
      * simpl. apply map_ext_in. intros [k v] Hin. simpl. f_equal.
        apply py_str_tag_value.
        rewrite Forall_forall in Hvals. apply (Hvals _ Hin).
      * rewrite Hkeys. unfold TAG_KEYS.
        repeat (constructor;
                [simpl; intuition discriminate|]).
        constructor.
      * simpl. tauto.
    + rewrite (fold_left_dict_set (fun v => v) (pt_fields p) []).
      * simpl. rewrite <- (map_id (pt_fields p)) at 2.
        apply map_ext. now intros [k v].
      * apply (Hf p Hp).
      * simpl. tauto.
  - intros p q Hp Hq.
    destruct (Ht p Hp) as (vp & -> & _). destruct (Ht q Hq) as (vq & -> & _).
    rewrite <- Hlen, !firstn_app, Nat.sub_diag, !firstn_all. simpl.
    reflexivity.
Qed.

End Tags.

(** The two points of [Demo.three_hours]. *)
Lemma points_carry_nine_tags_witness :
  let p h v := mkPoint (Iso.mk 2024 3 1 h 0 0 (Some 60%Z))
                 [("value", JFloat (Demo.b64 v))]
                 (single_record_tags "temperature") in
  iter_timeseries_points Demo.three_hours = Ok [p 10%Z "18.5"; p 12%Z "19.0"]
  /\ Forall (fun p => map fst (pt_tags p) = TAG_KEYS)
            [p 10%Z "18.5"; p 12%Z "19.0"].
Proof.
  intros p.
  assert (H : iter_timeseries_points Demo.three_hours
              = Ok [p 10%Z "18.5"; p 12%Z "19.0"]) by reflexivity.
  split; [exact H|].
  eapply Forall_impl;
    [|exact (proj1 (points_carry_nine_tags Demo.three_hours _ H))].
  intros q Hq. exact (proj1 Hq).
Defined.

(** A record that is a string, not an object. *)
Lemma hourly_point_raises_witness :
  hourly_point (JStr "wind") [] (JStr "18.5") = Raise AttributeError.
Proof.
  apply (proj1 (hourly_point_raises (JStr "wind") [] [] AttributeError)).
  discriminate.
Defined.

(** ** More on feature selection and place resolution *)

Section PickMore.
Context {RT : PyRuntime}.

Lemma collect_exact_raises q features : forall exact e,
  collect_exact q features exact = Raise e
  <-> first_failure normalized_name features e.
Proof.
  unfold first_failure, normalized_name.
  induction features as [|f rest IH]; intros exact e; simpl.
  - split; [discriminate|].
    intros (pre & x & post & H & _). now destruct pre.
  - destruct (feature_name f) as [name|e1] eqn:Hn; simpl.
    + destruct (normalize_query_value name) as [n|e2] eqn:Hv; simpl.
      * rewrite IH. split.
        -- intros (pre & x & post & -> & Hpre & Hx).
           exists (f :: pre), x, post. split; [reflexivity|].
           split; [|exact Hx]. constructor; [|exact Hpre].
           exists n. rewrite Hn. exact Hv.
        -- intros (pre & x & post & E & Hpre & Hx).
           destruct pre as [|y pre]; simpl in E; injection E as <- ->.
           ++ rewrite Hn in Hx. simpl in Hx. congruence.
           ++ inversion Hpre; subst. exists pre, x, post. auto.
      * split.
        -- intros [= ->]. exists [], f, rest.
           split; [reflexivity|]. split; [constructor|].
           rewrite Hn. exact Hv.
        -- intros (pre & x & post & E & Hpre & Hx).
           destruct pre as [|y pre]; simpl in E; injection E as <- ->.
           ++ rewrite Hn in Hx. simpl in Hx. congruence.
           ++ inversion Hpre as [|? ? [r Hr] _]; subst.
              rewrite Hn in Hr. simpl in Hr. congruence.
    + split.
      * intros [= ->]. exists [], f, rest.
        split; [reflexivity|]. split; [constructor|].
        now rewrite Hn.
      * intros (pre & x & post & E & Hpre & Hx).
        destruct pre as [|y pre]; simpl in E; injection E as <- ->.
        -- rewrite Hn in Hx. simpl in Hx. congruence.
        -- inversion Hpre as [|? ? [r Hr] _]; subst.
           rewrite Hn in Hr. discriminate.
Qed.

(** X14. [pick_best_feature] reads the name of every feature, also of
    those after an exact match: it raises exactly when the name of some
    feature cannot be read, with the exception of the first such
    feature.  When it returns, the feature selected is one of the list,
    and nothing is selected from the empty list only. *)
Theorem pick_best_feature_reads_every_name q features :
  (forall e, pick_best_feature q features = Raise e
             <-> first_failure normalized_name features e)
  /\ (forall best,
        pick_best_feature q features = Ok best ->
        match best with
        | Some b => In b features
        | None => features = []
        end).
Proof.
  split.
  - intros e. rewrite <- (collect_exact_raises (normalize_query q) features []).
    unfold pick_best_feature.
    destruct (collect_exact (normalize_query q) features []) as [[|x l]|e1];
      simpl; split; congruence.
  - intros [b|] H.
    + eapply pick_best_feature_in; eassumption.
    + eapply pick_best_feature_none; eassumption.
Qed.

End PickMore.

Section ResolveMore.
Context {RT : PyRuntime}.
Variable net : collaborators.
Variable cfg : config.

Lemma dict_get_some_in {V} k (m : dict V) v :
  dict_get k m = Some v -> In k (map fst m).
Proof.
  induction m as [|[k' v'] m IH]; simpl; [discriminate|].
  destruct (String.eqb_spec k k') as [->|Hne]; [now left|].
  intros H. right. now apply IH.
Qed.

Lemma loop_event_quiet types queries out ev :
  loop_event cfg types queries out ev -> quiet ev.
Proof. destruct ev; simpl; tauto. Qed.

(** The keys after one query: those before, and the key of the query
    after them when it is new. *)
Lemma resolve_one_keys types q out w out' w' :
  resolve_one net cfg types q out w = (Ok out', w') ->
  In (normalize_query q) (map fst out')
  /\ (map fst out' = map fst out
      \/ map fst out' = map fst out ++ [normalize_query q]).
Proof.
  intros H.
  destruct (cached_id out (normalize_query q)) as [[|]|e0] eqn:Hc.
  - rewrite resolve_one_hit in H by exact Hc. injection H as <- <-.
    apply cached_id_true in Hc as (entry & Hg & _).
    split; [eapply dict_get_some_in; eassumption|now left].
  - assert (Hm : cached_id out (normalize_query q) <> Ok true) by congruence.
    destruct (resolve_one_miss net cfg types q out w _ _ Hm H)
      as (evs & _ & _ & Hw).
    destruct (Hw _ eq_refl) as (e & _ & -> & _).
    split.
    + eapply dict_get_some_in. apply dict_get_set_same.
    + rewrite dict_set_keys.
      destruct (dict_get (normalize_query q) out); auto.
  - unfold resolve_one, bind, lift in H. rewrite Hc in H. discriminate.
Qed.

Lemma resolve_loop_keys types queries : forall out w out' w',
  resolve_loop net cfg types queries out w = (Ok out', w') ->
  (exists new,
      map fst out' = map fst out ++ new
      /\ forall k, In k new ->
                   exists q, In q queries /\ k = normalize_query q)
  /\ forall q, In q queries -> In (normalize_query q) (map fst out').
Proof.
  induction queries as [|q rest IH]; intros out w out' w' H.
  - injection H as <- <-. split; [|intros ? []].
    exists []. rewrite app_nil_r. split; [reflexivity|intros ? []].
  - simpl in H. unfold bind in H.
    destruct (resolve_one net cfg types q out w) as [[out1|e] w1] eqn:H1;
      [|discriminate].
    destruct (resolve_one_keys types q out w _ _ H1) as [Hin Hkeys].
    destruct (IH _ _ _ _ H) as [(new & Hnew & Hfrom) Hall].
    split.
    + destruct Hkeys as [E|E]; rewrite E in Hnew.
      * exists new. split; [exact Hnew|].
        intros k Hk. destruct (Hfrom k Hk) as (q' & Hq' & ->).
        exists q'. split; [now right|reflexivity].
      * exists (normalize_query q :: new).
        split; [now rewrite Hnew, <- app_assoc|].
        intros k [<-|Hk]; [exists q; split; [now left|reflexivity]|].
        destruct (Hfrom k Hk) as (q' & Hq' & ->).
        exists q'. split; [now right|reflexivity].
    + intros q' [<-|Hq']; [|now apply Hall].
      rewrite Hnew. apply in_or_app. now left.
Qed.

(** X15. With a cache file that is absent or holds an object, a
    resolution that returns has kept every key of the cache in its place,
    appended new keys that are normalized queries, has an entry for every
    query, and has saved the mapping as its last effect, the only write;
    a resolution that raises has written nothing, so that what was
    resolved before the failure is not cached. *)
Theorem resolution_covers_every_query queries types w cache :
  load_json (PLACES_PATH cfg) (JObj []) w = (Ok (JObj cache), w) ->
  match resolve_place_ids net cfg queries types w with
  | (Ok out, w') =>
      (exists new,
          map fst out = map fst cache ++ new
          /\ forall k, In k new ->
                       exists q, In q queries /\ k = normalize_query q)
      /\ (forall q, In q queries -> In (normalize_query q) (map fst out))
      /\ files w' = dict_set (PLACES_PATH cfg) (JObj out) (files w)
      /\ exists evs,
           trace w'
           = trace w ++ evs ++ [EvSaveJson (PLACES_PATH cfg) (JObj out)]
           /\ Forall quiet evs
  | (Raise _, w') =>
      exists evs, w' = log w evs /\ Forall quiet evs
  end.
Proof.
  intros Hload. unfold resolve_place_ids, bind. rewrite Hload.
  unfold lift. simpl.
  destruct (resolve_loop net cfg types queries cache w)
    as [[out|e] w1] eqn:Hloop;
    destruct (resolve_loop_inv net cfg types queries cache w _ _ Hloop)
      as (evs & -> & Hev & _).
  - destruct (resolve_loop_keys types queries _ _ _ _ Hloop) as [Hnew Hall].
    unfold save_json, ret. simpl.
    split; [exact Hnew|]. split; [exact Hall|]. split; [reflexivity|].
    exists evs. rewrite app_assoc. split; [reflexivity|].
    eapply Forall_impl; [|exact Hev]. intros ev. apply loop_event_quiet.
  - exists evs. split; [reflexivity|].
    eapply Forall_impl; [|exact Hev]. intros ev. apply loop_event_quiet.
Qed.

Lemma record_resolved_entry q key best out w out' w' :
  record_resolved q key best out w = (Ok out', w') ->
  exists place_id name municipality province type,
    out' = dict_set key
             (resolved_entry q place_id name municipality province type) out.
Proof.
  unfold record_resolved, bind, lift.
  repeat match goal with
  | |- context [match ?x with Ok _ => _ | Raise _ => _ end] =>
      destruct x; [|discriminate]
  end.
  unfold print, sleep, emit, ret. intros [= <- _]. eauto 6.
Qed.

(** X16. A query whose key has no entry, or an entry whose [id] is
    falsy, is searched again: with an API key, the first effect of the
    loop body is the search request for the query as it was typed, and
    when the body returns, the entry under the key has been replaced by
    a written entry that records that query. *)
Theorem unusable_entry_is_searched_again types q out w :
  cached_id out (normalize_query q) = Ok false ->
  env_set (API_KEY cfg) = true ->
  match resolve_one net cfg types q out w with
  | (r, w') =>
      (exists evs,
          w' = log w (EvHttpGet (find_places_request cfg q types) :: evs))
      /\ forall out', r = Ok out' ->
           exists e, written_entry e
                     /\ out' = dict_set (normalize_query q) e out
                     /\ py_get e "query" = Ok (JStr q)
  end.
Proof.
  intros Hc Hk.
  destruct (resolve_one net cfg types q out w) as [r w'] eqn:H.
  unfold resolve_one, bind, lift in H. rewrite Hc in H.
  set (get := EvHttpGet (find_places_request cfg q types)) in *.
  assert (Hfail : forall e : exn,
            (exists evs, log w [get] = log w (get :: evs))
            /\ forall out', @Raise (dict json) e = Ok out' ->
                 exists e0, written_entry e0
                            /\ out' = dict_set (normalize_query q) e0 out
                            /\ py_get e0 "query" = Ok (JStr q))
    by (intros e; split; [now exists []|discriminate]).
  destruct (find_places net cfg q types w) as [[data|e] w1] eqn:Hfp.
  - apply find_places_ok in Hfp as [_ ->]. fold get in H. fold get.
    destruct (get_or data "features" (JArr [])) as [features|e];
      [|injection H as <- <-; apply Hfail].
    destruct (py_iter features) as [fl|e];
      [|injection H as <- <-; apply Hfail].
    destruct (pick_best_feature q fl) as [best|e];
      [|injection H as <- <-; apply Hfail].
    assert (Hun : record_unresolved q (normalize_query q) out (log w [get])
                  = (r, w') ->
                  (exists evs, w' = log w (get :: evs))
                  /\ forall out', r = Ok out' ->
                       exists e, written_entry e
                                 /\ out' = dict_set (normalize_query q) e out
                                 /\ py_get e "query" = Ok (JStr q)).
    { rewrite record_unresolved_run. intros [= <- <-]. rewrite log_log.
      split; [eexists; reflexivity|].
      intros out' [= <-]. exists (unresolved_entry q).
      split; [constructor|split; reflexivity]. }
    destruct best as [b|]; [destruct (truthy b)|]; try (apply Hun; exact H).
    split.
    + apply record_resolved_run in H
        as [[-> _] | (pid & n & m & p & t & line & _ & ->)].
      * now exists [].
      * rewrite log_log. eexists. reflexivity.
    + intros out' ->.
      apply record_resolved_entry in H as (pid & n & m & p & t & ->).
      eexists. split; [constructor|split; reflexivity].
  - injection H as <- <-.
    unfold find_places, bind, requests_get, raise in Hfp.
    rewrite Hk in Hfp. simpl in Hfp. fold get in Hfp.
    destruct (http_get net (trace w) _) as [|d].
    + injection Hfp as _ <-. apply Hfail.
    + destruct (is_dict_with d "exception"); injection Hfp as _ <-;
        apply Hfail.
Qed.

End ResolveMore.

(** The cache of the claim's example, with one query that it answers and
    one that it does not. *)
Lemma resolution_covers_every_query_witness :
  let net := Demo.service Demo.places_response in
  let w := Demo.world_with_cache "15078" in
  let cache := [("vigo", Demo.vigo_entry "15078")] in
  load_json (PLACES_PATH Demo.cfg) (JObj []) w = (Ok (JObj cache), w)
  /\ match resolve_place_ids net Demo.cfg [" Vigo "; "Lugo"] "locality" w
     with
     | (Ok out, w') =>
         forall q, In q [" Vigo "; "Lugo"] ->
                   In (normalize_query q) (map fst out)
     | (Raise _, w') => exists evs, w' = log w evs /\ Forall quiet evs
     end.
Proof.
  intros net w cache.
  split; [reflexivity|].
  pose proof (resolution_covers_every_query net Demo.cfg [" Vigo "; "Lugo"]
                "locality" w cache eq_refl) as H.
  destruct (resolve_place_ids net Demo.cfg [" Vigo "; "Lugo"] "locality" w)
    as [[out|e] w'].
  - exact (proj1 (proj2 H)).
  - exact H.
Defined.

(** A cached entry whose identifier is empty. *)
Lemma unusable_entry_is_searched_again_witness :
  let net := Demo.service Demo.places_response in
  let out := [("vigo", Demo.vigo_entry "")] in
  cached_id out (normalize_query "Vigo") = Ok false
  /\ env_set (API_KEY Demo.cfg) = true
  /\ exists evs,
       snd (resolve_one net Demo.cfg "locality" "Vigo" out Demo.empty_world)
       = log Demo.empty_world
           (EvHttpGet (find_places_request Demo.cfg "Vigo" "locality")
            :: evs).
Proof.
  intros net out.
  split; [reflexivity|]. split; [reflexivity|].
  pose proof (unusable_entry_is_searched_again net Demo.cfg "locality" "Vigo"
                out Demo.empty_world eq_refl eq_refl) as H.
  destruct (resolve_one net Demo.cfg "locality" "Vigo" out Demo.empty_world)
    as [r w'].
  exact (proj1 H).
Defined.

(** ** The poller *)

Section PollerFacts.
Context {RT : PyRuntime}.
Variable net : Poller.services.
Variable cfg : Poller.settings.
Variable LOCATIONS : list Poller.location.

Import Poller.

Lemma emits_ret Q {A} (a : A) : emits Q (ret a).
Proof. intros t. exists []. simpl. now rewrite app_nil_r. Qed.

Lemma emits_fail Q {A} e : emits Q (@fail _ A e).
Proof. intros t. exists []. simpl. now rewrite app_nil_r. Qed.

Lemma emits_of_result Q {A} (r : result A) : emits Q (of_result r).
Proof. destruct r; [apply emits_ret|apply emits_fail]. Qed.

Lemma emits_of_outcome Q {A} (r : outcome A) : emits Q (of_outcome r).
Proof. intros t. exists []. simpl. now rewrite app_nil_r. Qed.

Lemma emits_emit (Q : event -> Prop) ev : Q ev -> emits Q (emit ev).
Proof. intros H t. exists [ev]. simpl. auto. Qed.

Lemma emits_bind Q {A B} (m : P A) (k : A -> P B) :
  emits Q m -> (forall a, emits Q (k a)) -> emits Q (bind m k).
Proof.
  intros Hm Hk t. unfold bind.
  destruct (Hm t) as (evs & E & Hq).
  destruct (m t) as [[a|e] t1]; simpl in E; subst t1.
  - destruct (Hk a (t ++ evs)) as (evs' & E' & Hq').
    exists (evs ++ evs'). rewrite E', app_assoc.
    split; [reflexivity|now apply Forall_app].
  - now exists evs.
Qed.

Lemma emits_try_except Q {A} (body : P A) handles handler :
  emits Q body -> (forall e, emits Q (handler e)) ->
  emits Q (try_except body handles handler).
Proof.
  intros Hb Hh t. unfold try_except.
  destruct (Hb t) as (evs & E & Hq).
  destruct (body t) as [[a|e] t1]; simpl in E; subst t1.
  - now exists evs.
  - destruct (handles e); [|now exists evs].
    destruct (Hh e (t ++ evs)) as (evs' & E' & Hq').
    exists (evs ++ evs'). rewrite E', app_assoc.
    split; [reflexivity|now apply Forall_app].
Qed.

Lemma emits_write_point (Q : event -> Prop) p :
  (forall b o refused, Q (EvWrite b o p refused)) ->
  emits Q (write_point net cfg p).
Proof.
  intros H t. unfold write_point.
  exists [EvWrite (INFLUX_BUCKET cfg) (INFLUX_ORG cfg) p
            (store net t (INFLUX_BUCKET cfg) (INFLUX_ORG cfg) p)].
  split; [|constructor; [apply H|constructor]].
  now destruct (store net t _ _ p).
Qed.

Create HintDb poller.
#[local] Hint Resolve emits_ret emits_fail emits_of_result emits_of_outcome
  : poller.

Lemma write_value_emits loc_name var_name val written :
  emits value_event (write_value net cfg loc_name var_name val written).
Proof.
  unfold write_value.
  apply emits_bind; [auto with poller|intros ts].
  apply emits_bind; [auto with poller|intros v].
  destruct (negb (is_not_none ts) || negb (is_not_none v));
    [auto with poller|].
  apply emits_try_except.
  - apply emits_bind; [auto with poller|intros x].
    apply emits_bind; [|auto with poller].
    apply emits_write_point. simpl. auto.
  - intros e. apply emits_bind; [|auto with poller].
    apply emits_emit. exact I.
Qed.

Lemma values_loop_emits loc_name var_name values : forall written,
  emits value_event (values_loop net cfg loc_name var_name values written).
Proof.
  induction values as [|val rest IH]; intros written; simpl.
  - auto with poller.
  - apply emits_bind; [apply write_value_emits|exact IH].
Qed.

Lemma variables_loop_emits loc_name variables : forall written,
  emits value_event (variables_loop net cfg loc_name variables written).
Proof.
  induction variables as [|var rest IH]; intros written; simpl.
  - auto with poller.
  - apply emits_bind; [|exact IH]. unfold write_variable.
    do 3 (apply emits_bind; [solve [auto with poller]|intros ?]).
    apply values_loop_emits.
Qed.

Lemma days_loop_emits loc_name days : forall written,
  emits value_event (days_loop net cfg loc_name days written).
Proof.
  induction days as [|day rest IH]; intros written; simpl.
  - auto with poller.
  - apply emits_bind; [|exact IH]. unfold write_day.
    do 2 (apply emits_bind; [solve [auto with poller]|intros ?]).
    apply variables_loop_emits.
Qed.

Lemma accepted_writes_app evs evs' :
  accepted_writes (evs ++ evs')
  = (accepted_writes evs + accepted_writes evs')%Z.
Proof.
  induction evs as [|ev evs IH]; [reflexivity|].
  destruct ev as [|b o p [f|]| |]; cbn [accepted_writes app];
    rewrite ?IH; lia.
Qed.

(** What the loop body does with one hourly value. *)
Lemma write_value_cases loc_name var_name m written t :
  let ts := lookup "timeInstant" m in
  let v := lookup "value" m in
  let p x := mkWeatherPoint "weather" loc_name var_name x ts in
  let write x refused :=
    EvWrite (INFLUX_BUCKET cfg) (INFLUX_ORG cfg) (p x) refused in
  write_value net cfg loc_name var_name (JObj m) written t
  = if negb (is_not_none ts) || negb (is_not_none v) then (Done written, t)
    else
      match py_float v with
      | Raise e =>
          if value_or_type_error (Py e)
          then (Done written, t ++ [EvPrint (NotWritten var_name v (Py e))])
          else (Failed (Py e), t)
      | Ok x =>
          match store net t (INFLUX_BUCKET cfg) (INFLUX_ORG cfg) (p x) with
          | None => (Done (written + 1)%Z, t ++ [write x None])
          | Some e =>
              if value_or_type_error e
              then (Done written,
                    t ++ [write x (Some e);
                          EvPrint (NotWritten var_name v e)])
              else (Failed e, t ++ [write x (Some e)])
          end
      end.
Proof.
  intros ts v p write. unfold write_value, bind, of_result.
  rewrite !py_get_obj. cbn [ret]. fold ts v.
  destruct (negb (is_not_none ts) || negb (is_not_none v)); [reflexivity|].
  unfold try_except, bind, of_result.
  destruct (py_float v) as [x|e]; cbn [ret fail].
  - unfold write_point. fold (p x).
    destruct (store net t (INFLUX_BUCKET cfg) (INFLUX_ORG cfg) (p x))
      as [e|]; [|reflexivity].
    destruct (value_or_type_error e); [|reflexivity].
    unfold print, emit, ret. now rewrite <- app_assoc.
  - destruct (value_or_type_error (Py e)); reflexivity.
Qed.

Lemma write_value_count loc_name var_name val written t written' t' :
  write_value net cfg loc_name var_name val written t = (Done written', t') ->
  exists evs, t' = t ++ evs
              /\ written' = (written + accepted_writes evs)%Z.
Proof.
  destruct val as [| | | | | |m];
    try (unfold write_value, bind, of_result; simpl; discriminate).
  rewrite write_value_cases.
  destruct (negb _ || negb _).
  { intros [= <- <-]. exists []. rewrite app_nil_r. simpl. split; [auto|lia]. }
  destruct (py_float (lookup "value" m)) as [x|e].
  - destruct (store net t _ _ _) as [e|].
    + destruct (value_or_type_error e); [|discriminate].
      intros [= <- <-]. eexists. split; [reflexivity|]. simpl. lia.
    + intros [= <- <-]. eexists. split; [reflexivity|]. simpl. lia.
  - destruct (value_or_type_error (Py e)); [|discriminate].
    intros [= <- <-]. eexists. split; [reflexivity|]. simpl. lia.
Qed.

Ltac done_step H :=
  match type of H with
  | bind ?m _ ?t = (Done _, _) =>
      let a := fresh "a" in
      let t1 := fresh "t" in
      unfold bind at 1 in H;
      destruct (m t) as [[a|] t1] eqn:?; [|discriminate H]
  end.

Lemma of_result_done {A} (r : result A) t a t' :
  of_result r t = (Done a, t') -> r = Ok a /\ t' = t.
Proof. destruct r; simpl; unfold ret, fail; now intros [= <- <-]. Qed.

Lemma values_loop_count loc_name var_name values :
  forall written t written' t',
  values_loop net cfg loc_name var_name values written t
  = (Done written', t') ->
  exists evs, t' = t ++ evs
              /\ written' = (written + accepted_writes evs)%Z.
Proof.
  induction values as [|val rest IH]; intros written t written' t' H.
  - injection H as <- <-. exists []. rewrite app_nil_r. simpl.
    split; [auto|lia].
  - simpl in H. done_step H.
    match goal with
    | E : write_value _ _ _ _ _ _ _ = _ |- _ =>
        apply write_value_count in E as (evs1 & -> & ->)
    end.
    apply IH in H as (evs2 & -> & ->).
    exists (evs1 ++ evs2). rewrite app_assoc, accepted_writes_app.
    split; [reflexivity|lia].
Qed.

Lemma variables_loop_count loc_name variables :
  forall written t written' t',
  variables_loop net cfg loc_name variables written t = (Done written', t') ->
  exists evs, t' = t ++ evs
              /\ written' = (written + accepted_writes evs)%Z.
Proof.
  induction variables as [|var rest IH]; intros written t written' t' H.
  - injection H as <- <-. exists []. rewrite app_nil_r. simpl.
    split; [auto|lia].
  - simpl in H. done_step H.
    match goal with
    | E : write_variable _ _ _ _ _ _ = _ |- _ =>
        unfold write_variable in E; do 3 done_step E;
        repeat match goal with
        | E' : of_result _ _ = (Done _, _) |- _ =>
            apply of_result_done in E' as [? ->]
        end;
        apply values_loop_count in E as (evs1 & -> & ->)
    end.
    apply IH in H as (evs2 & -> & ->).
    exists (evs1 ++ evs2). rewrite app_assoc, accepted_writes_app.
    split; [reflexivity|lia].
Qed.

Lemma days_loop_count loc_name days :
  forall written t written' t',
  days_loop net cfg loc_name days written t = (Done written', t') ->
  exists evs, t' = t ++ evs
              /\ written' = (written + accepted_writes evs)%Z.
Proof.
  induction days as [|day rest IH]; intros written t written' t' H.
  - injection H as <- <-. exists []. rewrite app_nil_r. simpl.
    split; [auto|lia].
  - simpl in H. done_step H.
    match goal with
    | E : write_day _ _ _ _ _ _ = _ |- _ =>
        unfold write_day in E; do 2 done_step E;
        repeat match goal with
        | E' : of_result _ _ = (Done _, _) |- _ =>
            apply of_result_done in E' as [? ->]
        end;
        apply variables_loop_count in E as (evs1 & -> & ->)
    end.
    apply IH in H as (evs2 & -> & ->).
    exists (evs1 ++ evs2). rewrite app_assoc, accepted_writes_app.
    split; [reflexivity|lia].
Qed.

Lemma emits_weaken (Q Q' : event -> Prop) {A} (m : P A) :
  (forall ev, Q ev -> Q' ev) -> emits Q m -> emits Q' m.
Proof.
  intros HQ Hm t. destruct (Hm t) as (evs & E & Hq).
  exists evs. split; [exact E|]. eapply Forall_impl; eauto.
Qed.

Lemma value_event_not_get ev : value_event ev -> is_get ev = false.
Proof. destruct ev; simpl; tauto. Qed.

Lemma requests_of_app evs evs' :
  requests_of (evs ++ evs') = requests_of evs ++ requests_of evs'.
Proof.
  induction evs as [|ev evs IH]; [reflexivity|].
  destruct ev; simpl; now rewrite IH.
Qed.

Lemma requests_of_none evs :
  Forall (fun ev => is_get ev = false) evs -> requests_of evs = [].
Proof.
  induction 1 as [|ev evs Hev _ IH]; [reflexivity|].
  destruct ev; simpl in *; [discriminate|exact IH..].
Qed.

Lemma write_to_influx_emits data loc_name :
  emits (fun ev => is_get ev = false)
        (write_to_influx net cfg data loc_name).
Proof.
  unfold write_to_influx.
  apply emits_bind; [auto with poller|intros features].
  destruct (negb (truthy features)); [now apply emits_emit|].
  do 4 (apply emits_bind; [solve [auto with poller]|intros ?]).
  apply emits_bind; [|intros written; now apply emits_emit].
  eapply emits_weaken; [exact value_event_not_get|apply days_loop_emits].
Qed.

(** X17. When the writer of the poller returns, either [features] was
    missing or falsy and the only effect is the warning, or the last
    effect is the summary, whose count is the number of writes that the
    store accepted in this call, and everything before it is a write or
    the report of a value that was not written. *)
Theorem poller_summary_counts_accepted_writes data loc_name t t' :
  write_to_influx net cfg data loc_name t = (Done tt, t') ->
  t' = t ++ [EvPrint (NoData loc_name)]
  \/ exists evs,
       t' = t ++ evs
            ++ [EvPrint (Written loc_name (accepted_writes evs))]
       /\ Forall value_event evs.
Proof.
  unfold write_to_influx. intros H. done_step H.
  match goal with
  | E : of_result _ _ = _ |- _ => apply of_result_done in E as [_ ->]
  end.
  destruct (negb (truthy a)).
  { injection H as <-. now left. }
  right. do 5 done_step H.
  repeat match goal with
  | E : of_result _ _ = (Done _, _) |- _ =>
      apply of_result_done in E as [_ ->]
  | E : of_outcome _ _ = (Done _, _) |- _ =>
      unfold of_outcome in E; injection E as _ <-
  end.
  match goal with
  | E : days_loop _ _ _ ?ds _ _ = _ |- _ =>
      destruct (days_loop_emits loc_name ds 0%Z t) as (evs & E' & Hq);
      rewrite E in E'; simpl in E';
      apply days_loop_count in E as (evs1 & -> & ->)
  end.
  apply app_inv_head in E'. subst evs1.
  injection H as <-. exists evs. rewrite <- app_assoc. auto.
Qed.

(** X18. The writer of the poller reads the first feature only: the
    features after it do not matter.  Without the key [features], or
    with a falsy value there, it only warns; a document that is not an
    object raises [AttributeError] with no effect. *)
Theorem poller_reads_first_feature_only m loc_name t :
  (forall first rest,
      dict_get "features" m = Some (JArr (first :: rest)) ->
      write_to_influx net cfg (JObj m) loc_name t
      = write_to_influx net cfg (JObj [("features", JArr [first])])
          loc_name t)
  /\ ((dict_get "features" m = None
       \/ exists v, dict_get "features" m = Some v /\ truthy v = false) ->
      write_to_influx net cfg (JObj m) loc_name t
      = (Done tt, t ++ [EvPrint (NoData loc_name)]))
  /\ (forall data, (forall m', data <> JObj m') ->
                   write_to_influx net cfg data loc_name t
                   = (Failed (Py AttributeError), t)).
Proof.
  split; [|split].
  - intros first rest H. unfold write_to_influx, bind, get_default.
    rewrite H. reflexivity.
  - intros [H|(v & H & Hv)]; unfold write_to_influx, bind, get_default;
      rewrite H; simpl; [reflexivity|].
    now rewrite Hv.
  - intros data Hd. destruct data; try reflexivity. now destruct (Hd m0).
Qed.

(** X19. What happens to one hourly value of the poller.  Without a
    timestamp or without a value it is passed over with no effect.
    Otherwise: a value that [float] rejects with [ValueError] or
    [TypeError] is reported and not counted, and the loop goes on; any
    other exception of [float] leaves the loops; a number is written,
    and counted when the store accepts it; a write that fails with
    [ValueError] or [TypeError] is reported and not counted, and any
    other failure of the write leaves the loops. *)
Theorem poller_value_written_reported_or_passed loc_name var_name m written
  t :
  let ts := lookup "timeInstant" m in
  let v := lookup "value" m in
  let run := write_value net cfg loc_name var_name (JObj m) written t in
  let point x := mkWeatherPoint "weather" loc_name var_name x ts in
  let write x refused :=
    EvWrite (INFLUX_BUCKET cfg) (INFLUX_ORG cfg) (point x) refused in
  let outcome_of x :=
    store net t (INFLUX_BUCKET cfg) (INFLUX_ORG cfg) (point x) in
  (ts = JNull \/ v = JNull -> run = (Done written, t))
  /\ (ts <> JNull -> v <> JNull ->
      (forall e, py_float v = Raise e ->
                 value_or_type_error (Py e) = true ->
                 run = (Done written,
                        t ++ [EvPrint (NotWritten var_name v (Py e))]))
      /\ (forall e, py_float v = Raise e ->
                    value_or_type_error (Py e) = false ->
                    run = (Failed (Py e), t))
      /\ (forall x, py_float v = Ok x -> outcome_of x = None ->
                    run = (Done (written + 1)%Z, t ++ [write x None]))
      /\ (forall x e, py_float v = Ok x -> outcome_of x = Some e ->
                      value_or_type_error e = true ->
                      run = (Done written,
                             t ++ [write x (Some e);
                                   EvPrint (NotWritten var_name v e)]))
      /\ (forall x e, py_float v = Ok x -> outcome_of x = Some e ->
                      value_or_type_error e = false ->
                      run = (Failed e, t ++ [write x (Some e)]))).
Proof.
  intros ts v run point write outcome_of.
  assert (Hnone : forall x, is_not_none x = false <-> x = JNull)
    by (intros []; simpl; split; congruence).
  subst run. rewrite write_value_cases. cbv zeta.
  subst ts v point write outcome_of. cbv beta. split.
  - intros [H|H]; apply Hnone in H; rewrite H;
      [reflexivity|now rewrite Bool.orb_true_r].
  - intros Hts Hv.
    destruct (is_not_none (lookup "timeInstant" m)) eqn:E1;
      [|now apply Hnone in E1].
    destruct (is_not_none (lookup "value" m)) eqn:E2;
      [|now apply Hnone in E2].
    cbn [negb orb].
    repeat split.
    + intros e -> ->. reflexivity.
    + intros e -> ->. reflexivity.
    + intros x -> ->. reflexivity.
    + intros x e -> -> ->. reflexivity.
    + intros x e -> -> ->. reflexivity.
Qed.

Lemma poll_location_returns loc t :
  exists evs,
    poll_location net cfg loc t
    = (Done tt, t ++ EvGet (weather_request cfg loc) :: evs)
    /\ requests_of evs = [].
Proof.
  unfold poll_location, bind, fetch_weather.
  assert (Hprint : forall l evs1,
            requests_of evs1 = [] ->
            exists evs,
              print l ((t ++ [EvGet (weather_request cfg loc)]) ++ evs1)
              = (Done tt, t ++ EvGet (weather_request cfg loc) :: evs)
              /\ requests_of evs = []).
  { intros l evs1 H. exists (evs1 ++ [EvPrint l]).
    unfold print, emit. rewrite <- !app_assoc. simpl.
    split; [reflexivity|]. rewrite requests_of_app, H. reflexivity. }
  destruct (fetch net t (weather_request cfg loc)) as [data|e].
  - destruct (write_to_influx_emits data (name loc)
                (t ++ [EvGet (weather_request cfg loc)]))
      as (evs & E & Hq).
    apply requests_of_none in Hq.
    destruct (write_to_influx net cfg data (name loc) _) as [[[]|e] t1];
      simpl in E; subst t1.
    + exists evs. rewrite <- app_assoc. auto.
    + destruct e as [s|k| |[]]; now apply Hprint.
  - rewrite <- (app_nil_r (t ++ [EvGet (weather_request cfg loc)])).
    destruct e as [s|k| |[]]; now apply Hprint.
Qed.

(** X20. No failure at one place stops the poller: whatever the service
    and the store do, the body of the loop over the places returns; its
    first effect is the request for that place, and it makes no other
    request.  A failed request is reported by the handler of its class:
    the status line for [HTTPError], the network line for another
    exception of [requests], the last line for anything else. *)
Theorem poller_failure_is_contained loc t :
  (exists evs,
      poll_location net cfg loc t
      = (Done tt, t ++ EvGet (weather_request cfg loc) :: evs)
      /\ requests_of evs = [])
  /\ forall e,
       fetch net t (weather_request cfg loc) = FetchFailed e ->
       poll_location net cfg loc t
       = (Done tt,
          t ++ [EvGet (weather_request cfg loc);
                EvPrint
                  match e with
                  | HTTPError status_code =>
                      HttpFailure (name loc) status_code e
                  | Py RequestException => NetworkFailure (name loc) e
                  | _ => Unexpected (name loc) e
                  end]).
Proof.
  split; [apply poll_location_returns|].
  intros e He. unfold poll_location, bind, fetch_weather. rewrite He.
  unfold print, emit.
  destruct e as [s|k| |[]]; now rewrite <- app_assoc.
Qed.

Lemma locations_loop_requests locs : forall t,
  exists evs,
    locations_loop net cfg locs t = (Done tt, t ++ evs)
    /\ requests_of evs = map (weather_request cfg) locs.
Proof.
  induction locs as [|loc rest IH]; intros t.
  - exists []. simpl. unfold ret. now rewrite app_nil_r.
  - simpl. unfold bind.
    destruct (poll_location_returns loc t) as (evs & -> & Hr).
    destruct (IH (t ++ EvGet (weather_request cfg loc) :: evs))
      as (evs' & -> & Hr').
    exists (EvGet (weather_request cfg loc) :: evs ++ evs').
    rewrite <- app_assoc. split; [reflexivity|].
    simpl. now rewrite requests_of_app, Hr, Hr'.
Qed.

Lemma cycle_requests t :
  exists evs,
    cycle net cfg LOCATIONS t
    = (Done tt,
       t ++ EvPrint (Polling (now net t)) :: evs
         ++ [EvPrint (Next POLL_INTERVAL); EvSleep POLL_INTERVAL])
    /\ requests_of evs = map (weather_request cfg) LOCATIONS.
Proof.
  unfold cycle, bind, print, sleep, emit.
  destruct (locations_loop_requests LOCATIONS
              (t ++ [EvPrint (Polling (now net t))])) as (evs & -> & Hr).
  exists evs. split; [|exact Hr].
  rewrite <- !app_assoc. reflexivity.
Qed.

(** X21. The loop of the poller goes on for ever: for every [n], its
    first [n] turns all complete, whatever failed in them, and in each of
    them every place is requested once, in the order of [LOCATIONS];
    each turn starts with the time line and ends with the announcement
    of the next one and a pause of ten minutes. *)
Theorem poller_requests_every_place_every_turn n t :
  (exists evs,
      main net cfg LOCATIONS n t = (Done tt, t ++ evs)
      /\ requests_of evs
         = List.concat (repeat (map (weather_request cfg) LOCATIONS) n))
  /\ exists evs,
       cycle net cfg LOCATIONS t
       = (Done tt,
          t ++ EvPrint (Polling (now net t)) :: evs
            ++ [EvPrint (Next 600); EvSleep 600])
       /\ requests_of evs = map (weather_request cfg) LOCATIONS.
Proof.
  split; [|apply cycle_requests].
  assert (Hcycles : forall n t,
            exists evs,
              cycles net cfg LOCATIONS n t = (Done tt, t ++ evs)
              /\ requests_of evs
                 = List.concat
                     (repeat (map (weather_request cfg) LOCATIONS) n)).
  { clear n t. induction n as [|n IH]; intros t.
    - exists []. simpl. unfold ret. now rewrite app_nil_r.
    - simpl. unfold bind.
      destruct (cycle_requests t) as (evs & -> & Hr).
      match goal with
      | |- context [cycles _ _ _ n ?t1] =>
          destruct (IH t1) as (evs' & -> & Hr')
      end.
      eexists. rewrite <- app_assoc. split; [reflexivity|].
      rewrite requests_of_app. simpl. rewrite requests_of_app, Hr, Hr'.
      simpl. now rewrite app_nil_r. }
  unfold main, bind, print, emit.
  destruct (Hcycles n (t ++ [EvPrint (Started POLL_INTERVAL
                                        (map name LOCATIONS))]))
    as (evs & -> & Hr).
  eexists. rewrite <- app_assoc. split; [reflexivity|]. exact Hr.
Qed.

End PollerFacts.

(** *** A failed search *)

Section SearchFails.
Context {RT : PyRuntime}.
Variable net : collaborators.
Variable cfg : config.

Lemma resolve_loop_after_hits types hits q rest out w :
  Forall (fun q' => cached_id out (normalize_query q') = Ok true) hits ->
  resolve_loop net cfg types (hits ++ q :: rest) out w
  = match resolve_one net cfg types q out w with
    | (Ok out', w') => resolve_loop net cfg types rest out' w'
    | (Raise e, w') => (Raise e, w')
    end.
Proof.
  induction 1 as [|q' hits Hq _ IH]; simpl; unfold bind.
  - reflexivity.
  - rewrite resolve_one_hit by exact Hq. exact IH.
Qed.

(** X22. A search that fails aborts the resolution.  Let the cache file
    be absent or hold an object, let the queries before [q] be answered
    by the cache and [q] not, and let the API key be set.  When the
    service answers the search for [q] with an object that has the key
    ["exception"], [resolve_place_ids] raises [RuntimeError] with the
    text of that value; when the request itself fails, it raises the
    exception of [requests].  In both cases the only effect is that
    request: nothing is printed and the cache file is not written. *)
Theorem failed_search_aborts_resolution types hits q rest w cache :
  load_json (PLACES_PATH cfg) (JObj []) w = (Ok (JObj cache), w) ->
  Forall (fun q' => cached_id cache (normalize_query q') = Ok true) hits ->
  cached_id cache (normalize_query q) = Ok false ->
  env_set (API_KEY cfg) = true ->
  let get := EvHttpGet (find_places_request cfg q types) in
  let answer := http_get net (trace w) (find_places_request cfg q types) in
  (forall m e,
      answer = HttpJson (JObj m) -> dict_get "exception" m = Some e ->
      resolve_place_ids net cfg (hits ++ q :: rest) types w
      = (Raise (RuntimeError ("Error findPlaces: " ++ py_str e)),
         log w [get]))
  /\ (answer = HttpFailed ->
      resolve_place_ids net cfg (hits ++ q :: rest) types w
      = (Raise RequestException, log w [get])).
Proof.
  intros Hload Hhits Hq Hk get answer.
  assert (Hrun : forall e,
            find_places net cfg q types w = (Raise e, log w [get]) ->
            resolve_place_ids net cfg (hits ++ q :: rest) types w
            = (Raise e, log w [get])).
  { intros e Hf. unfold resolve_place_ids, bind. rewrite Hload.
    unfold lift. simpl.
    rewrite (resolve_loop_after_hits types hits q rest cache w Hhits).
    unfold resolve_one, bind, lift. rewrite Hq, Hf. reflexivity. }
  split.
  - intros m e Ha Hx. apply Hrun.
    unfold find_places, bind, requests_get, raise. rewrite Hk. simpl.
    fold answer. rewrite Ha. simpl. unfold dict_mem. now rewrite Hx.
  - intros Ha. apply Hrun.
    unfold find_places, bind, requests_get, raise. rewrite Hk. simpl.
    fold answer. now rewrite Ha.
Qed.

End SearchFails.

(** The cache answers Vigo; the search for Lugo is answered by an
    exception. *)
Lemma failed_search_aborts_resolution_witness :
  let net := Demo.service Demo.failed_response in
  let w := Demo.world_with_cache "15078" in
  let cache := [("vigo", Demo.vigo_entry "15078")] in
  let fault := JObj [("code", JStr "213");
                     ("message", JStr "Invalid API key")] in
  load_json (PLACES_PATH Demo.cfg) (JObj []) w = (Ok (JObj cache), w)
  /\ cached_id cache (normalize_query "Lugo") = Ok false
  /\ resolve_place_ids net Demo.cfg [" Vigo "; "Lugo"; "Ferrol"] "locality" w
     = (Raise (RuntimeError ("Error findPlaces: " ++ py_str fault)),
        log w [EvHttpGet (find_places_request Demo.cfg "Lugo" "locality")]).
Proof.
  intros net w cache fault.
  split; [reflexivity|]. split; [reflexivity|].
  apply (proj1
    (failed_search_aborts_resolution net Demo.cfg "locality" [" Vigo "]
       "Lugo" ["Ferrol"] w cache eq_refl
       (Forall_cons " Vigo " eq_refl (Forall_nil _)) eq_refl eq_refl)
    [("exception", fault)] fault eq_refl eq_refl).
Defined.

(** The three values of the sample: one written, one reported, one
    passed over. *)
Lemma poller_summary_counts_accepted_writes_witness :
  Poller.write_to_influx PollerSample.net PollerSample.cfg
    PollerSample.data "Vigo" []
  = (Poller.Done tt, PollerSample.events)
  /\ (PollerSample.events = [] ++ [Poller.EvPrint (Poller.NoData "Vigo")]
      \/ exists evs,
           PollerSample.events
           = [] ++ evs
             ++ [Poller.EvPrint
                   (Poller.Written "Vigo" (Poller.accepted_writes evs))]
           /\ Forall Poller.value_event evs).
Proof.
  assert (H : Poller.write_to_influx PollerSample.net PollerSample.cfg
                PollerSample.data "Vigo" []
              = (Poller.Done tt, PollerSample.events)) by reflexivity.
  split; [exact H|].
  exact (poller_summary_counts_accepted_writes PollerSample.net
           PollerSample.cfg PollerSample.data "Vigo" []
           PollerSample.events H).
Defined.

(** ** The script *)

Section ScriptFacts.
Context {RT : PyRuntime}.
Variable net : collaborators.
Variable cfg : config.

(** X23. Without an API key and without a cache file the script ends
    with the [RuntimeError] of [find_places], not with the [SystemExit]
    whose text mentions the key; nothing is requested, printed or
    saved. *)
Theorem script_without_api_key w :
  env_set (API_KEY cfg) = false ->
  dict_get (PLACES_PATH cfg) (files w) = None ->
  script net cfg w
  = (Uncaught
       (RuntimeError "Falta METEOSIX_API_KEY en variables de entorno."),
     w).
Proof.
  intros Hk Hfile.
  unfold script, resolve_place_ids, bind, load_json. rewrite Hfile.
  unfold lift, py_dict, PLACE_QUERIES. cbn [resolve_loop].
  unfold bind, resolve_one, bind, lift. cbn [cached_id dict_get].
  unfold find_places. rewrite Hk. reflexivity.
Qed.

Lemma unresolved_only_miss out key :
  unresolved_only out -> cached_id out key = Ok false.
Proof.
  unfold cached_id. induction 1 as [|[k e] out [q Hq] _ IH]; simpl.
  - reflexivity.
  - destruct (String.eqb key k); [|exact IH].
    simpl in Hq. subst e. reflexivity.
Qed.

Lemma unresolved_only_set out key q :
  unresolved_only out ->
  unresolved_only (dict_set key (unresolved_entry q) out).
Proof.
  unfold unresolved_only.
  induction 1 as [|[k e] out He Hout IH]; simpl.
  - constructor; [simpl; eauto|constructor].
  - destruct (String.eqb key k).
    + constructor; [simpl; eauto|exact Hout].
    + constructor; [exact He|exact IH].
Qed.

Lemma unresolved_only_ids out :
  unresolved_only out -> truthy_ids (map snd out) = Ok [].
Proof.
  induction 1 as [|[k e] out [q Hq] _ IH]; simpl; [reflexivity|].
  simpl in Hq. subst e. simpl. now rewrite IH.
Qed.

Section NothingFound.
Variable data : json.
Hypothesis Hkey : env_set (API_KEY cfg) = true.
Hypothesis Hanswer : forall history r, http_get net history r = HttpJson data.
Hypothesis Hfine : is_dict_with data "exception" = false.
Hypothesis Hnone : get_or data "features" (JArr []) = Ok (JArr []).

Lemma resolve_one_in_vain types q out w :
  unresolved_only out ->
  resolve_one net cfg types q out w
  = (Ok (dict_set (normalize_query q) (unresolved_entry q) out),
     log w (search_in_vain cfg types q)).
Proof.
  intros Hout. unfold resolve_one, bind, lift.
  rewrite (unresolved_only_miss out _ Hout).
  unfold find_places, bind, requests_get. rewrite Hkey. simpl.
  rewrite Hanswer, Hfine. unfold ret. rewrite Hnone. simpl.
  rewrite record_unresolved_run, log_log. reflexivity.
Qed.

Lemma resolve_loop_in_vain types queries : forall out w,
  unresolved_only out ->
  resolve_loop net cfg types queries out w
  = (Ok (all_unresolved queries out),
     log w (flat_map (search_in_vain cfg types) queries))
  /\ unresolved_only (all_unresolved queries out).
Proof.
  induction queries as [|q rest IH]; intros out w Hout.
  - simpl. unfold ret. now rewrite log_nil.
  - cbn [resolve_loop all_unresolved fold_left flat_map]. unfold bind.
    rewrite (resolve_one_in_vain types q out w Hout).
    destruct (IH (dict_set (normalize_query q) (unresolved_entry q) out)
                (log w (search_in_vain cfg types q))
                (unresolved_only_set out _ q Hout)) as [-> Hu].
    rewrite log_log. split; [reflexivity|exact Hu].
Qed.

End NothingFound.

(** X24. When the service finds no place at all, the script searches
    each of the twenty queries once, warns after each, saves the mapping
    with an unresolved entry for every query, and ends with
    [SystemExit]; it makes no forecast request and writes no point.
    This is with an API key, no cache file, and a service that answers
    every search with the same document, without ["exception"] and with
    no feature. *)
Theorem script_exits_when_nothing_is_found w data :
  env_set (API_KEY cfg) = true ->
  dict_get (PLACES_PATH cfg) (files w) = None ->
  (forall history r, http_get net history r = HttpJson data) ->
  is_dict_with data "exception" = false ->
  get_or data "features" (JArr []) = Ok (JArr []) ->
  let places := JObj (all_unresolved PLACE_QUERIES []) in
  script net cfg w
  = (SystemExit NOTHING_RESOLVED,
     mkWorld (dict_set (PLACES_PATH cfg) places (files w))
       (trace w
        ++ flat_map (search_in_vain cfg "locality") PLACE_QUERIES
        ++ [EvSaveJson (PLACES_PATH cfg) places]))
  /\ List.length (flat_map (search_in_vain cfg "locality") PLACE_QUERIES)
     = 40.
Proof.
  intros Hk Hfile Ha Hf Hn places. split; [|reflexivity].
  unfold script, resolve_place_ids, bind, load_json. rewrite Hfile.
  unfold lift, py_dict.
  destruct (resolve_loop_in_vain data Hk Ha Hf Hn "locality" PLACE_QUERIES
              [] w (Forall_nil _)) as [-> Hu].
  unfold save_json, ret. cbn [fst snd].
  rewrite (unresolved_only_ids _ Hu).
  unfold log. cbn [files trace]. now rewrite <- app_assoc.
Qed.

End ScriptFacts.

(** No key and no file. *)
Lemma script_without_api_key_witness :
  let net := Demo.service Demo.places_response in
  env_set (API_KEY Sample.cfg_without_key) = false
  /\ dict_get (PLACES_PATH Sample.cfg_without_key) (files Demo.empty_world)
     = None
  /\ script net Sample.cfg_without_key Demo.empty_world
     = (Uncaught
          (RuntimeError "Falta METEOSIX_API_KEY en variables de entorno."),
        Demo.empty_world).
Proof.
  intros net. split; [reflexivity|]. split; [reflexivity|].
  exact (script_without_api_key net Sample.cfg_without_key Demo.empty_world
           eq_refl eq_refl).
Defined.

(** A service that answers every search with no feature. *)
Lemma script_exits_when_nothing_is_found_witness :
  let data := JObj [("type", JStr "FeatureCollection");
                    ("features", JArr [])] in
  let net := Demo.service data in
  env_set (API_KEY Demo.cfg) = true
  /\ get_or data "features" (JArr []) = Ok (JArr [])
  /\ fst (script net Demo.cfg Demo.empty_world)
     = SystemExit NOTHING_RESOLVED.
Proof.
  intros data net. split; [reflexivity|]. split; [reflexivity|].
  rewrite (proj1
    (script_exits_when_nothing_is_found net Demo.cfg Demo.empty_world data
       eq_refl eq_refl (fun _ _ => eq_refl) eq_refl eq_refl)).
  reflexivity.
Defined.
